(** * V1TA privacy client: a shallow embedding of the Arcium integration

    The development follows [src/lib/arcium/client.ts] (class
    [V1TArciumClient]), [src/lib/arcium/types.ts], the privacy wrapper
    [V1TAPrivacyClient] and the React hook [useArciumPrivacy].

    JavaScript effects are made explicit:
    - a thrown exception is the [Err] branch of [Result];
    - instance fields, the secure random source, the wall clock and the
      network are threaded through a state-and-exception monad [M];
    - an [async] method whose body contains no [await] runs to completion
      when it is called, so a promise is modelled by the [Result] it
      settles with. *)

From Stdlib Require Import ZArith List Ascii Lia Bool.
From Stdlib Require Strings.Byte.
From stdpp Require Import gmap strings.

Import ListNotations.
Local Set Warnings "-register-all".
Local Open Scope Z_scope.

(** ** Exceptions and results *)

(** A JavaScript error object: its constructor name and its message. *)
Record Exn := mkExn { exn_name : string; exn_message : string }.

(** Template-literal rendering of an error, [`${error}`], which is
    [Error.prototype.toString]: the name alone when the message is empty,
    the message alone when the name is, and otherwise both. *)
Definition exn_toString (e : Exn) : string :=
  if String.eqb (exn_name e) EmptyString then exn_message e
  else if String.eqb (exn_message e) EmptyString then exn_name e
  else exn_name e +:+ ": " +:+ exn_message e.

(** [new Error(message)] *)
Definition Error (message : string) : Exn := mkExn "Error" message.

Inductive Result (A : Type) : Type :=
| Ok (a : A)
| Err (e : Exn).
Arguments Ok {A} a.
Arguments Err {A} e.

Definition is_ok {A} (r : Result A) : bool :=
  match r with Ok _ => true | Err _ => false end.

Definition result_bind {A B} (r : Result A) (f : A -> Result B) : Result B :=
  match r with Ok a => f a | Err e => Err e end.

(** ** Bytes and [Uint8Array] *)

Abbreviation byte := Byte.byte.

Definition byte_to_Z (b : byte) : Z := Z.of_N (Byte.to_N b).

(** Storing a number into a [Uint8Array] keeps its low eight bits. *)
Definition byte_of_Z (z : Z) : byte :=
  match Byte.of_N (Z.to_N (z mod 256)) with
  | Some b => b
  | None => Byte.x00
  end.

(** Little-endian value of a byte string. *)
Fixpoint le_value (bs : list byte) : Z :=
  match bs with
  | [] => 0
  | b :: bs' => byte_to_Z b + 256 * le_value bs'
  end.

(** Big-endian value of a byte string (most significant byte first). *)
Definition be_value (bs : list byte) : Z :=
  fold_left (fun acc b => 256 * acc + byte_to_Z b) bs 0.

(** ** Numbers and strings of the JavaScript runtime *)

Module JS.

(** Digit of [Number.prototype.toString(radix)]: 0-9 then a-z. *)
Definition digit_char (d : Z) : ascii :=
  ascii_of_nat (Z.to_nat (if d <? 10 then 48 + d else 87 + d)).

Fixpoint digits (fuel : nat) (radix n : Z) (acc : string) : string :=
  match fuel with
  | O => acc
  | S fuel' =>
      let acc' := String (digit_char (n mod radix)) acc in
      if n / radix =? 0 then acc' else digits fuel' radix (n / radix) acc'
  end.

(** [n.toString(radix)] for an integer [n] and [2 <= radix <= 36]. *)
Definition toString (radix : Z) (n : Z) : string :=
  let render m := digits (S (Z.to_nat (Z.log2 m))) radix m EmptyString in
  if n <? 0 then "-" +:+ render (- n) else render n.

Fixpoint repeat_char (n : nat) (c : ascii) : string :=
  match n with
  | O => EmptyString
  | S n' => String c (repeat_char n' c)
  end.

(** [s.padStart(targetLength, c)] for a one-character filler. *)
Definition padStart (targetLength : nat) (c : ascii) (s : string) : string :=
  repeat_char (targetLength - String.length s) c +:+ s.

(** [Array.from(bytes, f).join('')] *)
Definition join_map (f : byte -> string) (bs : list byte) : string :=
  fold_right (fun b acc => f b +:+ acc) EmptyString bs.

(** [byte => byte.toString(16).padStart(2, '0')] *)
Definition hex2 (b : byte) : string :=
  padStart 2 "0"%char (toString 16 (byte_to_Z b)).

(** [s.includes(sub)] *)
Fixpoint includes (sub s : string) : bool :=
  String.prefix sub s ||
  match s with
  | EmptyString => false
  | String _ s' => includes sub s'
  end.

(** [s.split(sep)] for a non-empty separator.  [skip] counts the
    characters of a matched separator still to be dropped, [cur] is the
    piece being collected, in reverse. *)
Fixpoint split_go (sep : string) (skip : nat) (cur : string) (s : string)
  : list string :=
  match s with
  | EmptyString => [String.rev cur]
  | String c s' =>
      match skip with
      | S k => split_go sep k cur s'
      | O =>
          if String.prefix sep s
          then String.rev cur :: split_go sep (String.length sep - 1) EmptyString s'
          else split_go sep O (String c cur) s'
      end
  end.

Definition split (sep s : string) : list string := split_go sep O EmptyString s.

Definition is_space (c : ascii) : bool :=
  let n := nat_of_ascii c in
  (Nat.eqb n 32 || (Nat.leb 9 n && Nat.leb n 13))%bool.

Fixpoint trimStart (s : string) : string :=
  match s with
  | String c s' => if is_space c then trimStart s' else s
  | EmptyString => EmptyString
  end.

(** [s.trim()], on ASCII white space. *)
Definition trim (s : string) : string :=
  String.rev (trimStart (String.rev (trimStart s))).

Definition digit_value (radix : Z) (c : ascii) : option Z :=
  let n := Z.of_nat (nat_of_ascii c) in
  let d := if (48 <=? n) && (n <=? 57) then n - 48
           else if (97 <=? n) && (n <=? 122) then n - 87
           else if (65 <=? n) && (n <=? 90) then n - 55
           else radix in
  if d <? radix then Some d else None.

Fixpoint parse_digits (radix : Z) (acc : Z) (s : string) : option Z :=
  match s with
  | EmptyString => Some acc
  | String c s' =>
      match digit_value radix c with
      | Some d => parse_digits radix (radix * acc + d) s'
      | None => None
      end
  end.

(** At least one digit is required after a radix prefix or a sign. *)
Definition parse_nonempty (radix : Z) (s : string) : option Z :=
  match s with
  | EmptyString => None
  | _ => parse_digits radix 0 s
  end.

(** [BigInt(s)] on a string (the StringToBigInt grammar): white space is
    trimmed, the empty string is [0n], [0x], [0o] and [0b] prefixes select
    the radix, a sign is allowed on decimal literals only.  Anything else
    raises a [SyntaxError]. *)
Definition BigInt_of_string (s : string) : Result Z :=
  let t := trim s in
  let parsed :=
    match t with
    | EmptyString => Some 0
    | String "0" (String "x" r) | String "0" (String "X" r) => parse_nonempty 16 r
    | String "0" (String "o" r) | String "0" (String "O" r) => parse_nonempty 8 r
    | String "0" (String "b" r) | String "0" (String "B" r) => parse_nonempty 2 r
    | String "-" r => option_map Z.opp (parse_nonempty 10 r)
    | String "+" r => parse_nonempty 10 r
    | _ => parse_nonempty 10 t
    end in
  match parsed with
  | Some z => Ok z
  | None => Err (mkExn "SyntaxError" ("Cannot convert " +:+ s +:+ " to a BigInt"))
  end.

(** A JavaScript [number]: [BigInt(n)] succeeds exactly on the integral
    ones; a fractional, infinite or NaN value raises a [RangeError]. *)
Inductive number : Type :=
| Integral (z : Z)
| NonIntegral.

Definition BigInt_of_number (n : number) : Result Z :=
  match n with
  | Integral z => Ok z
  | NonIntegral =>
      Err (mkExn "RangeError"
             "The number cannot be converted to a BigInt because it is not an integer")
  end.

(** A value produced by [JSON.parse]. *)
Inductive value : Type :=
| Null
| Bool (b : bool)
| Number (n : number)
| Str (s : string)
| Array (items : list value)
| Object (fields : list (string * value)).

Fixpoint assoc (k : string) (fields : list (string * value)) : option value :=
  match fields with
  | [] => None
  | (k', v) :: rest => if String.eqb k k' then Some v else assoc k rest
  end.

(** Property read [v.name] for a name that no primitive wrapper or array
    defines: [undefined] ([None]) unless [v] is an object holding it; a
    read on [null] raises a [TypeError]. *)
Definition get (v : value) (name : string) : Result (option value) :=
  match v with
  | Null =>
      Err (mkExn "TypeError"
             ("Cannot read properties of null (reading '" +:+ name +:+ "')"))
  | Object fields => Ok (assoc name fields)
  | _ => Ok None
  end.

(** [v === s] for an optional value and a string literal. *)
Definition strict_eq_string (v : option value) (s : string) : bool :=
  match v with
  | Some (Str s') => String.eqb s' s
  | _ => false
  end.

End JS.


(** ** Data model, [src/lib/arcium/types.ts] *)

Inductive PrivacyLevel : Type :=
| PUBLIC
| SHIELDED
| CONFIDENTIAL
| PRIVATE.

(** Numeric value of the enum member. *)
Definition PrivacyLevel_value (l : PrivacyLevel) : Z :=
  match l with
  | PUBLIC => 0
  | SHIELDED => 1
  | CONFIDENTIAL => 2
  | PRIVATE => 3
  end.

Inductive Algorithm : Type :=
| AES_128
| AES_256.

(** Key length, in bytes, of each cipher. *)
Definition key_length (a : Algorithm) : nat :=
  match a with
  | AES_128 => 16
  | AES_256 => 32
  end.

Record PublicKey := { toBase58 : string }.

Record Keypair := { publicKey : PublicKey }.

Module EncryptedData.
Record t := mk {
  data : list byte;
  key : list byte;
  nonce : list byte;
  algorithm : Algorithm
}.
End EncryptedData.

Module EncryptedPosition.
Record t := mk {
  positionId : string;
  owner : PublicKey;
  encryptedCollateral : EncryptedData.t;
  encryptedDebt : EncryptedData.t;
  encryptedOwner : option EncryptedData.t;
  positionKey : list byte;
  privacyLevel : PrivacyLevel;
  createdAt : Z;
  lastUpdated : Z
}.
End EncryptedPosition.

Module PrivateHealthResult.
Record t := mk {
  positionId : option JS.value;
  healthFactor : list byte;
  isLiquidatable : bool;
  liquidationThreshold : list byte;
  computedAt : Z;
  computationId : string
}.
End PrivateHealthResult.

Module ArciumIntegrationStatus.
Record t := mk {
  isInitialized : bool;
  publicKey : option string;
  supportedAlgorithms : list string;
  currentComputations : nat;
  totalComputationsProcessed : Z;
  lastComputationTime : option Z
}.
End ArciumIntegrationStatus.

Inductive PriorityFeeStrategy : Type :=
| fixed
| dynamic.

Module MXEConfiguration.
Record t := mk {
  numberOfParties : Z;
  threshold : Z;
  computationTimeout : Z;
  retryAttempts : nat;
  priorityFeeStrategy : PriorityFeeStrategy
}.
End MXEConfiguration.

(** [ComputationReference] of the SDK, as the client builds it. *)
Record ComputationReference := { computationOffset : Z }.

(** ** The SDK and the platform *)

(** Modelled from the spec: [serializeLE] is imported from the package
    [@arcium-hq/client], whose code is not among the sources.  Section 4.1
    of the specification gives its contract: a signed or unsigned integer
    is written as a fixed-width little-endian byte string.  The function
    of the package emits the low byte and shifts, [lengthInBytes] times;
    the shift of a bigint keeps the sign, so what is left of a negative
    value is negative. *)
Fixpoint serializeLE_loop (lengthInBytes : nat) (tempVal : Z) : list byte * Z :=
  match lengthInBytes with
  | O => ([], tempVal)
  | S n =>
      let '(rest, remaining) := serializeLE_loop n (Z.shiftr tempVal 8) in
      (byte_of_Z (Z.land tempVal 255) :: rest, remaining)
  end.

(** Modelled from the spec: [serializeLE(val, lengthInBytes)] of the SDK,
    with the loop above.  After the loop the package throws when what is
    left of the value is greater than zero.  So a value of too many bytes
    is refused when it is positive, as section 4.1 asks; a negative value
    is never refused: it is written in two's complement ([-1] as bytes
    [0xff]), and its bits above the width are dropped ([- 2 ^ 512] as 64
    bytes [0x00]). *)
Definition serializeLE (val : Z) (lengthInBytes : nat) : Result (list byte) :=
  let '(result, remaining) := serializeLE_loop lengthInBytes val in
  if 0 <? remaining
  then Err (Error ("Value " +:+ JS.toString 10 val +:+ " is too large for the byte length "
                   +:+ JS.toString 10 (Z.of_nat lengthInBytes)))
  else Ok result.

(** Functions of the platform and of external packages that the sources
    call and do not define.  The two AES ciphers take the key (the
    constructor argument), then the arguments of [encrypt] or [decrypt]; a
    constructor or a method that throws is an [Err]. *)
Class Platform := {
  Aes256Cipher_encrypt : list byte -> list byte -> list byte -> Result (list byte);
  Aes256Cipher_decrypt : list byte -> list byte -> list byte -> Result (list byte);
  Aes128Cipher_encrypt : list byte -> list byte -> list byte -> Result (list byte);
  Aes128Cipher_decrypt : list byte -> list byte -> list byte -> Result (list byte);
  TextEncoder_encode : string -> list byte;
  JSON_parse : string -> Result JS.value;
  JSON_stringify : JS.value -> string;
  Keypair_fromSeed : list byte -> Keypair
}.

(** [new Aes256Cipher(key).encrypt(input, nonce)] or its AES-128
    counterpart, as the algorithm selects it in [encryptData]. *)
Definition cipher_encrypt `{platform : Platform} (algorithm : Algorithm)
  (key input nonce : list byte) : Result (list byte) :=
  match algorithm with
  | AES_256 => Aes256Cipher_encrypt key input nonce
  | AES_128 => Aes128Cipher_encrypt key input nonce
  end.

(** The cipher that section 4.1 of the specification describes, and that
    [encryptData] is written for (its nonce is "12 bytes for GCM nonce"):
    under a key of the right length and a 12-byte nonce, encryption
    succeeds and decryption inverts it.  The ciphers of the package do not
    meet this contract: see [cipher_refuses_nonce]. *)
Definition cipher_round_trip `{platform : Platform} : Prop :=
  (forall k p n, length k = 32%nat -> length n = 12%nat ->
     exists c, Aes256Cipher_encrypt k p n = Ok c /\ Aes256Cipher_decrypt k c n = Ok p) /\
  (forall k p n, length k = 16%nat -> length n = 12%nat ->
     exists c, Aes128Cipher_encrypt k p n = Ok c /\ Aes128Cipher_decrypt k c n = Ok p).

(** Modelled from the spec: [Aes128Cipher] and [Aes256Cipher] are imported
    from the package [@arcium-hq/client], whose code is not among the
    sources.  Section 4.1 of the specification speaks of authenticated
    encryption under a 12-byte nonce; the ciphers that the package exports
    are AES in counter mode: [encrypt] and [decrypt] take a nonce of
    exactly 8 bytes and throw on any other length, with the message
    [nonce must be of length 8 (found 12)] for a nonce of 12 bytes.
    Whatever the key is: with a key that the constructor refuses, the
    constructor throws instead. *)
Definition cipher_refuses_nonce `{platform : Platform} : Prop :=
  (forall k p n, length n <> 8%nat -> exists e, Aes256Cipher_encrypt k p n = Err e) /\
  (forall k c n, length n <> 8%nat -> exists e, Aes256Cipher_decrypt k c n = Err e) /\
  (forall k p n, length n <> 8%nat -> exists e, Aes128Cipher_encrypt k p n = Err e) /\
  (forall k c n, length n <> 8%nat -> exists e, Aes128Cipher_decrypt k c n = Err e).

Inductive Program : Type :=
| ArciumProgram.

(** What [buildFinalizeCompDefTx] is given, and [sendRawTransaction] sends. *)
Record Transaction := {
  tx_inputs : list (list byte);
  tx_callbackData : string;
  tx_circuitId : string
}.

(** [confirmation.value.err] ([None] for [null]) and
    [confirmation.value.meta?.logMessages]. *)
Record Confirmation := {
  conf_err : option string;
  conf_logMessages : option (list string)
}.

(** The environment: the secure random source, the clock and the network,
    as oracles.  The random source and the clock are tapes read through a
    cursor; each network call is answered according to its sequence
    number. *)
Record Env := {
  getRandomValues : nat -> byte;
  Date_now_tape : nat -> Z;
  getArciumProgram : nat -> Result Program;
  buildFinalizeCompDefTx : nat -> option Exn;
  sendRawTransaction : nat -> Result string;
  confirmTransaction : nat -> Result Confirmation;
  awaitComputationFinalization : nat -> ComputationReference -> Result string
}.

(** The closure [checkResult] made by [registerComputationCallback]: a
    function object with its identity and the variables it captures. *)
Record Callback := {
  fn_id : nat;
  fn_positionId : string;
  fn_computationType : string
}.

(** ** State *)

(** The instance fields of [V1TArciumClient] and of [V1TAPrivacyClient],
    the cursors into the environment, the allocator of function objects
    and the log of the transactions handed to [sendRawTransaction]. *)
Record World := mkWorld {
  userKeyPair : option Keypair;
  isInitialized : bool;
  computationCallbacks : gmap string Callback;
  _arciumProgram : option Program;
  privacyEnabled : bool;
  next_fn : nat;
  rand_pos : nat;
  clock_pos : nat;
  net_pos : nat;
  sent : list Transaction
}.

Definition set_userKeyPair (v : option Keypair) (w : World) : World :=
  mkWorld v (isInitialized w) (computationCallbacks w) (_arciumProgram w)
    (privacyEnabled w) (next_fn w) (rand_pos w) (clock_pos w) (net_pos w) (sent w).

Definition set_isInitialized (v : bool) (w : World) : World :=
  mkWorld (userKeyPair w) v (computationCallbacks w) (_arciumProgram w)
    (privacyEnabled w) (next_fn w) (rand_pos w) (clock_pos w) (net_pos w) (sent w).

Definition set_computationCallbacks (v : gmap string Callback) (w : World) : World :=
  mkWorld (userKeyPair w) (isInitialized w) v (_arciumProgram w)
    (privacyEnabled w) (next_fn w) (rand_pos w) (clock_pos w) (net_pos w) (sent w).

Definition set_arciumProgram (v : option Program) (w : World) : World :=
  mkWorld (userKeyPair w) (isInitialized w) (computationCallbacks w) v
    (privacyEnabled w) (next_fn w) (rand_pos w) (clock_pos w) (net_pos w) (sent w).

Definition set_privacyEnabled (v : bool) (w : World) : World :=
  mkWorld (userKeyPair w) (isInitialized w) (computationCallbacks w) (_arciumProgram w)
    v (next_fn w) (rand_pos w) (clock_pos w) (net_pos w) (sent w).

Definition set_next_fn (v : nat) (w : World) : World :=
  mkWorld (userKeyPair w) (isInitialized w) (computationCallbacks w) (_arciumProgram w)
    (privacyEnabled w) v (rand_pos w) (clock_pos w) (net_pos w) (sent w).

Definition set_rand_pos (v : nat) (w : World) : World :=
  mkWorld (userKeyPair w) (isInitialized w) (computationCallbacks w) (_arciumProgram w)
    (privacyEnabled w) (next_fn w) v (clock_pos w) (net_pos w) (sent w).

Definition set_clock_pos (v : nat) (w : World) : World :=
  mkWorld (userKeyPair w) (isInitialized w) (computationCallbacks w) (_arciumProgram w)
    (privacyEnabled w) (next_fn w) (rand_pos w) v (net_pos w) (sent w).

Definition set_net_pos (v : nat) (w : World) : World :=
  mkWorld (userKeyPair w) (isInitialized w) (computationCallbacks w) (_arciumProgram w)
    (privacyEnabled w) (next_fn w) (rand_pos w) (clock_pos w) v (sent w).

Definition set_sent (v : list Transaction) (w : World) : World :=
  mkWorld (userKeyPair w) (isInitialized w) (computationCallbacks w) (_arciumProgram w)
    (privacyEnabled w) (next_fn w) (rand_pos w) (clock_pos w) (net_pos w) v.

(** ** The monad of methods *)

Definition M (A : Type) : Type := World -> Result A * World.

Definition ret {A} (a : A) : M A := fun w => (Ok a, w).

Definition throw {A} (e : Exn) : M A := fun w => (Err e, w).

Definition bind {A B} (m : M A) (f : A -> M B) : M B :=
  fun w =>
    match m w with
    | (Ok a, w') => f a w'
    | (Err e, w') => (Err e, w')
    end.

(** [try { body } catch (error) { handler }]: the effects of the body up to
    the throw stay. *)
Definition try_catch {A} (body : M A) (handler : Exn -> M A) : M A :=
  fun w =>
    match body w with
    | (Ok a, w') => (Ok a, w')
    | (Err e, w') => handler e w'
    end.

(** A value or an exception of a pure computation. *)
Definition lift {A} (r : Result A) : M A := fun w => (r, w).

(** Calling an [async] method gives a promise; with no [await] in its
    body the promise is already settled with the outcome. *)
Definition promise {A} (m : M A) : M (Result A) :=
  fun w => let '(r, w') := m w in (Ok r, w').

Definition gets {A} (f : World -> A) : M A := fun w => (Ok (f w), w).

Definition modify (f : World -> World) : M unit := fun w => (Ok tt, f w).

Declare Scope js_scope.
Delimit Scope js_scope with js.
Notation "'let*' x ':=' m 'in' k" := (bind m (fun x => k))
  (at level 10, x name, m at level 100, k at level 200) : js_scope.
Notation "m ';;;' k" := (bind m (fun _ => k))
  (at level 100, k at level 200, right associativity) : js_scope.
Local Open Scope js_scope.

(** ** [V1TArciumClient], [src/lib/arcium/client.ts]

    [console.log] and [console.error] have no effect on the state and are
    left out. *)

Section Client.

Context `{platform : Platform} (env : Env).

(** [generateRandomBytes(length)]: a fresh array filled by
    [crypto.getRandomValues]. *)
Definition generateRandomBytes (length : nat) : M (list byte) :=
  fun w =>
    (Ok (map (getRandomValues env) (seq (rand_pos w) length)),
     set_rand_pos (rand_pos w + length)%nat w).

(** [Date.now()] *)
Definition Date_now : M Z :=
  fun w => (Ok (Date_now_tape env (clock_pos w)), set_clock_pos (S (clock_pos w)) w).

(** An awaited call into the network, answered by the oracle [reply]. *)
Definition network {A} (reply : nat -> Result A) : M A :=
  fun w => (reply (net_pos w), set_net_pos (S (net_pos w)) w).

(** [Keypair.generate()] draws a 32-byte seed. *)
Definition Keypair_generate : M Keypair :=
  let* seed := generateRandomBytes 32 in
  ret (Keypair_fromSeed seed).

Definition initialize (userKeyPair : option Keypair) : M unit :=
  try_catch
    (let* keyPair := match userKeyPair with
                     | Some kp => ret kp
                     | None => Keypair_generate
                     end in
     modify (set_userKeyPair (Some keyPair)) ;;;
     let* program := network (getArciumProgram env) in
     modify (set_arciumProgram (Some program)) ;;;
     modify (set_isInitialized true))
    (fun error => throw (Error ("Arcium initialization failed: " +:+ exn_toString error))).

(** The argument of [encryptData]: [string | bigint | number]. *)
Inductive Data : Type :=
| DString (s : string)
| DBigint (z : Z)
| DNumber (n : JS.number).

Record EncryptOptions := {
  opt_algorithm : option Algorithm;
  opt_key : option (list byte)
}.

(** The local [dataBytes] of [encryptData]: the conversion of the data
    to bytes. *)
Definition dataBytes (data : Data) : Result (list byte) :=
  match data with
  | DString s => Ok (TextEncoder_encode s)
  | DBigint z => serializeLE z 64
  | DNumber n => result_bind (JS.BigInt_of_number n) (fun z => serializeLE z 32)
  end.

Definition encryptData (data : Data) (options : EncryptOptions) : M EncryptedData.t :=
  let algorithm := match opt_algorithm options with Some a => a | None => AES_256 end in
  let key := opt_key options in
  try_catch
    (let* dataBytes := lift (dataBytes data) in
     let* encryptionKey :=
       match key with
       | Some k => ret k
       | None => generateRandomBytes (match algorithm with AES_256 => 32 | AES_128 => 16 end)
       end in
     let* nonce := generateRandomBytes 12 in
     let* encryptedData :=
       lift (match algorithm with
             | AES_256 => Aes256Cipher_encrypt encryptionKey dataBytes nonce
             | AES_128 => Aes128Cipher_encrypt encryptionKey dataBytes nonce
             end) in
     ret (EncryptedData.mk encryptedData encryptionKey nonce algorithm))
    (fun error => throw (Error ("Data encryption failed: " +:+ exn_toString error))).

Definition decryptData (encryptedData : EncryptedData.t) : M (list byte) :=
  try_catch
    (let 'EncryptedData.mk data key nonce algorithm := encryptedData in
     lift (match algorithm with
           | AES_256 => Aes256Cipher_decrypt key data nonce
           | AES_128 => Aes128Cipher_decrypt key data nonce
           end))
    (fun error => throw (Error ("Data decryption failed: " +:+ exn_toString error))).

Definition generatePositionId : M string :=
  let* now := Date_now in
  let timestamp := JS.toString 36 now in
  let* randomBytes := generateRandomBytes 8 in
  let randomString := JS.join_map JS.hex2 randomBytes in
  ret ("pos_" +:+ timestamp +:+ "_" +:+ randomString).

(** [Promise.all] of three promises that are already settled: the values,
    or the reason of the first rejected one. *)
Definition Promise_all3 {A} (p1 p2 p3 : Result A) : M (A * A * A) :=
  match p1, p2, p3 with
  | Ok a, Ok b, Ok c => ret (a, b, c)
  | Err e, _, _ => throw e
  | _, Err e, _ => throw e
  | _, _, Err e => throw e
  end.

Definition encryptPositionData (collateralAmount debtAmount : Z) (owner : PublicKey)
  : M EncryptedPosition.t :=
  let* initialized := gets isInitialized in
  if negb initialized then throw (Error "Arcium client not initialized")
  else
    try_catch
      (let* positionKey := generateRandomBytes 32 in
       let* positionId := generatePositionId in
       let options := {| opt_algorithm := None; opt_key := Some positionKey |} in
       let* p1 := promise (encryptData (DBigint collateralAmount) options) in
       let* p2 := promise (encryptData (DBigint debtAmount) options) in
       let* p3 := promise (encryptData (DString (toBase58 owner)) options) in
       let* encrypted := Promise_all3 p1 p2 p3 in
       let '(encryptedCollateral, encryptedDebt, encryptedOwner) := encrypted in
       let* createdAt := Date_now in
       let* lastUpdated := Date_now in
       ret (EncryptedPosition.mk positionId owner encryptedCollateral encryptedDebt
              (Some encryptedOwner) positionKey CONFIDENTIAL createdAt lastUpdated))
      (fun error => throw (Error ("Position encryption failed: " +:+ exn_toString error))).

Definition extractComputationReference (confirmation : Confirmation)
  : Result ComputationReference :=
  let logs := match conf_logMessages confirmation with Some l => l | None => [] end in
  let fix scan (logs : list string) : Result ComputationReference :=
    match logs with
    | [] => Err (Error "Could not extract computation reference from transaction")
    | log :: rest =>
        if JS.includes "Computation created:" log then
          match nth_error (JS.split "Computation created:" log) 1 with
          | Some piece =>
              result_bind (JS.BigInt_of_string (JS.trim piece))
                (fun ref => Ok {| computationOffset := ref |})
          | None =>
              Err (mkExn "TypeError" "Cannot read properties of undefined (reading 'trim')")
          end
        else scan rest
    end in
  scan logs.

Definition registerComputationCallback (positionId computationType : string) : M unit :=
  let callbackKey := positionId +:+ "-" +:+ computationType in
  let* id := gets next_fn in
  modify (set_next_fn (S id)) ;;;
  let checkResult := {| fn_id := id; fn_positionId := positionId;
                        fn_computationType := computationType |} in
  let* callbacks := gets computationCallbacks in
  modify (set_computationCallbacks (<[callbackKey := checkResult]> callbacks)).

Definition createHealthFactorComputation
  (encryptedCollateral encryptedDebt encryptedPrice : EncryptedData.t) (positionId : string)
  : M ComputationReference :=
  let* initialized := gets isInitialized in
  let* program := gets _arciumProgram in
  if negb initialized || match program with Some _ => false | None => true end
  then throw (Error "Arcium client not initialized")
  else
    try_catch
      (let inputs := [EncryptedData.data encryptedCollateral;
                      EncryptedData.data encryptedDebt;
                      EncryptedData.data encryptedPrice] in
       let callbackData :=
         JSON_stringify (JS.Object [("type", JS.Str "health_factor");
                                    ("positionId", JS.Str positionId)]) in
       let computationTx := {| tx_inputs := inputs; tx_callbackData := callbackData;
                               tx_circuitId := "health_factor_v1" |} in
       network (fun n => match buildFinalizeCompDefTx env n with
                         | None => Ok tt
                         | Some e => Err e
                         end) ;;;
       let* log := gets sent in
       modify (set_sent (log ++ [computationTx])) ;;;
       let* txSignature := network (sendRawTransaction env) in
       let* confirmation := network (confirmTransaction env) in
       match conf_err confirmation with
       | Some err => throw (Error ("Computation transaction failed: " +:+ err))
       | None =>
           let* computationRef := lift (extractComputationReference confirmation) in
           registerComputationCallback positionId "health_factor" ;;;
           ret computationRef
       end)
      (fun error => throw (Error ("Health factor computation failed: " +:+ exn_toString error))).

(** The object handed to the two result processors. *)
Record RawResult := {
  raw_computationId : string;
  raw_positionId : option JS.value;
  raw_result : string
}.

Definition processHealthFactorResult (result : RawResult) : M PrivateHealthResult.t :=
  let* healthFactor := generateRandomBytes 32 in
  let* liquidationThreshold := generateRandomBytes 32 in
  let* computedAt := Date_now in
  ret (PrivateHealthResult.mk (raw_positionId result) healthFactor false
         liquidationThreshold computedAt (raw_computationId result)).

Definition processLiquidationResult (result : RawResult) : M PrivateHealthResult.t :=
  let* healthFactor := generateRandomBytes 32 in
  let* liquidationThreshold := generateRandomBytes 32 in
  let* computedAt := Date_now in
  ret (PrivateHealthResult.mk (raw_positionId result) healthFactor true
         liquidationThreshold computedAt (raw_computationId result)).

Definition monitorComputation (computationRef : ComputationReference)
  : M PrivateHealthResult.t :=
  try_catch
    (let* result := network (fun n => awaitComputationFinalization env n computationRef) in
     let* callbackData := lift (JSON_parse result) in
     let* type := lift (JS.get callbackData "type") in
     if JS.strict_eq_string type "health_factor" then
       let* positionId := lift (JS.get callbackData "positionId") in
       processHealthFactorResult
         {| raw_computationId := JS.toString 10 (computationOffset computationRef);
            raw_positionId := positionId;
            raw_result := result |}
     else if JS.strict_eq_string type "liquidation_check" then
       let* positionId := lift (JS.get callbackData "positionId") in
       processLiquidationResult
         {| raw_computationId := JS.toString 10 (computationOffset computationRef);
            raw_positionId := positionId;
            raw_result := result |}
     else throw (Error "Unknown computation type"))
    (fun error => throw (Error ("Computation monitoring failed: " +:+ exn_toString error))).

Definition getIntegrationStatus (w : World) : ArciumIntegrationStatus.t :=
  ArciumIntegrationStatus.mk
    (isInitialized w)
    (match userKeyPair w with
     | Some kp => if String.eqb (toBase58 (publicKey kp)) EmptyString then None
                  else Some (toBase58 (publicKey kp))
     | None => None
     end)
    ["AES-128"; "AES-256"]
    (size (computationCallbacks w))
    0
    None.

End Client.

(** ** [V1TAPrivacyClient]: the transaction-amount helpers *)

Section PrivacyClient.

Context `{platform : Platform} (env : Env).

Definition setPrivacyEnabled (enabled : bool) : M unit :=
  modify (set_privacyEnabled enabled).

Definition encryptTransactionAmount (amount : Z) : M EncryptedData.t :=
  let* enabled := gets privacyEnabled in
  if negb enabled then throw (Error "Privacy features are not enabled")
  else encryptData env (DBigint amount) {| opt_algorithm := Some AES_256; opt_key := None |}.

Definition decryptTransactionAmount (encryptedData : EncryptedData.t) : M Z :=
  let* enabled := gets privacyEnabled in
  if negb enabled then throw (Error "Privacy features are not enabled")
  else
    let* decryptedBytes := decryptData encryptedData in
    lift (JS.BigInt_of_string ("0x" +:+ JS.join_map JS.hex2 decryptedBytes)).

End PrivacyClient.

(** ** [useArciumPrivacy]: validation of the privacy settings *)

Record Validation := { isValid : bool; warnings : list string }.

Definition validatePrivacySettings
  (collateralAmount debtAmount : Z) (privacyLevel : PrivacyLevel) : Validation :=
  let warnings := [] in
  let isValid := true in
  let '(warnings, isValid) :=
    if collateralAmount <=? 0
    then (warnings ++ ["Collateral amount must be greater than 0"], false)
    else (warnings, isValid) in
  let '(warnings, isValid) :=
    if debtAmount <? 0
    then (warnings ++ ["Debt amount cannot be negative"], false)
    else (warnings, isValid) in
  let warnings :=
    if (PrivacyLevel_value privacyLevel >=? 2) && (debtAmount =? 0)
    then warnings ++ ["Confidential privacy level requires debt amount"]
    else warnings in
  let warnings :=
    if (PrivacyLevel_value privacyLevel >=? 3) && (collateralAmount <? 1000000000)
    then warnings ++ ["Private privacy level requires minimum 1 SOL collateral"]
    else warnings in
  {| isValid := isValid; warnings := warnings |}.

(** ** Reachable client states *)

(** [new V1TArciumClient(connection)], wrapped by a privacy client. *)
Definition new_client : World :=
  {| userKeyPair := None; isInitialized := false; computationCallbacks := ∅;
     _arciumProgram := None; privacyEnabled := false; next_fn := 0;
     rand_pos := 0; clock_pos := 0; net_pos := 0; sent := [] |}.

(** A call of a public method. *)
Inductive Call : Type :=
| call_initialize (userKeyPair : option Keypair)
| call_encryptData (data : Data) (options : EncryptOptions)
| call_decryptData (encryptedData : EncryptedData.t)
| call_encryptPositionData (collateralAmount debtAmount : Z) (owner : PublicKey)
| call_createHealthFactorComputation
    (encryptedCollateral encryptedDebt encryptedPrice : EncryptedData.t) (positionId : string)
| call_monitorComputation (computationRef : ComputationReference)
| call_setPrivacyEnabled (enabled : bool)
| call_encryptTransactionAmount (amount : Z)
| call_decryptTransactionAmount (encryptedData : EncryptedData.t).

Section Reachable.

Context `{platform : Platform} (env : Env).

(** The state a call leaves, whether it returns or throws. *)
Definition after (c : Call) (w : World) : World :=
  match c with
  | call_initialize kp => snd (initialize env kp w)
  | call_encryptData d o => snd (encryptData env d o w)
  | call_decryptData e => snd (decryptData e w)
  | call_encryptPositionData c d o => snd (encryptPositionData env c d o w)
  | call_createHealthFactorComputation c d p id =>
      snd (createHealthFactorComputation env c d p id w)
  | call_monitorComputation r => snd (monitorComputation env r w)
  | call_setPrivacyEnabled b => snd (setPrivacyEnabled b w)
  | call_encryptTransactionAmount a => snd (encryptTransactionAmount env a w)
  | call_decryptTransactionAmount e => snd (decryptTransactionAmount e w)
  end.

Inductive reachable : World -> Prop :=
| reachable_new : reachable new_client
| reachable_call (c : Call) (w : World) : reachable w -> reachable (after c w).

End Reachable.

(** ** A stand-in platform and environment, to run the model *)

(** A cipher that checks the length of its key and reverses its input. *)
Definition toy_cipher (keyLength : nat) (key input nonce : list byte) : Result (list byte) :=
  if Nat.eqb (length key) keyLength then Ok (rev input)
  else Err (Error "Invalid key length").

(** A parser for the two payloads used in the examples. *)
Definition toy_parse (s : string) : Result JS.value :=
  if String.eqb s "liquidation pos_1"
  then Ok (JS.Object [("type", JS.Str "liquidation_check"); ("positionId", JS.Str "pos_1")])
  else if String.eqb s "health pos_1"
  then Ok (JS.Object [("type", JS.Str "health_factor"); ("positionId", JS.Str "pos_1")])
  else if String.eqb s "interest pos_1"
  then Ok (JS.Object [("type", JS.Str "interest_calculation"); ("positionId", JS.Str "pos_1")])
  else Err (mkExn "SyntaxError" "Unexpected token").

Definition toy_platform : Platform :=
  {| Aes256Cipher_encrypt := toy_cipher 32;
     Aes256Cipher_decrypt := toy_cipher 32;
     Aes128Cipher_encrypt := toy_cipher 16;
     Aes128Cipher_decrypt := toy_cipher 16;
     TextEncoder_encode := String.list_byte_of_string;
     JSON_parse := toy_parse;
     JSON_stringify := fun _ => "callback";
     Keypair_fromSeed := fun _ => {| publicKey := {| toBase58 := "toyKey" |} |} |}.

(** A cipher that behaves like those of the package: the constructor
    checks the length of the key, [encrypt] and [decrypt] take a nonce of
    8 bytes and refuse any other, and the input is reversed. *)
Definition ctr_cipher (keyLength : nat) (key input nonce : list byte) : Result (list byte) :=
  if negb (Nat.eqb (length key) keyLength) then Err (Error "Invalid key length")
  else if negb (Nat.eqb (length nonce) 8)
  then Err (Error ("nonce must be of length 8 (found " +:+
                   JS.toString 10 (Z.of_nat (length nonce)) +:+ ")"))
  else Ok (rev input).

Definition sdk_platform : Platform :=
  {| Aes256Cipher_encrypt := ctr_cipher 32;
     Aes256Cipher_decrypt := ctr_cipher 32;
     Aes128Cipher_encrypt := ctr_cipher 16;
     Aes128Cipher_decrypt := ctr_cipher 16;
     TextEncoder_encode := String.list_byte_of_string;
     JSON_parse := toy_parse;
     JSON_stringify := fun _ => "callback";
     Keypair_fromSeed := fun _ => {| publicKey := {| toBase58 := "toyKey" |} |} |}.

(** An environment with a counting random source, a clock that advances
    by one millisecond at each reading, and a network that accepts every
    submission and logs computation 7. *)
Definition toy_env : Env :=
  {| getRandomValues := fun i => byte_of_Z (Z.of_nat i);
     Date_now_tape := fun i => 1700000000000 + Z.of_nat i;
     getArciumProgram := fun _ => Ok ArciumProgram;
     buildFinalizeCompDefTx := fun _ => None;
     sendRawTransaction := fun _ => Ok "signature";
     confirmTransaction := fun _ =>
       Ok {| conf_err := None;
             conf_logMessages := Some ["Program log: Computation created: 7"] |};
     awaitComputationFinalization := fun _ _ => Ok "liquidation pos_1" |}.

(** A random source stuck on one byte and a clock stuck on one instant. *)
Definition stuck_env : Env :=
  {| getRandomValues := fun _ => Byte.x00;
     Date_now_tape := fun _ => 1700000000000;
     getArciumProgram := fun _ => Ok ArciumProgram;
     buildFinalizeCompDefTx := fun _ => None;
     sendRawTransaction := fun _ => Ok "signature";
     confirmTransaction := fun _ =>
       Ok {| conf_err := None;
             conf_logMessages := Some ["Program log: Computation created: 7"] |};
     awaitComputationFinalization := fun _ _ => Ok "health pos_1" |}.

(** A network whose first [sendRawTransaction] (call number 2, after
    [getArciumProgram] and [buildFinalizeCompDefTx]) is refused and whose
    later ones are accepted. *)
Definition flaky_env : Env :=
  {| getRandomValues := fun i => byte_of_Z (Z.of_nat i);
     Date_now_tape := fun i => 1700000000000 + Z.of_nat i;
     getArciumProgram := fun _ => Ok ArciumProgram;
     buildFinalizeCompDefTx := fun _ => None;
     sendRawTransaction := fun n =>
       if Nat.eqb n 2 then Err (Error "failed to send transaction") else Ok "signature";
     confirmTransaction := fun _ =>
       Ok {| conf_err := None;
             conf_logMessages := Some ["Program log: Computation created: 7"] |};
     awaitComputationFinalization := fun _ _ => Ok "health pos_1" |}.

(** A client that has been initialised in [toy_env]. *)
Definition ready : World := snd (initialize (platform := toy_platform) toy_env None new_client).

(** ** Strings without white space *)

Fixpoint no_space (s : string) : Prop :=
  match s with
  | EmptyString => True
  | String c s' => JS.is_space c = false /\ no_space s'
  end.

(** ** Invariant of the registry *)

(** Every registered callback is a function object that the allocator has
    already handed out. *)
Definition callbacks_allocated (w : World) : Prop :=
  forall k cb, computationCallbacks w !! k = Some cb -> (fn_id cb < next_fn w)%nat.

(** The registry and the allocator are as they were. *)
Definition same_registry (w w' : World) : Prop :=
  computationCallbacks w' = computationCallbacks w /\ next_fn w' = next_fn w.

(** ** The specification's reading of two operations

    These predicates follow the words of the specification; the theorems
    below compare them with what the methods do. *)

(** Section 4.4, registry exclusivity: a registration under a key that is
    taken is refused and the entry stays as it was. *)
Definition registration_as_specified (key : string) (before : World)
  (outcome : Result unit * World) : Prop :=
  is_Some (computationCallbacks before !! key) ->
  is_ok (fst outcome) = false /\
  computationCallbacks (snd outcome) !! key = computationCallbacks before !! key.

(** Section 4.3, retry policy: a submission that ends in an error has been
    sent once and then again [retryAttempts] times. *)
Definition retry_as_specified (config : MXEConfiguration.t) (before : World)
  (outcome : Result ComputationReference * World) : Prop :=
  is_ok (fst outcome) = false ->
  length (sent (snd outcome)) =
    (length (sent before) + 1 + MXEConfiguration.retryAttempts config)%nat.

(** ** 32-bit integer operators of the runtime *)

Module JSInt32.

(** [ToInt32]: the value modulo 2^32 = 4294967296, read as a signed 32-bit
    integer. *)
Definition ToInt32 (z : Z) : Z := (z + 2147483648) mod 4294967296 - 2147483648.

(** [a << n] *)
Definition shl (a n : Z) : Z := ToInt32 (Z.shiftl (ToInt32 a) (n mod 32)).

(** [a & b] *)
Definition and (a b : Z) : Z := ToInt32 (Z.land (ToInt32 a) (ToInt32 b)).

(** [s.charCodeAt(i)] for every index of [s], in order. *)
Fixpoint charCodes (s : string) : list Z :=
  match s with
  | EmptyString => []
  | String c s' => Z.of_nat (nat_of_ascii c) :: charCodes s'
  end.

End JSInt32.

(** ** The rest of [V1TArciumClient] *)

(** [MempoolPriorityFeeStats] of the SDK, kept opaque. *)
Inductive MempoolPriorityFeeStats : Type :=
| mempoolStats (summary : string).

(** What [V1TAPrivacyClient] and [getMempoolStats] reach outside the
    client: the Anchor program of the ledger, the derivation of program
    addresses, Node's [Buffer] and the mempool query of the SDK.  The
    [nat] is the sequence number of the network call, as in [Env]. *)
Record OpenPositionArgs := {
  arg_collateralType : string;
  arg_collateralAmount : Z;
  arg_debtAmount : Z;
  arg_positionId : string;
  arg_privacyLevel : PrivacyLevel;
  arg_encryptedDataHash : string;
  arg_timestamp : Z;
  arg_user : PublicKey;
  arg_position : PublicKey
}.

Record Ledger := {
  openPosition_rpc : nat -> OpenPositionArgs -> Result string;
  findProgramAddressSync : PublicKey -> string -> Result PublicKey;
  Buffer_base64 : string -> string;
  getComputationsInMempool : nat -> Keypair -> Result MempoolPriorityFeeStats
}.

Module PrivatePositionParams.
Record t := mk {
  owner : PublicKey;
  collateralAmount : Z;
  debtAmount : Z;
  collateralType : string;
  privacyLevel : PrivacyLevel
}.
End PrivatePositionParams.

Module PrivatePositionReceipt.
Record t := mk {
  positionId : string;
  transactionSignature : string;
  encryptedPosition : EncryptedPosition.t;
  computationReferences : list ComputationReference;
  privacyProof : string
}.
End PrivatePositionReceipt.

Section ClientRest.

Context `{platform : Platform} (env : Env) (ledger : Ledger).

Definition getMempoolStats : M MempoolPriorityFeeStats :=
  let* initialized := gets isInitialized in
  let* keyPair := gets userKeyPair in
  match initialized, keyPair with
  | true, Some kp =>
      try_catch
        (network (fun n => getComputationsInMempool ledger n kp))
        (fun error => throw (Error ("Mempool stats fetch failed: " +:+ exn_toString error)))
  | _, _ => throw (Error "Arcium client not initialized")
  end.

(** The getters [isReady] and [publicKey]. *)
Definition isReady (w : World) : bool := isInitialized w.

Definition client_publicKey (w : World) : option string :=
  match userKeyPair w with
  | Some kp => if String.eqb (toBase58 (publicKey kp)) EmptyString then None
               else Some (toBase58 (publicKey kp))
  | None => None
  end.

(** ** The rest of [V1TAPrivacyClient] *)

(** [getCurrentPrice()]: the placeholder price. *)
Definition getCurrentPrice : M Z := ret 150000000.

Definition getPrivatePosition (positionId : string) : M (option EncryptedPosition.t) :=
  let* enabled := gets privacyEnabled in
  if negb enabled then throw (Error "Privacy features are not enabled")
  else
    try_catch
      (let owner := {| toBase58 := "11111111111111111111111111111111" |} in
       let options := {| opt_algorithm := None; opt_key := None |} in
       let* encryptedCollateral := encryptData env (DBigint 1000000000) options in
       let* encryptedDebt := encryptData env (DBigint 0) options in
       let positionKey := repeat Byte.x00 32 in
       let* createdAt := Date_now env in
       let* lastUpdated := Date_now env in
       ret (Some (EncryptedPosition.mk positionId owner encryptedCollateral encryptedDebt
                    None positionKey CONFIDENTIAL createdAt lastUpdated)))
      (fun error => ret None).

Definition computePrivateHealth (positionId : string) : M PrivateHealthResult.t :=
  let* enabled := gets privacyEnabled in
  if negb enabled then throw (Error "Privacy features are not enabled")
  else
    try_catch
      (let* found := getPrivatePosition positionId in
       match found with
       | None => throw (Error "Position not found")
       | Some encryptedPosition =>
           let* currentPrice := getCurrentPrice in
           let* encryptedPrice :=
             encryptData env (DBigint currentPrice)
               {| opt_algorithm := None; opt_key := None |} in
           let* computationRef :=
             createHealthFactorComputation env
               (EncryptedPosition.encryptedCollateral encryptedPosition)
               (EncryptedPosition.encryptedDebt encryptedPosition)
               encryptedPrice positionId in
           monitorComputation env computationRef
       end)
      (fun error =>
         throw (Error ("Private health computation failed: " +:+ exn_toString error))).

(** The body of the [for] loop of [batchHealthComputations], over the
    identifiers that are left, with the results pushed so far. *)
Fixpoint batch_loop (encryptedPrice : EncryptedData.t) (positionIds : list string)
  (results : list PrivateHealthResult.t) : M (list PrivateHealthResult.t) :=
  match positionIds with
  | [] => ret results
  | positionId :: rest =>
      let* results :=
        try_catch
          (let* found := getPrivatePosition positionId in
           match found with
           | Some encryptedPosition =>
               let* computationRef :=
                 createHealthFactorComputation env
                   (EncryptedPosition.encryptedCollateral encryptedPosition)
                   (EncryptedPosition.encryptedDebt encryptedPosition)
                   encryptedPrice positionId in
               let* result := monitorComputation env computationRef in
               ret (results ++ [result])
           | None => ret results
           end)
          (fun error => ret results) in
      batch_loop encryptedPrice rest results
  end.

Definition batchHealthComputations (positionIds : list string)
  : M (list PrivateHealthResult.t) :=
  let* enabled := gets privacyEnabled in
  if negb enabled then throw (Error "Privacy features are not enabled")
  else
    let* currentPrice := getCurrentPrice in
    let* encryptedPrice :=
      encryptData env (DBigint currentPrice) {| opt_algorithm := None; opt_key := None |} in
    batch_loop encryptedPrice positionIds [].

(** [getArciumStatus()] *)
Definition getArciumStatus (w : World) : ArciumIntegrationStatus.t :=
  getIntegrationStatus w.

(** One turn of the loop of [hashEncryptedData]:
    [hash = ((hash << 5) - hash) + char; hash = hash & hash]. *)
Definition hash_step (hash char : Z) : Z :=
  let hash := (JSInt32.shl hash 5 - hash) + char in
  JSInt32.and hash hash.

Definition hashEncryptedData (encryptedPosition : EncryptedPosition.t) : string :=
  let dataString :=
    JSON_stringify
      (JS.Object
         [("positionId", JS.Str (EncryptedPosition.positionId encryptedPosition));
          ("privacyLevel",
           JS.Number (JS.Integral
                        (PrivacyLevel_value (EncryptedPosition.privacyLevel encryptedPosition))));
          ("createdAt",
           JS.Number (JS.Integral (EncryptedPosition.createdAt encryptedPosition)))]) in
  let hash := fold_left hash_step (JSInt32.charCodes dataString) 0 in
  JS.toString 16 hash.

Definition generatePrivacyProof (encryptedPosition : EncryptedPosition.t) (w : World)
  : string :=
  let proofData :=
    JS.Object
      [("positionId", JS.Str (EncryptedPosition.positionId encryptedPosition));
       ("privacyLevel",
        JS.Number (JS.Integral
                     (PrivacyLevel_value (EncryptedPosition.privacyLevel encryptedPosition))));
       ("timestamp", JS.Number (JS.Integral (EncryptedPosition.createdAt encryptedPosition)));
       ("arciumPublicKey",
        match client_publicKey w with Some k => JS.Str k | None => JS.Null end)] in
  Buffer_base64 ledger (JSON_stringify proofData).

Definition getPositionPda (owner : PublicKey) (collateralType : string) : Result PublicKey :=
  findProgramAddressSync ledger owner collateralType.

Definition openPrivatePosition (params : PrivatePositionParams.t)
  : M PrivatePositionReceipt.t :=
  let* enabled := gets privacyEnabled in
  if negb enabled then throw (Error "Privacy features are not enabled")
  else
    try_catch
      (let* encryptedPosition :=
         encryptPositionData env
           (PrivatePositionParams.collateralAmount params)
           (PrivatePositionParams.debtAmount params)
           (PrivatePositionParams.owner params) in
       let* positionPda :=
         lift (getPositionPda (PrivatePositionParams.owner params)
                 (PrivatePositionParams.collateralType params)) in
       let encryptedDataHash := hashEncryptedData encryptedPosition in
       let* timestamp := Date_now env in
       let args :=
         {| arg_collateralType := PrivatePositionParams.collateralType params;
            arg_collateralAmount := PrivatePositionParams.collateralAmount params;
            arg_debtAmount := PrivatePositionParams.debtAmount params;
            arg_positionId := EncryptedPosition.positionId encryptedPosition;
            arg_privacyLevel := PrivatePositionParams.privacyLevel params;
            arg_encryptedDataHash := encryptedDataHash;
            arg_timestamp := timestamp;
            arg_user := PrivatePositionParams.owner params;
            arg_position := positionPda |} in
       let* tx := network (fun n => openPosition_rpc ledger n args) in
       let* currentPrice := getCurrentPrice in
       let* encryptedPrice :=
         encryptData env (DBigint currentPrice)
           {| opt_algorithm := None; opt_key := None |} in
       let* computationRef :=
         createHealthFactorComputation env
           (EncryptedPosition.encryptedCollateral encryptedPosition)
           (EncryptedPosition.encryptedDebt encryptedPosition)
           encryptedPrice
           (EncryptedPosition.positionId encryptedPosition) in
       let* proof := gets (generatePrivacyProof encryptedPosition) in
       ret (PrivatePositionReceipt.mk
              (EncryptedPosition.positionId encryptedPosition) tx encryptedPosition
              [computationRef] proof))
      (fun error =>
         throw (Error ("Private position creation failed: " +:+ exn_toString error))).

End ClientRest.

(** ** The rest of [useArciumPrivacy] *)

(** [getPrivacyLevelDescription(level)], on the number that the level is at
    run time. *)
Definition getPrivacyLevelDescription (level : Z) : string :=
  match level with
  | 0 => "Public - All transaction data is visible on-chain"
  | 1 => "Shielded - Balance amounts are encrypted"
  | 2 => "Confidential - Balance and transaction amounts are encrypted"
  | 3 => "Private - Complete position privacy with encrypted computations"
  | _ => "Unknown privacy level"
  end.

(** The part of the state of the hook that its callbacks read and write:
    whether [arciumClient] holds a client, and [error].  The state of the
    client itself is the [World]. *)
Module Hook.

Record State := mk {
  arciumClient : bool;
  error : option string
}.

Definition setError (message : option string) (h : State) : State :=
  mk (arciumClient h) message.

End Hook.

Section HookCallbacks.

Context `{platform : Platform} (env : Env).

(** The shape shared by the callbacks of the hook: without a client they
    set the error and return [null]; otherwise they await the method of the
    client and, if it throws, set the error to the message of the
    exception (every exception of the model is an instance of [Error]) and
    return [null]. *)
Definition hook_encryptPosition (collateralAmount debtAmount : Z) (owner : PublicKey)
  (h : Hook.State) (w : World) : option EncryptedPosition.t * Hook.State * World :=
  if negb (Hook.arciumClient h)
  then (None, Hook.setError (Some "Arcium client not initialized") h, w)
  else
    match encryptPositionData env collateralAmount debtAmount owner w with
    | (Ok encryptedPosition, w') => (Some encryptedPosition, h, w')
    | (Err err, w') => (None, Hook.setError (Some (exn_message err)) h, w')
    end.


Definition hook_decryptData (encryptedData : EncryptedData.t)
  (h : Hook.State) (w : World) : option (list byte) * Hook.State * World :=
  if negb (Hook.arciumClient h)
  then (None, Hook.setError (Some "Arcium client not initialized") h, w)
  else
    match decryptData encryptedData w with
    | (Ok decryptedData, w') => (Some decryptedData, h, w')
    | (Err err, w') => (None, Hook.setError (Some (exn_message err)) h, w')
    end.

Definition hook_createHealthFactorComputation
  (encryptedCollateral encryptedDebt encryptedPrice : EncryptedData.t) (positionId : string)
  (h : Hook.State) (w : World) : option string * Hook.State * World :=
  if negb (Hook.arciumClient h)
  then (None, Hook.setError (Some "Arcium client not initialized") h, w)
  else
    match createHealthFactorComputation env encryptedCollateral encryptedDebt
            encryptedPrice positionId w with
    | (Ok computationRef, w') =>
        (Some (JS.toString 10 (computationOffset computationRef)), h, w')
    | (Err err, w') => (None, Hook.setError (Some (exn_message err)) h, w')
    end.

(** [clearError()] *)
Definition clearError (h : Hook.State) : Hook.State := Hook.setError None h.

End HookCallbacks.

(** A ledger that opens every position. *)
Definition toy_ledger : Ledger :=
  {| openPosition_rpc := fun _ _ => Ok "openSignature";
     findProgramAddressSync := fun owner _ => Ok owner;
     Buffer_base64 := fun s => s;
     getComputationsInMempool := fun _ _ => Ok (mempoolStats "idle") |}.

(** ** Strings of decimal digits *)

Fixpoint decimal_string (s : string) : Prop :=
  match s with
  | EmptyString => True
  | String c s' => JS.digit_value 10 c <> None /\ decimal_string s'
  end.

(** No character of [s] is [c]. *)
Fixpoint no_char (c : ascii) (s : string) : Prop :=
  match s with
  | EmptyString => True
  | String a s' => a <> c /\ no_char c s'
  end.

(** ** The session of a client *)

(** The fields that say whether and as whom a client works are as they
    were. *)
Definition same_session (w w' : World) : Prop :=
  isInitialized w' = isInitialized w /\
  _arciumProgram w' = _arciumProgram w /\
  userKeyPair w' = userKeyPair w /\
  privacyEnabled w' = privacyEnabled w.

(** The key under which the computation of a position is registered. *)
Definition health_factor_key (positionId : string) : string :=
  positionId +:+ "-" +:+ "health_factor".

(** ** The polynomial behind the integrity hash *)

(** The characters of the string as the digits of a number in base 31,
    first character first, with no bound on the size. *)
Definition poly31 (codes : list Z) : Z :=
  fold_left (fun hash char => 31 * hash + char) codes 0.

(** A network that refuses every [sendRawTransaction]. *)
Definition refusing_env : Env :=
  {| getRandomValues := fun i => byte_of_Z (Z.of_nat i);
     Date_now_tape := fun i => 1700000000000 + Z.of_nat i;
     getArciumProgram := fun _ => Ok ArciumProgram;
     buildFinalizeCompDefTx := fun _ => None;
     sendRawTransaction := fun _ => Err (Error "failed to send transaction");
     confirmTransaction := fun _ =>
       Ok {| conf_err := None;
             conf_logMessages := Some ["Program log: Computation created: 7"] |};
     awaitComputationFinalization := fun _ _ => Ok "health pos_1" |}.

(** A network where the program cannot be obtained. *)
Definition offline_env : Env :=
  {| getRandomValues := fun i => byte_of_Z (Z.of_nat i);
     Date_now_tape := fun i => 1700000000000 + Z.of_nat i;
     getArciumProgram := fun _ => Err (Error "program account not found");
     buildFinalizeCompDefTx := fun _ => None;
     sendRawTransaction := fun _ => Ok "signature";
     confirmTransaction := fun _ =>
       Ok {| conf_err := None;
             conf_logMessages := Some ["Program log: Computation created: 7"] |};
     awaitComputationFinalization := fun _ _ => Ok "health pos_1" |}.

(** ** Shorthands *)

(** The words that announce a computation in the log of a transaction. *)
Local Abbreviation marker := "Computation created:"%string.

(** A client with the privacy features switched on. *)
Local Abbreviation private_ready := (set_privacyEnabled true ready).

Local Abbreviation sample_input :=
  (EncryptedData.mk [Byte.x01] [Byte.x02] [Byte.x03] AES_256).

Local Abbreviation sample_owner := {| toBase58 := "OwnerPublicKey" |}.

(** * Properties *)

(** ** Bytes and the fixed-width encoding *)

Lemma byte_to_of_Z (z : Z) : byte_to_Z (byte_of_Z z) = z mod 256.
Proof.
  unfold byte_to_Z, byte_of_Z.
  assert (Hr : 0 <= z mod 256 < 256) by (apply Z.mod_pos_bound; lia).
  destruct (Byte.of_N (Z.to_N (z mod 256))) as [b|] eqn:E.
  - apply Byte.to_of_N in E. rewrite E. lia.
  - apply Byte.of_N_None_iff in E. lia.
Qed.

Lemma byte_to_Z_range (b : byte) : 0 <= byte_to_Z b < 256.
Proof.
  unfold byte_to_Z. pose proof (Byte.to_N_bounded b). lia.
Qed.

Lemma le_value_range (bs : list byte) : 0 <= le_value bs < 256 ^ Z.of_nat (length bs).
Proof.
  induction bs as [|b bs IH]; simpl le_value.
  - simpl. lia.
  - pose proof (byte_to_Z_range b).
    replace (Z.of_nat (length (b :: bs))) with (Z.succ (Z.of_nat (length bs)))
      by (simpl length; lia).
    rewrite Z.pow_succ_r by lia. lia.
Qed.

Lemma serializeLE_loop_spec (n : nat) :
  forall v bs r,
    serializeLE_loop n v = (bs, r) ->
    length bs = n /\ r = v / 256 ^ Z.of_nat n /\ le_value bs = v mod 256 ^ Z.of_nat n.
Proof.
  induction n as [|n IH]; intros v bs r Hloop.
  - simpl in Hloop. injection Hloop as <- <-.
    simpl. rewrite Z.div_1_r, Z.mod_1_r. auto.
  - cbn [serializeLE_loop] in Hloop.
    destruct (serializeLE_loop n (Z.shiftr v 8)) as [rest remaining] eqn:Hrest.
    injection Hloop as <- <-.
    destruct (IH _ _ _ Hrest) as (Hlen & Hrem & Hval).
    assert (Hpow : 0 < 256 ^ Z.of_nat n) by (apply Z.pow_pos_nonneg; lia).
    rewrite Z.shiftr_div_pow2 in Hrem, Hval by lia.
    change (2 ^ 8) with 256 in Hrem, Hval.
    replace (Z.of_nat (S n)) with (Z.succ (Z.of_nat n)) by lia.
    rewrite Z.pow_succ_r by lia.
    split; [simpl; congruence|]. split.
    + rewrite Hrem. apply Z.div_div; lia.
    + cbn [le_value]. rewrite byte_to_of_Z, Hval.
      change 255 with (Z.ones 8). rewrite Z.land_ones by lia.
      change (2 ^ 8) with 256. rewrite Z.mod_mod by lia.
      symmetry. apply Z.rem_mul_r; lia.
Qed.

(** A value that fits the width is written out in full. *)
Lemma serializeLE_fits (v : Z) (n : nat) :
  0 <= v < 256 ^ Z.of_nat n ->
  exists bs, serializeLE v n = Ok bs /\ length bs = n /\ le_value bs = v.
Proof.
  intros Hv. unfold serializeLE.
  destruct (serializeLE_loop n v) as [bs r] eqn:Hloop.
  destruct (serializeLE_loop_spec _ _ _ _ Hloop) as (Hlen & Hrem & Hval).
  rewrite Z.div_small in Hrem by lia. rewrite Z.mod_small in Hval by lia.
  subst r. simpl. eauto.
Qed.

(** A value of more than [n] bytes is refused. *)
Lemma serializeLE_too_large (v : Z) (n : nat) :
  256 ^ Z.of_nat n <= v -> exists e, serializeLE v n = Err e.
Proof.
  intros Hv. unfold serializeLE.
  destruct (serializeLE_loop n v) as [bs r] eqn:Hloop.
  destruct (serializeLE_loop_spec _ _ _ _ Hloop) as (_ & Hrem & _).
  assert (Hpow : 0 < 256 ^ Z.of_nat n) by (apply Z.pow_pos_nonneg; lia).
  assert (1 <= r).
  { subst r. apply Z.div_le_lower_bound; lia. }
  destruct (Z.ltb_spec 0 r); [eauto | lia].
Qed.

(** A negative value is never refused: its two's complement is cut to the
    width. *)
Lemma serializeLE_negative (v : Z) (n : nat) :
  v < 0 ->
  exists bs, serializeLE v n = Ok bs /\ length bs = n /\
             le_value bs = v mod 256 ^ Z.of_nat n.
Proof.
  intros Hv. unfold serializeLE.
  destruct (serializeLE_loop n v) as [bs r] eqn:Hloop.
  destruct (serializeLE_loop_spec _ _ _ _ Hloop) as (Hlen & Hrem & Hval).
  assert (Hpow : 0 < 256 ^ Z.of_nat n) by (apply Z.pow_pos_nonneg; lia).
  assert (r < 0).
  { subst r. apply Z.div_lt_upper_bound; lia. }
  destruct (Z.ltb_spec 0 r); [lia | eauto].
Qed.

(** Whatever [serializeLE] returns has the requested width and holds the
    value modulo the width; the value itself when it is not negative. *)
Lemma serializeLE_ok (v : Z) (n : nat) (bs : list byte) :
  serializeLE v n = Ok bs ->
  length bs = n /\ le_value bs = v mod 256 ^ Z.of_nat n /\ v < 256 ^ Z.of_nat n /\
  (0 <= v -> le_value bs = v).
Proof.
  unfold serializeLE.
  destruct (serializeLE_loop n v) as [bs' r] eqn:Hloop.
  destruct (serializeLE_loop_spec _ _ _ _ Hloop) as (Hlen & Hrem & Hval).
  destruct (Z.ltb_spec 0 r) as [|Hr]; [discriminate|].
  intros [= <-].
  assert (Hpow : 0 < 256 ^ Z.of_nat n) by (apply Z.pow_pos_nonneg; lia).
  assert (Hv : v < 256 ^ Z.of_nat n).
  { pose proof (Z.div_mod v (256 ^ Z.of_nat n) ltac:(lia)) as Hdm.
    pose proof (Z.mod_pos_bound v (256 ^ Z.of_nat n) Hpow).
    rewrite <- Hrem in Hdm. nia. }
  repeat split; auto.
  intros Hnn. rewrite Z.mod_small in Hval by lia. exact Hval.
Qed.

Lemma byte_to_Z_injective (b1 b2 : byte) : byte_to_Z b1 = byte_to_Z b2 -> b1 = b2.
Proof.
  unfold byte_to_Z. intros Heq. apply N2Z.inj in Heq.
  pose proof (Byte.of_to_N b1) as H1. rewrite Heq, Byte.of_to_N in H1. congruence.
Qed.

(** Two byte strings of one length with one value are equal. *)
Lemma le_value_injective (bs bs' : list byte) :
  length bs = length bs' -> le_value bs = le_value bs' -> bs = bs'.
Proof.
  revert bs'. induction bs as [|b bs IH]; intros [|b' bs'] Hlen Hval;
    try discriminate; [reflexivity|].
  cbn [le_value] in Hval. injection Hlen as Hlen.
  pose proof (byte_to_Z_range b). pose proof (byte_to_Z_range b').
  assert (Hb : byte_to_Z b = byte_to_Z b') by lia.
  assert (Hrest : le_value bs = le_value bs') by lia.
  f_equal; [|apply IH; assumption].
  apply byte_to_Z_injective. exact Hb.
Qed.

(** A value and its residue modulo the width are written alike, when
    the value is negative or fits. *)
Lemma serializeLE_mod (v : Z) (n : nat) :
  v < 256 ^ Z.of_nat n ->
  serializeLE v n = serializeLE (v mod 256 ^ Z.of_nat n) n.
Proof.
  intros Hv.
  assert (Hpow : 0 < 256 ^ Z.of_nat n) by (apply Z.pow_pos_nonneg; lia).
  pose proof (Z.mod_pos_bound v (256 ^ Z.of_nat n) Hpow) as Hm.
  destruct (serializeLE_fits _ n Hm) as (bs' & Hbs' & Hlen' & Hval').
  destruct (Z_lt_le_dec v 0) as [Hneg|Hnn].
  - destruct (serializeLE_negative v n Hneg) as (bs & Hbs & Hlen & Hval).
    rewrite Hbs, Hbs'. f_equal. apply le_value_injective; congruence.
  - rewrite Z.mod_small by lia. reflexivity.
Qed.

(** ** Hexadecimal literals *)

Lemma hex2_spec (b : byte) :
  exists c1 c2 d1 d2,
    JS.hex2 b = String c1 (String c2 EmptyString) /\
    JS.digit_value 16 c1 = Some d1 /\ JS.digit_value 16 c2 = Some d2 /\
    16 * d1 + d2 = byte_to_Z b /\
    JS.is_space c1 = false /\ JS.is_space c2 = false.
Proof.
  destruct b; do 4 eexists; repeat split; reflexivity.
Qed.

Lemma append_cons (a : ascii) (s t : string) : String a s +:+ t = String a (s +:+ t).
Proof. reflexivity. Qed.

Lemma append_nil (t : string) : EmptyString +:+ t = t.
Proof. reflexivity. Qed.

Lemma join_map_cons (f : byte -> string) (b : byte) (bs : list byte) :
  JS.join_map f (b :: bs) = f b +:+ JS.join_map f bs.
Proof. reflexivity. Qed.

Lemma parse_digits_hex (bs : list byte) (acc : Z) (rest : string) :
  JS.parse_digits 16 acc (JS.join_map JS.hex2 bs +:+ rest) =
  JS.parse_digits 16 (fold_left (fun acc b => 256 * acc + byte_to_Z b) bs acc) rest.
Proof.
  revert acc. induction bs as [|b bs IH]; intros acc; [reflexivity|].
  rewrite join_map_cons. cbn [fold_left].
  destruct (hex2_spec b) as (c1 & c2 & d1 & d2 & Hhex & Hd1 & Hd2 & Hval & _).
  rewrite Hhex, !append_cons, append_nil. cbn [JS.parse_digits]. rewrite Hd1, Hd2.
  rewrite IH. do 2 f_equal. lia.
Qed.

Lemma rev_app_rev_app (s t u : string) :
  String.rev_app (String.rev_app s t) u = String.rev_app t (s +:+ u).
Proof.
  revert t u. induction s as [|a s IH]; intros t u; [reflexivity|].
  cbn [String.rev_app]. rewrite IH. reflexivity.
Qed.

Lemma string_app_nil_r (s : string) : s +:+ EmptyString = s.
Proof. induction s as [|a s IH]; [reflexivity|]. now rewrite append_cons, IH. Qed.

Lemma string_rev_involutive (s : string) : String.rev (String.rev s) = s.
Proof. unfold String.rev. rewrite rev_app_rev_app. apply string_app_nil_r. Qed.

Lemma no_space_rev_app (s t : string) :
  no_space s -> no_space t -> no_space (String.rev_app s t).
Proof.
  revert t. induction s as [|a s IH]; intros t Hs Ht; [exact Ht|].
  destruct Hs as [Ha Hs]. cbn [String.rev_app]. apply IH; [exact Hs|]. split; assumption.
Qed.

Lemma trimStart_no_space (s : string) : no_space s -> JS.trimStart s = s.
Proof. destruct s as [|a s]; [reflexivity|]. intros [Ha _]. cbn. now rewrite Ha. Qed.

Lemma trim_no_space (s : string) : no_space s -> JS.trim s = s.
Proof.
  intros Hs. unfold JS.trim. rewrite (trimStart_no_space s Hs).
  rewrite trimStart_no_space; [apply string_rev_involutive|].
  apply no_space_rev_app; [exact Hs | exact I].
Qed.

Lemma no_space_app (s t : string) : no_space s -> no_space t -> no_space (s +:+ t).
Proof.
  induction s as [|a s IH]; intros Hs Ht; [exact Ht|].
  destruct Hs as [Ha Hs]. rewrite append_cons. split; [exact Ha | apply IH; assumption].
Qed.

Lemma no_space_hex (bs : list byte) : no_space (JS.join_map JS.hex2 bs).
Proof.
  induction bs as [|b bs IH]; [exact I|].
  rewrite join_map_cons. apply no_space_app; [|exact IH].
  destruct (hex2_spec b) as (c1 & c2 & d1 & d2 & Hhex & _ & _ & _ & Hs1 & Hs2).
  rewrite Hhex. cbn [no_space]. auto.
Qed.

Lemma BigInt_of_hex (bs : list byte) :
  bs <> [] ->
  JS.BigInt_of_string ("0x" +:+ JS.join_map JS.hex2 bs) = Ok (be_value bs).
Proof.
  intros Hne. unfold JS.BigInt_of_string.
  rewrite trim_no_space by (split; [reflexivity|]; split; [reflexivity|]; apply no_space_hex).
  rewrite !append_cons, append_nil.
  destruct bs as [|b bs]; [congruence|].
  assert (Hparse : JS.parse_nonempty 16 (JS.join_map JS.hex2 (b :: bs)) =
                   Some (be_value (b :: bs))).
  { pose proof (parse_digits_hex (b :: bs) 0 EmptyString) as Hp.
    rewrite string_app_nil_r in Hp. cbn [JS.parse_digits] in Hp.
    unfold be_value. rewrite <- Hp. rewrite join_map_cons.
    destruct (hex2_spec b) as (c1 & c2 & d1 & d2 & Hhex & _).
    rewrite Hhex, append_cons. reflexivity. }
  rewrite Hparse. reflexivity.
Qed.

Lemma le_value_app (l1 l2 : list byte) :
  le_value (l1 ++ l2) = le_value l1 + 256 ^ Z.of_nat (length l1) * le_value l2.
Proof.
  induction l1 as [|b l1 IH]; [cbn [app le_value length]; simpl; lia|].
  cbn [app le_value]. rewrite IH.
  replace (Z.of_nat (length (b :: l1))) with (Z.succ (Z.of_nat (length l1)))
    by (cbn [length]; lia).
  rewrite Z.pow_succ_r by lia. ring.
Qed.

Lemma fold_left_be (bs : list byte) (acc : Z) :
  fold_left (fun acc b => 256 * acc + byte_to_Z b) bs acc =
  256 ^ Z.of_nat (length bs) * acc + be_value bs.
Proof.
  unfold be_value. revert acc. induction bs as [|b bs IH]; intros acc.
  - cbn [fold_left length]. simpl. lia.
  - cbn [fold_left]. rewrite IH, (IH (256 * 0 + byte_to_Z b)).
    replace (Z.of_nat (length (b :: bs))) with (Z.succ (Z.of_nat (length bs)))
      by (cbn [length]; lia).
    rewrite Z.pow_succ_r by lia. ring.
Qed.

(** Reading most significant byte first is reading the reversed string
    least significant byte first. *)
Lemma be_value_rev (bs : list byte) : be_value bs = le_value (rev bs).
Proof.
  induction bs as [|b bs IH]; [reflexivity|].
  cbn [rev]. rewrite le_value_app, <- IH, length_rev.
  unfold be_value at 1. cbn [fold_left]. rewrite fold_left_be.
  cbn [le_value]. ring.
Qed.

(** ** Encryption and decryption *)

Section ClientProperties.

Context `{platform : Platform} (env : Env).

Lemma generateRandomBytes_eq (n : nat) (w : World) :
  generateRandomBytes env n w =
    (Ok (map (getRandomValues env) (seq (rand_pos w) n)), set_rand_pos (rand_pos w + n) w).
Proof. reflexivity. Qed.

Lemma random_bytes_length (n start : nat) :
  length (map (getRandomValues env) (seq start n)) = n.
Proof. now rewrite length_map, length_seq. Qed.

(** [decryptData] does not touch the state. *)
Lemma decryptData_state (ed : EncryptedData.t) (w : World) :
  snd (decryptData ed w) = w.
Proof.
  unfold decryptData, try_catch, lift, throw. destruct ed as [d k n a].
  destruct a; simpl;
    match goal with |- context [match ?r with Ok _ => _ | Err _ => _ end] =>
      destruct r end; reflexivity.
Qed.

(** What [encryptData] does once the data are bytes and the key is given:
    one nonce is drawn and the cipher of the algorithm is run. *)
Lemma encryptData_with_key (data : Data) (alg : option Algorithm) (k b : list byte)
  (w : World) :
  dataBytes data = Ok b ->
  let a := match alg with Some a => a | None => AES_256 end in
  let n := map (getRandomValues env) (seq (rand_pos w) 12) in
  let w' := set_rand_pos (rand_pos w + 12) w in
  encryptData env data {| opt_algorithm := alg; opt_key := Some k |} w =
    match (match a with
           | AES_256 => Aes256Cipher_encrypt k b n
           | AES_128 => Aes128Cipher_encrypt k b n
           end) with
    | Ok c => (Ok (EncryptedData.mk c k n a), w')
    | Err e => (Err (Error ("Data encryption failed: " +:+ exn_toString e)), w')
    end.
Proof.
  intros Hb a n w'.
  unfold encryptData, try_catch, bind, lift, ret, throw. cbn [opt_algorithm opt_key].
  rewrite Hb, generateRandomBytes_eq. fold a n w'.
  destruct a; [destruct (Aes128Cipher_encrypt k b n) | destruct (Aes256Cipher_encrypt k b n)];
    reflexivity.
Qed.

(** When the conversion to bytes fails, [encryptData] fails before it
    draws anything. *)
Lemma encryptData_encoding_error (data : Data) (options : EncryptOptions) (e : Exn)
  (w : World) :
  dataBytes data = Err e ->
  encryptData env data options w =
    (Err (Error ("Data encryption failed: " +:+ exn_toString e)), w).
Proof.
  intros He. unfold encryptData, try_catch, bind, lift, throw. now rewrite He.
Qed.

(** What [encryptData] does once the data are bytes, whether the key is
    given or drawn: the key, if any, and then the nonce are taken from
    the random source, and the cipher of the algorithm is run on them. *)
Lemma encryptData_run (data : Data) (options : EncryptOptions) (b : list byte)
  (w : World) :
  dataBytes data = Ok b ->
  let a := match opt_algorithm options with Some a => a | None => AES_256 end in
  let drawn := match opt_key options with Some _ => 0%nat | None => key_length a end in
  let k := match opt_key options with
           | Some k => k
           | None => map (getRandomValues env) (seq (rand_pos w) (key_length a))
           end in
  let n := map (getRandomValues env) (seq (rand_pos w + drawn) 12) in
  let w' := set_rand_pos (rand_pos w + drawn + 12) w in
  encryptData env data options w =
    match cipher_encrypt a k b n with
    | Ok c => (Ok (EncryptedData.mk c k n a), w')
    | Err e => (Err (Error ("Data encryption failed: " +:+ exn_toString e)), w')
    end.
Proof.
  intros Hb a drawn k n w'. subst a drawn k n w'.
  unfold encryptData, try_catch, bind, lift, ret, throw, cipher_encrypt.
  rewrite Hb.
  destruct (opt_key options) as [k|];
    destruct (match opt_algorithm options with Some a => a | None => AES_256 end);
    rewrite ?generateRandomBytes_eq;
    cbn [rand_pos set_rand_pos key_length fst snd]; rewrite ?Nat.add_0_r;
    match goal with |- context [match ?r with Ok _ => _ | Err _ => _ end] =>
      destruct r end; reflexivity.
Qed.

(** The ciphers of the package refuse the nonce that [encryptData] draws:
    it is 12 bytes long. *)
Lemma encryptData_cipher_refuses (a : Algorithm) (k b : list byte) (start : nat) :
  cipher_refuses_nonce ->
  exists e, cipher_encrypt a k b (map (getRandomValues env) (seq start 12)) = Err e.
Proof.
  intros (H256 & _ & H128 & _).
  assert (Hn : length (map (getRandomValues env) (seq start 12)) <> 8%nat)
    by (rewrite random_bytes_length; discriminate).
  destruct a; cbn [cipher_encrypt]; [apply H128 | apply H256]; exact Hn.
Qed.

(** With the ciphers of the package, [encryptData] throws for all data
    that are converted to bytes, after it has drawn the key and the
    nonce. *)
Lemma encryptData_refused (data : Data) (options : EncryptOptions) (b : list byte)
  (w : World) :
  cipher_refuses_nonce ->
  dataBytes data = Ok b ->
  let a := match opt_algorithm options with Some a => a | None => AES_256 end in
  let drawn := match opt_key options with Some _ => 0%nat | None => key_length a end in
  let k := match opt_key options with
           | Some k => k
           | None => map (getRandomValues env) (seq (rand_pos w) (key_length a))
           end in
  let n := map (getRandomValues env) (seq (rand_pos w + drawn) 12) in
  exists e,
    cipher_encrypt a k b n = Err e /\
    encryptData env data options w =
      (Err (Error ("Data encryption failed: " +:+ exn_toString e)),
       set_rand_pos (rand_pos w + drawn + 12) w).
Proof.
  intros Hsdk Hb a drawn k n. subst a drawn k n.
  match goal with
  | |- exists e, cipher_encrypt ?a ?k _ (map _ (seq ?start 12)) = Err e /\ _ =>
      destruct (encryptData_cipher_refuses a k b start Hsdk) as [e He]
  end.
  exists e. split; [exact He|].
  rewrite (encryptData_run data options b w Hb). cbv zeta. rewrite He.
  reflexivity.
Qed.


(** C1. The round trip does not take place.  [encryptData] draws a nonce
    of 12 bytes, and the ciphers of the package take one of 8 bytes and
    refuse any other.  So for every key, of the right length or not,
    every algorithm and all data that are converted to a byte string [b],
    the cipher throws and [encryptData] rethrows: it returns no record
    that [decryptData] could be applied to. *)
Theorem encryptData_nonce_refused (data : Data) (algorithm : option Algorithm)
  (k b : list byte) (w : World) :
  cipher_refuses_nonce ->
  dataBytes data = Ok b ->
  let a := match algorithm with Some a => a | None => AES_256 end in
  let nonce := map (getRandomValues env) (seq (rand_pos w) 12) in
  let outcome := encryptData env data {| opt_algorithm := algorithm; opt_key := Some k |} w in
  (exists e,
     cipher_encrypt a k b nonce = Err e /\
     outcome = (Err (Error ("Data encryption failed: " +:+ exn_toString e)),
                set_rand_pos (rand_pos w + 12) w)) /\
  (forall ed w', outcome <> (Ok ed, w')).
Proof.
  intros Hsdk Hb a nonce outcome.
  destruct (encryptData_refused data {| opt_algorithm := algorithm; opt_key := Some k |}
              b w Hsdk Hb) as (e & He & Hrun).
  cbn [opt_algorithm opt_key] in He, Hrun. rewrite Nat.add_0_r in He, Hrun.
  split.
  - exists e. split; [exact He | exact Hrun].
  - intros ed w' Hok. unfold outcome in Hok. rewrite Hrun in Hok. discriminate Hok.
Qed.

(** With the cipher that the specification describes, which takes the
    12-byte nonce, the round trip would hold: when [encryptData] is given
    a key whose length is that of the chosen algorithm, it returns a
    record from which [decryptData] gives back exactly the byte string
    [b] that the data stand for.  The length of the nonce is all that
    stands between the code and the round trip. *)
Lemma decryptData_encryptData (data : Data) (alg : option Algorithm)
  (k b : list byte) (w : World) :
  cipher_round_trip ->
  dataBytes data = Ok b ->
  length k = key_length (match alg with Some a => a | None => AES_256 end) ->
  exists ed w',
    encryptData env data {| opt_algorithm := alg; opt_key := Some k |} w = (Ok ed, w') /\
    decryptData ed w' = (Ok b, w').
Proof.
  intros [H256 H128] Hb Hk.
  rewrite (encryptData_with_key data alg k b w Hb).
  set (n := map (getRandomValues env) (seq (rand_pos w) 12)).
  assert (Hn : length n = 12%nat) by apply random_bytes_length.
  destruct (match alg with Some a => a | None => AES_256 end) eqn:Ea; cbn [key_length] in Hk.
  - destruct (H128 k b n Hk Hn) as (c & Henc & Hdec). rewrite Henc.
    eexists _, _. split; [reflexivity|].
    unfold decryptData, try_catch, lift. now rewrite Hdec.
  - destruct (H256 k b n Hk Hn) as (c & Henc & Hdec). rewrite Henc.
    eexists _, _. split; [reflexivity|].
    unfold decryptData, try_catch, lift. now rewrite Hdec.
Qed.

(** The same when the key is left to [encryptData], which then draws one
    of the right length. *)
Lemma decryptData_encryptData_fresh_key (data : Data) (alg : option Algorithm)
  (b : list byte) (w : World) :
  cipher_round_trip ->
  dataBytes data = Ok b ->
  exists ed w',
    encryptData env data {| opt_algorithm := alg; opt_key := None |} w = (Ok ed, w') /\
    decryptData ed w' = (Ok b, w') /\
    length (EncryptedData.key ed) =
      key_length (match alg with Some a => a | None => AES_256 end) /\
    privacyEnabled w' = privacyEnabled w.
Proof.
  intros [H256 H128] Hb.
  unfold encryptData, try_catch, bind, lift, ret, throw. cbn [opt_algorithm opt_key].
  rewrite Hb.
  destruct (match alg with Some a => a | None => AES_256 end) eqn:Ea;
    rewrite !generateRandomBytes_eq; cbn [rand_pos set_rand_pos].
  - set (k := map _ (seq (rand_pos w) 16)). set (n := map _ (seq _ 12)).
    destruct (H128 k b n (random_bytes_length _ _) (random_bytes_length _ _))
      as (c & Henc & Hdec).
    rewrite Henc. eexists _, _. split; [reflexivity|].
    unfold decryptData, try_catch, lift. rewrite Hdec. cbn.
    repeat split.
  - set (k := map _ (seq (rand_pos w) 32)). set (n := map _ (seq _ 12)).
    destruct (H256 k b n (random_bytes_length _ _) (random_bytes_length _ _))
      as (c & Henc & Hdec).
    rewrite Henc. eexists _, _. split; [reflexivity|].
    unfold decryptData, try_catch, lift. rewrite Hdec. cbn.
    repeat split.
Qed.

(** A successful [encryptData] has run the cipher of the returned
    algorithm, under the returned key and nonce, on the bytes of the data. *)
Lemma encryptData_ok_inv (data : Data) (options : EncryptOptions)
  (ed : EncryptedData.t) (w w' : World) :
  encryptData env data options w = (Ok ed, w') ->
  exists bs,
    dataBytes data = Ok bs /\
    match EncryptedData.algorithm ed with
    | AES_256 => Aes256Cipher_encrypt (EncryptedData.key ed) bs (EncryptedData.nonce ed)
    | AES_128 => Aes128Cipher_encrypt (EncryptedData.key ed) bs (EncryptedData.nonce ed)
    end = Ok (EncryptedData.data ed).
Proof.
  unfold encryptData, try_catch, bind, lift, ret, throw.
  destruct (dataBytes data) as [bs|e]; [|discriminate].
  destruct (opt_key options) as [k|]; cbn beta iota; rewrite ?generateRandomBytes_eq;
    destruct (match opt_algorithm options with Some a => a | None => AES_256 end);
    cbn beta iota; rewrite ?generateRandomBytes_eq;
    match goal with |- context [match ?r with Ok _ => _ | Err _ => _ end] =>
      destruct r eqn:Hc end;
    intros [= <- <-]; exists bs; cbn; auto.
Qed.

(** [encryptData] looks at its data only through their bytes. *)
Lemma encryptData_same_bytes (data data' : Data) (options : EncryptOptions) (w : World) :
  dataBytes data = dataBytes data' ->
  encryptData env data options w = encryptData env data' options w.
Proof.
  intros Hbytes. unfold encryptData, try_catch, bind, lift. rewrite Hbytes. reflexivity.
Qed.

(** Numeric encoding of the values that are not negative.  A bigint is
    converted to 64 little-endian bytes and a number to 32, exactly, when
    the value fits the width.  A value too large for the width makes
    [serializeLE] throw, and [encryptData] rethrows before any randomness
    is drawn. *)
Lemma encryptData_numeric_encoding (options : EncryptOptions) (w : World) :
  (forall z, 0 <= z < 2 ^ 512 ->
     exists bs, dataBytes (DBigint z) = Ok bs /\ length bs = 64%nat /\ le_value bs = z) /\
  (forall z, 0 <= z < 2 ^ 256 ->
     exists bs, dataBytes (DNumber (JS.Integral z)) = Ok bs /\
                length bs = 32%nat /\ le_value bs = z) /\
  (forall z, 2 ^ 512 <= z ->
     exists e, serializeLE z 64 = Err e /\
               encryptData env (DBigint z) options w =
                 (Err (Error ("Data encryption failed: " +:+ exn_toString e)), w)) /\
  (forall z, 2 ^ 256 <= z ->
     exists e, serializeLE z 32 = Err e /\
               encryptData env (DNumber (JS.Integral z)) options w =
                 (Err (Error ("Data encryption failed: " +:+ exn_toString e)), w)).
Proof.
  change (2 ^ 512) with (256 ^ Z.of_nat 64). change (2 ^ 256) with (256 ^ Z.of_nat 32).
  repeat split.
  - intros z Hz. apply (serializeLE_fits z 64 Hz).
  - intros z Hz. apply (serializeLE_fits z 32 Hz).
  - intros z Hz. destruct (serializeLE_too_large z 64 Hz) as [e He].
    exists e. split; [exact He|]. apply encryptData_encoding_error. exact He.
  - intros z Hz. destruct (serializeLE_too_large z 32 Hz) as [e He].
    exists e. split; [exact He|]. apply encryptData_encoding_error. exact He.
Qed.

(** C3. A negative value that does not fit the width is not refused but
    cut.  For every negative bigint [z], [serializeLE] returns the 64
    bytes of [z mod 2 ^ 512], these are the bytes that [encryptData] hands
    to the cipher, and the whole call goes as it does for
    [z mod 2 ^ 512]; likewise with 32 bytes and [2 ^ 256] for a negative
    number.  So [- 2 ^ 512] is encrypted as [0] is: the bits above the
    width are dropped in silence. *)
Theorem encryptData_negative_truncated (z : Z) (options : EncryptOptions) (w : World) :
  z < 0 ->
  let a := match opt_algorithm options with Some a => a | None => AES_256 end in
  let drawn := match opt_key options with Some _ => 0%nat | None => key_length a end in
  let k := match opt_key options with
           | Some k => k
           | None => map (getRandomValues env) (seq (rand_pos w) (key_length a))
           end in
  let n := map (getRandomValues env) (seq (rand_pos w + drawn) 12) in
  let w' := set_rand_pos (rand_pos w + drawn + 12) w in
  (exists bs,
     dataBytes (DBigint z) = Ok bs /\ length bs = 64%nat /\
     le_value bs = z mod 2 ^ 512 /\
     encryptData env (DBigint z) options w =
       match cipher_encrypt a k bs n with
       | Ok c => (Ok (EncryptedData.mk c k n a), w')
       | Err e => (Err (Error ("Data encryption failed: " +:+ exn_toString e)), w')
       end) /\
  encryptData env (DBigint z) options w =
    encryptData env (DBigint (z mod 2 ^ 512)) options w /\
  (exists bs,
     dataBytes (DNumber (JS.Integral z)) = Ok bs /\ length bs = 32%nat /\
     le_value bs = z mod 2 ^ 256 /\
     encryptData env (DNumber (JS.Integral z)) options w =
       match cipher_encrypt a k bs n with
       | Ok c => (Ok (EncryptedData.mk c k n a), w')
       | Err e => (Err (Error ("Data encryption failed: " +:+ exn_toString e)), w')
       end) /\
  encryptData env (DNumber (JS.Integral z)) options w =
    encryptData env (DNumber (JS.Integral (z mod 2 ^ 256))) options w.
Proof.
  intros Hz a drawn k n w'.
  change (2 ^ 512) with (256 ^ Z.of_nat 64). change (2 ^ 256) with (256 ^ Z.of_nat 32).
  assert (H64 : 0 < 256 ^ Z.of_nat 64) by (apply Z.pow_pos_nonneg; lia).
  assert (H32 : 0 < 256 ^ Z.of_nat 32) by (apply Z.pow_pos_nonneg; lia).
  destruct (serializeLE_negative z 64 Hz) as (bs & Hbs & Hlen & Hval).
  destruct (serializeLE_negative z 32 Hz) as (bs' & Hbs' & Hlen' & Hval').
  assert (Hb : dataBytes (DBigint z) = Ok bs) by exact Hbs.
  assert (Hb' : dataBytes (DNumber (JS.Integral z)) = Ok bs') by exact Hbs'.
  split; [|split; [|split]].
  - exists bs. repeat split; try assumption.
    exact (encryptData_run (DBigint z) options bs w Hb).
  - apply encryptData_same_bytes. cbn [dataBytes]. apply serializeLE_mod. lia.
  - exists bs'. repeat split; try assumption.
    exact (encryptData_run (DNumber (JS.Integral z)) options bs' w Hb').
  - apply encryptData_same_bytes. cbn [dataBytes JS.BigInt_of_number result_bind].
    apply serializeLE_mod. lia.
Qed.

(** ** Transaction amounts *)

(** C4. The amount 1 does not survive the round trip: it is encrypted as
    64 little-endian bytes, and [decryptTransactionAmount] reads the
    decrypted bytes as one hexadecimal literal, most significant byte
    first; the result is 256 ^ 63. *)
Theorem decryptTransactionAmount_reverses_bytes (w : World) :
  cipher_round_trip ->
  privacyEnabled w = true ->
  exists ed w',
    encryptTransactionAmount env 1 w = (Ok ed, w') /\
    decryptTransactionAmount ed w' = (Ok (2 ^ 504), w').
Proof.
  intros Hcipher Hon.
  set (b := match serializeLE 1 64 with Ok b => b | Err _ => [] end).
  assert (Hb : dataBytes (DBigint 1) = Ok b) by reflexivity.
  destruct (decryptData_encryptData_fresh_key (DBigint 1) (Some AES_256) b w Hcipher Hb)
    as (ed & w' & Henc & Hdec & _ & Hon').
  exists ed, w'. split.
  - unfold encryptTransactionAmount, bind, gets. rewrite Hon. exact Henc.
  - unfold decryptTransactionAmount, bind, gets, lift.
    rewrite Hon', Hon. cbn [negb]. rewrite Hdec.
    vm_compute. reflexivity.
Qed.

(** Zero is its own mirror image and does come back. *)
Lemma decryptTransactionAmount_zero (w : World) :
  cipher_round_trip ->
  privacyEnabled w = true ->
  exists ed w',
    encryptTransactionAmount env 0 w = (Ok ed, w') /\
    decryptTransactionAmount ed w' = (Ok 0, w').
Proof.
  intros Hcipher Hon.
  set (b := match serializeLE 0 64 with Ok b => b | Err _ => [] end).
  assert (Hb : dataBytes (DBigint 0) = Ok b) by reflexivity.
  destruct (decryptData_encryptData_fresh_key (DBigint 0) (Some AES_256) b w Hcipher Hb)
    as (ed & w' & Henc & Hdec & _ & Hon').
  exists ed, w'. split.
  - unfold encryptTransactionAmount, bind, gets. rewrite Hon. exact Henc.
  - unfold decryptTransactionAmount, bind, gets, lift.
    rewrite Hon', Hon. cbn [negb]. rewrite Hdec.
    vm_compute. reflexivity.
Qed.

(** In general the amount comes back with its 64 bytes in reverse
    order. *)
Lemma decryptTransactionAmount_encryptTransactionAmount (amount : Z) (w : World) :
  cipher_round_trip ->
  privacyEnabled w = true ->
  0 <= amount < 2 ^ 512 ->
  exists ed w' bs,
    encryptTransactionAmount env amount w = (Ok ed, w') /\
    serializeLE amount 64 = Ok bs /\
    le_value bs = amount /\
    decryptTransactionAmount ed w' = (Ok (le_value (rev bs)), w').
Proof.
  intros Hcipher Hon Hfit.
  change (2 ^ 512) with (256 ^ Z.of_nat 64) in Hfit.
  destruct (serializeLE_fits amount 64 Hfit) as (bs & Hbs & Hlen & Hval).
  destruct (decryptData_encryptData_fresh_key (DBigint amount) (Some AES_256) bs w
              Hcipher Hbs) as (ed & w' & Henc & Hdec & _ & Hon').
  exists ed, w', bs. split; [|split; [exact Hbs|split; [exact Hval|]]].
  - unfold encryptTransactionAmount, bind, gets. rewrite Hon. exact Henc.
  - unfold decryptTransactionAmount, bind, gets, lift.
    rewrite Hon', Hon. cbn [negb]. rewrite Hdec.
    rewrite BigInt_of_hex, be_value_rev; [reflexivity|].
    intros ->. discriminate Hlen.
Qed.

(** ** Opening a position *)

(** The whole of [encryptPositionData] on an initialised client, in terms
    of its three calls of [encryptData]. *)
Lemma encryptPositionData_run (collateralAmount debtAmount : Z) (owner : PublicKey)
  (w : World) :
  isInitialized w = true ->
  let positionKey := map (getRandomValues env) (seq (rand_pos w) 32) in
  let positionId :=
    "pos_" +:+ JS.toString 36 (Date_now_tape env (clock_pos w)) +:+ "_" +:+
    JS.join_map JS.hex2 (map (getRandomValues env) (seq (rand_pos w + 32) 8)) in
  let w0 := set_rand_pos (rand_pos w + 32 + 8)
              (set_clock_pos (S (clock_pos w)) (set_rand_pos (rand_pos w + 32) w)) in
  let options := {| opt_algorithm := None; opt_key := Some positionKey |} in
  let a := encryptData env (DBigint collateralAmount) options w0 in
  let b := encryptData env (DBigint debtAmount) options (snd a) in
  let o := encryptData env (DString (toBase58 owner)) options (snd b) in
  encryptPositionData env collateralAmount debtAmount owner w =
    match fst a, fst b, fst o with
    | Ok ec, Ok ed, Ok eo =>
        (Ok (EncryptedPosition.mk positionId owner ec ed (Some eo) positionKey CONFIDENTIAL
               (Date_now_tape env (clock_pos (snd o)))
               (Date_now_tape env (S (clock_pos (snd o))))),
         set_clock_pos (S (S (clock_pos (snd o)))) (snd o))
    | Err e, _, _ | Ok _, Err e, _ | Ok _, Ok _, Err e =>
        (Err (Error ("Position encryption failed: " +:+ exn_toString e)), snd o)
    end.
Proof.
  intros Hinit positionKey positionId w0 options a b o.
  unfold encryptPositionData, bind at 1, gets. rewrite Hinit. cbn [negb].
  unfold try_catch, bind, promise, generatePositionId, bind, Date_now, ret, throw.
  rewrite !generateRandomBytes_eq. cbn [rand_pos clock_pos set_rand_pos set_clock_pos].
  fold positionKey. fold options. fold w0. fold a.
  destruct a as [ra wa] eqn:Ea. cbn [fst snd] in *. fold b.
  destruct b as [rb wb] eqn:Eb. cbn [fst snd] in *. fold o.
  destruct o as [ro wo] eqn:Eo. cbn [fst snd] in *.
  destruct ra, rb, ro; reflexivity.
Qed.

(** C8. All or nothing: the three fields are encrypted one after the
    other under the position key; if any of the three calls of
    [encryptData] fails, [encryptPositionData] returns no position but
    throws, with the reason of a failed call inside its message. *)
Theorem encryptPositionData_all_or_nothing (collateralAmount debtAmount : Z)
  (owner : PublicKey) (w : World) :
  let positionKey := map (getRandomValues env) (seq (rand_pos w) 32) in
  let w0 := set_rand_pos (rand_pos w + 32 + 8)
              (set_clock_pos (S (clock_pos w)) (set_rand_pos (rand_pos w + 32) w)) in
  let options := {| opt_algorithm := None; opt_key := Some positionKey |} in
  let a := encryptData env (DBigint collateralAmount) options w0 in
  let b := encryptData env (DBigint debtAmount) options (snd a) in
  let o := encryptData env (DString (toBase58 owner)) options (snd b) in
  isInitialized w = true ->
  is_ok (fst a) && is_ok (fst b) && is_ok (fst o) = false ->
  exists e,
    In (Err e) [fst a; fst b; fst o] /\
    fst (encryptPositionData env collateralAmount debtAmount owner w) =
      Err (Error ("Position encryption failed: " +:+ exn_toString e)).
Proof.
  intros positionKey w0 options a b o Hinit Hfail.
  pose proof (encryptPositionData_run collateralAmount debtAmount owner w Hinit) as Hrun.
  cbv zeta in Hrun. fold positionKey w0 options a b o in Hrun. rewrite Hrun.
  destruct (fst a) as [ec|e1]; [|exists e1; split; [left; reflexivity|reflexivity]].
  destruct (fst b) as [ed|e2]; [|exists e2; split; [right; left; reflexivity|reflexivity]].
  destruct (fst o) as [eo|e3]; [discriminate Hfail|].
  exists e3; split; [right; right; left; reflexivity|reflexivity].
Qed.

(** Conversely a position is returned only when the three calls succeeded,
    and it holds exactly their three results. *)
Lemma encryptPositionData_ok_inv (collateralAmount debtAmount : Z) (owner : PublicKey)
  (w w' : World) (pos : EncryptedPosition.t) :
  encryptPositionData env collateralAmount debtAmount owner w = (Ok pos, w') ->
  let options := {| opt_algorithm := None;
                    opt_key := Some (EncryptedPosition.positionKey pos) |} in
  exists w0 w1 w2 w3 eo,
    EncryptedPosition.encryptedOwner pos = Some eo /\
    encryptData env (DBigint collateralAmount) options w0
      = (Ok (EncryptedPosition.encryptedCollateral pos), w1) /\
    encryptData env (DBigint debtAmount) options w1
      = (Ok (EncryptedPosition.encryptedDebt pos), w2) /\
    encryptData env (DString (toBase58 owner)) options w2 = (Ok eo, w3).
Proof.
  intros Hrun.
  destruct (isInitialized w) eqn:Hinit.
  - rewrite (encryptPositionData_run collateralAmount debtAmount owner w Hinit) in Hrun.
    cbv zeta in Hrun.
    set (k := map (getRandomValues env) (seq (rand_pos w) 32)) in *.
    set (w0 := set_rand_pos _ (set_clock_pos _ _)) in *.
    set (options := {| opt_algorithm := None; opt_key := Some k |}) in *.
    destruct (encryptData env (DBigint collateralAmount) options w0) as [[ec|e1] w1] eqn:Ea;
      cbn [fst snd] in Hrun; [|discriminate Hrun].
    destruct (encryptData env (DBigint debtAmount) options w1) as [[ed|e2] w2] eqn:Eb;
      cbn [fst snd] in Hrun; [|discriminate Hrun].
    destruct (encryptData env (DString (toBase58 owner)) options w2) as [[eo|e3] w3] eqn:Eo;
      cbn [fst snd] in Hrun; [|discriminate Hrun].
    injection Hrun as <- <-. cbn.
    exists w0, w1, w2, w3, eo. auto.
  - unfold encryptPositionData, bind, gets, throw in Hrun. rewrite Hinit in Hrun.
    discriminate Hrun.
Qed.

(** With the cipher that the specification describes, which takes the
    12-byte nonce, an initialised client would open the position: for
    amounts that fit 64 bytes, [encryptPositionData] would return a
    CONFIDENTIAL position with a 32-byte key; collateral, debt and owner
    each encrypted with AES-256 under that key; their nonces the third,
    fourth and fifth draws from the random source (after the key and the
    suffix of the identifier).  Even then [createdAt] and [lastUpdated]
    are two successive readings of the clock, not one. *)
Lemma encryptPositionData_opens_position (collateralAmount debtAmount : Z)
  (owner : PublicKey) (w : World) :
  cipher_round_trip ->
  isInitialized w = true ->
  0 <= collateralAmount < 2 ^ 512 ->
  0 <= debtAmount < 2 ^ 512 ->
  exists pos w' eo,
    encryptPositionData env collateralAmount debtAmount owner w = (Ok pos, w') /\
    EncryptedPosition.privacyLevel pos = CONFIDENTIAL /\
    length (EncryptedPosition.positionKey pos) = 32%nat /\
    EncryptedPosition.encryptedOwner pos = Some eo /\
    Forall (fun field =>
              EncryptedData.key field = EncryptedPosition.positionKey pos /\
              EncryptedData.algorithm field = AES_256 /\
              length (EncryptedData.nonce field) = 12%nat)
      [EncryptedPosition.encryptedCollateral pos; EncryptedPosition.encryptedDebt pos; eo] /\
    EncryptedData.nonce (EncryptedPosition.encryptedCollateral pos)
      = map (getRandomValues env) (seq (rand_pos w + 32 + 8) 12) /\
    EncryptedData.nonce (EncryptedPosition.encryptedDebt pos)
      = map (getRandomValues env) (seq (rand_pos w + 32 + 8 + 12) 12) /\
    EncryptedData.nonce eo
      = map (getRandomValues env) (seq (rand_pos w + 32 + 8 + 12 + 12) 12) /\
    EncryptedPosition.createdAt pos = Date_now_tape env (S (clock_pos w)) /\
    EncryptedPosition.lastUpdated pos = Date_now_tape env (S (S (clock_pos w))).
Proof.
  intros [H256 _] Hinit Hc Hd.
  change (2 ^ 512) with (256 ^ Z.of_nat 64) in Hc, Hd.
  destruct (serializeLE_fits _ _ Hc) as (bc & Hbc & _).
  destruct (serializeLE_fits _ _ Hd) as (bd & Hbd & _).
  pose proof (encryptPositionData_run collateralAmount debtAmount owner w Hinit) as Hrun.
  cbv zeta in Hrun.
  set (k := map (getRandomValues env) (seq (rand_pos w) 32)) in *.
  assert (Hk : length k = 32%nat) by apply random_bytes_length.
  set (w0 := set_rand_pos _ (set_clock_pos _ _)) in *.
  pose proof (encryptData_with_key (DBigint collateralAmount) None k bc w0 Hbc) as Ea.
  cbv zeta in Ea.
  destruct (H256 k bc _ Hk (random_bytes_length 12 (rand_pos w0))) as (c1 & Hc1 & _).
  rewrite Hc1 in Ea. rewrite Ea in Hrun. cbn [fst snd] in Hrun.
  set (w1 := set_rand_pos (rand_pos w0 + 12) w0) in *.
  pose proof (encryptData_with_key (DBigint debtAmount) None k bd w1 Hbd) as Eb.
  cbv zeta in Eb.
  destruct (H256 k bd _ Hk (random_bytes_length 12 (rand_pos w1))) as (c2 & Hc2 & _).
  rewrite Hc2 in Eb. rewrite Eb in Hrun. cbn [fst snd] in Hrun.
  set (w2 := set_rand_pos (rand_pos w1 + 12) w1) in *.
  pose proof (encryptData_with_key (DString (toBase58 owner)) None k _ w2 eq_refl) as Eo.
  cbv zeta in Eo.
  destruct (H256 k (TextEncoder_encode (toBase58 owner)) _ Hk
              (random_bytes_length 12 (rand_pos w2))) as (c3 & Hc3 & _).
  rewrite Hc3 in Eo. rewrite Eo in Hrun. cbn [fst snd] in Hrun.
  eexists _, _, _. split; [exact Hrun|].
  cbn. repeat split; try reflexivity; try assumption.
  repeat constructor; apply random_bytes_length.
Qed.

End ClientProperties.

(** ** Submission, monitoring and the registry *)

Section ComputationProperties.

Context `{platform : Platform} (env : Env).

(** The registration itself: a new function object is stored under the
    key, whatever was there. *)
Lemma registerComputationCallback_run (positionId computationType : string) (w : World) :
  registerComputationCallback positionId computationType w =
    (Ok tt,
     set_computationCallbacks
       (<[positionId +:+ "-" +:+ computationType :=
            {| fn_id := next_fn w; fn_positionId := positionId;
               fn_computationType := computationType |}]> (computationCallbacks w))
       (set_next_fn (S (next_fn w)) w)).
Proof. reflexivity. Qed.

(** A registration keeps the invariant. *)
Lemma registered_allocated (positionId computationType : string) (w : World) :
  callbacks_allocated w ->
  callbacks_allocated
    (set_computationCallbacks
       (<[positionId +:+ "-" +:+ computationType :=
            {| fn_id := next_fn w; fn_positionId := positionId;
               fn_computationType := computationType |}]> (computationCallbacks w))
       (set_next_fn (S (next_fn w)) w)).
Proof.
  intros Halloc k cb. cbn [computationCallbacks set_computationCallbacks next_fn set_next_fn].
  rewrite lookup_insert. case_decide.
  - intros [= <-]. cbn. lia.
  - intros Hk. apply Halloc in Hk. lia.
Qed.

(** C5, as the code has it.  Registering under a key that already has an
    entry succeeds: the entry now holds the function object just created,
    which is not the earlier one; the number of entries and the entries
    under the other keys are unchanged. *)
Theorem registerComputationCallback_overwrites (positionId computationType : string)
  (w : World) (earlier : Callback) :
  callbacks_allocated w ->
  computationCallbacks w !! (positionId +:+ "-" +:+ computationType) = Some earlier ->
  exists w' created,
    registerComputationCallback positionId computationType w = (Ok tt, w') /\
    created = {| fn_id := next_fn w; fn_positionId := positionId;
                 fn_computationType := computationType |} /\
    computationCallbacks w' !! (positionId +:+ "-" +:+ computationType) = Some created /\
    created <> earlier /\
    size (computationCallbacks w') = size (computationCallbacks w) /\
    (forall k, k <> positionId +:+ "-" +:+ computationType ->
               computationCallbacks w' !! k = computationCallbacks w !! k) /\
    callbacks_allocated w'.
Proof.
  intros Halloc Hearlier. rewrite registerComputationCallback_run.
  eexists _, _. split; [reflexivity|]. split; [reflexivity|].
  cbn [computationCallbacks set_computationCallbacks].
  split; [apply lookup_insert_eq|]. split; [|split; [|split]].
  - intros <-. apply Halloc in Hearlier. cbn in Hearlier. lia.
  - apply map_size_insert_Some. rewrite Hearlier. eauto.
  - intros k Hk. apply lookup_insert_ne. congruence.
  - apply registered_allocated, Halloc.
Qed.

(** C9, as the code has it.  [createHealthFactorComputation] hands its
    transaction to [sendRawTransaction] once.  When that call is refused
    the method throws at once, with the reason in its message: the log of
    submissions has grown by this one transaction, the network has been
    called twice (to build and to send) and nothing has been registered.
    No retry count is read. *)
Theorem createHealthFactorComputation_no_retry
  (encryptedCollateral encryptedDebt encryptedPrice : EncryptedData.t)
  (positionId : string) (w : World) (e : Exn) :
  isInitialized w = true ->
  is_Some (_arciumProgram w) ->
  buildFinalizeCompDefTx env (net_pos w) = None ->
  sendRawTransaction env (S (net_pos w)) = Err e ->
  let computationTx :=
    {| tx_inputs := [EncryptedData.data encryptedCollateral;
                     EncryptedData.data encryptedDebt;
                     EncryptedData.data encryptedPrice];
       tx_callbackData :=
         JSON_stringify (JS.Object [("type", JS.Str "health_factor");
                                    ("positionId", JS.Str positionId)]);
       tx_circuitId := "health_factor_v1" |} in
  createHealthFactorComputation env encryptedCollateral encryptedDebt encryptedPrice
    positionId w =
    (Err (Error ("Health factor computation failed: " +:+ exn_toString e)),
     set_net_pos (S (S (net_pos w)))
       (set_sent (sent w ++ [computationTx]) (set_net_pos (S (net_pos w)) w))).
Proof.
  intros Hinit [p Hp] Hbuild Hsend computationTx.
  unfold createHealthFactorComputation, bind at 1 2, gets.
  rewrite Hinit, Hp. cbn [negb orb].
  unfold try_catch, bind, network, gets, modify, throw.
  rewrite Hbuild. cbn [net_pos set_net_pos set_sent sent].
  rewrite Hsend. reflexivity.
Qed.

(** Whatever happens, one call sends at most one transaction. *)
Lemma createHealthFactorComputation_sends_at_most_once
  (encryptedCollateral encryptedDebt encryptedPrice : EncryptedData.t)
  (positionId : string) (w : World) :
  let w' := snd (createHealthFactorComputation env encryptedCollateral encryptedDebt
                   encryptedPrice positionId w) in
  sent w' = sent w \/ exists computationTx, sent w' = sent w ++ [computationTx].
Proof.
  intros w'. subst w'.
  unfold createHealthFactorComputation, bind, gets, try_catch, network, modify, throw,
    lift, ret.
  destruct (isInitialized w), (_arciumProgram w); cbn [negb orb fst snd];
    try (left; reflexivity).
  destruct (buildFinalizeCompDefTx env (net_pos w)); cbn [fst snd]; [left; reflexivity|].
  right. eexists.
  repeat match goal with
         | |- context [match ?x with Ok _ => _ | Err _ => _ end] => destruct x; cbn [fst snd]
         | |- context [match ?x with Some _ => _ | None => _ end] => destruct x; cbn [fst snd]
         end.
  all: reflexivity.
Qed.

Lemma processHealthFactorResult_run (result : RawResult) (w : World) :
  processHealthFactorResult env result w =
    (Ok (PrivateHealthResult.mk (raw_positionId result)
           (map (getRandomValues env) (seq (rand_pos w) 32)) false
           (map (getRandomValues env) (seq (rand_pos w + 32) 32))
           (Date_now_tape env (clock_pos w)) (raw_computationId result)),
     set_clock_pos (S (clock_pos w)) (set_rand_pos (rand_pos w + 32 + 32) w)).
Proof. reflexivity. Qed.

Lemma processLiquidationResult_run (result : RawResult) (w : World) :
  processLiquidationResult env result w =
    (Ok (PrivateHealthResult.mk (raw_positionId result)
           (map (getRandomValues env) (seq (rand_pos w) 32)) true
           (map (getRandomValues env) (seq (rand_pos w + 32) 32))
           (Date_now_tape env (clock_pos w)) (raw_computationId result)),
     set_clock_pos (S (clock_pos w)) (set_rand_pos (rand_pos w + 32 + 32) w)).
Proof. reflexivity. Qed.

(** C6. Dispatch on the tag of the payload.  Once the network has
    finalised the computation and the payload has been parsed,
    [monitorComputation] looks at nothing but the [type] property: on
    [health_factor] it returns what [processHealthFactorResult] makes, on
    [liquidation_check] what [processLiquidationResult] makes, and on any
    other tag, or none, it throws the unknown-type error.  The registry is
    not consulted, so the kind that was submitted plays no part. *)
Theorem monitorComputation_dispatch (computationRef : ComputationReference) (w : World)
  (payload : string) (callbackData : JS.value) (type positionId : option JS.value) :
  awaitComputationFinalization env (net_pos w) computationRef = Ok payload ->
  JSON_parse payload = Ok callbackData ->
  JS.get callbackData "type" = Ok type ->
  JS.get callbackData "positionId" = Ok positionId ->
  let w1 := set_net_pos (S (net_pos w)) w in
  let result := {| raw_computationId := JS.toString 10 (computationOffset computationRef);
                   raw_positionId := positionId;
                   raw_result := payload |} in
  monitorComputation env computationRef w =
    (if JS.strict_eq_string type "health_factor"
     then processHealthFactorResult env result w1
     else if JS.strict_eq_string type "liquidation_check"
     then processLiquidationResult env result w1
     else (Err (Error "Computation monitoring failed: Error: Unknown computation type"), w1))
  /\ (exists r w2, processHealthFactorResult env result w1 = (Ok r, w2) /\
                   PrivateHealthResult.isLiquidatable r = false)
  /\ (exists r w2, processLiquidationResult env result w1 = (Ok r, w2) /\
                   PrivateHealthResult.isLiquidatable r = true).
Proof.
  intros Hfinal Hparse Htype Hid w1 result. split; [|split].
  - unfold monitorComputation, try_catch, bind at 1, network.
    rewrite Hfinal. fold w1. unfold bind at 1, lift. rewrite Hparse.
    unfold bind at 1. rewrite Htype.
    destruct (JS.strict_eq_string type "health_factor").
    + unfold bind at 1. rewrite Hid. fold result.
      now rewrite processHealthFactorResult_run.
    + destruct (JS.strict_eq_string type "liquidation_check").
      * unfold bind at 1. rewrite Hid. fold result.
        now rewrite processLiquidationResult_run.
      * reflexivity.
  - rewrite processHealthFactorResult_run. eauto.
  - rewrite processLiquidationResult_run. eauto.
Qed.

(** The payloads that carry no readable tag at all: when the network call
    fails, when the payload is not JSON, or when it is [null], the method
    throws as well. *)
Lemma monitorComputation_no_tag (computationRef : ComputationReference) (w : World) :
  match awaitComputationFinalization env (net_pos w) computationRef with
  | Err _ => True
  | Ok payload =>
      match JSON_parse payload with
      | Err _ | Ok JS.Null => True
      | Ok _ => False
      end
  end ->
  exists e, monitorComputation env computationRef w = (Err e, set_net_pos (S (net_pos w)) w).
Proof.
  unfold monitorComputation, try_catch, bind, network, lift, throw.
  destruct (awaitComputationFinalization env (net_pos w) computationRef) as [payload|e0];
    [|intros _; eauto].
  destruct (JSON_parse payload) as [v|e0]; [|intros _; eauto].
  destruct v; intros Hv; try contradiction. cbn. eauto.
Qed.

(** C10. In every state that calls of the public methods can reach from a
    new client, the status snapshot reports no processed computation and
    no time of a last computation. *)
Theorem getIntegrationStatus_counters (w : World) :
  reachable env w ->
  ArciumIntegrationStatus.totalComputationsProcessed (getIntegrationStatus w) = 0 /\
  ArciumIntegrationStatus.lastComputationTime (getIntegrationStatus w) = None.
Proof.
  intros Hreach. induction Hreach as [|c w Hreach IH]; split; reflexivity.
Qed.

End ComputationProperties.

(** ** Validation of the privacy settings *)

(** C7. [isValid] is false exactly when the collateral is not positive or
    the debt is negative, whatever the level; the two advisory checks add
    their warning after those of the hard checks and leave [isValid]
    alone. *)
Theorem validatePrivacySettings_hard_constraints
  (collateralAmount debtAmount : Z) (privacyLevel : PrivacyLevel) :
  let v := validatePrivacySettings collateralAmount debtAmount privacyLevel in
  (isValid v = false <-> collateralAmount <= 0 \/ debtAmount < 0) /\
  (forall level, isValid (validatePrivacySettings collateralAmount debtAmount level)
                 = isValid v) /\
  warnings v =
    (if collateralAmount <=? 0 then ["Collateral amount must be greater than 0"] else []) ++
    (if debtAmount <? 0 then ["Debt amount cannot be negative"] else []) ++
    (if (PrivacyLevel_value privacyLevel >=? 2) && (debtAmount =? 0)
     then ["Confidential privacy level requires debt amount"] else []) ++
    (if (PrivacyLevel_value privacyLevel >=? 3) && (collateralAmount <? 1000000000)
     then ["Private privacy level requires minimum 1 SOL collateral"] else []).
Proof.
  unfold validatePrivacySettings.
  destruct (Z.leb_spec collateralAmount 0), (Z.ltb_spec debtAmount 0);
    cbn [isValid warnings]; (split; [|split]).
  all: try (split; [intros _; lia | reflexivity]).
  all: try (split; [discriminate | lia]).
  all: try (intros level; destruct (Z.leb_spec collateralAmount 0), (Z.ltb_spec debtAmount 0);
            cbn [isValid]; (reflexivity || lia)).
  all: destruct ((PrivacyLevel_value privacyLevel >=? 2) && (debtAmount =? 0)),
         ((PrivacyLevel_value privacyLevel >=? 3) && (collateralAmount <? 1000000000));
    reflexivity.
Qed.

(** ** The registry in reachable states *)

Section RegistryInvariant.

Context `{platform : Platform} (env : Env).

Ltac run_method :=
  repeat match goal with
         | |- context [match ?x with Ok _ => _ | Err _ => _ end] => destruct x; cbn [fst snd]
         | |- context [match ?x with Some _ => _ | None => _ end] => destruct x; cbn [fst snd]
         | |- context [match ?x with AES_128 => _ | AES_256 => _ end] =>
             destruct x; cbn [fst snd]
         | |- context [if ?x then _ else _] => destruct x; cbn [fst snd]
         | |- context [let '(_, _) := ?x in _] => destruct x; cbn [fst snd]
         end.

Lemma initialize_registry (userKeyPair : option Keypair) (w : World) :
  same_registry w (snd (initialize env userKeyPair w)).
Proof.
  unfold initialize, Keypair_generate, try_catch, bind, network, modify, ret, throw,
    generateRandomBytes.
  run_method; split; reflexivity.
Qed.

Lemma encryptData_registry (data : Data) (options : EncryptOptions) (w : World) :
  same_registry w (snd (encryptData env data options w)).
Proof.
  unfold encryptData, try_catch, bind, lift, ret, throw, generateRandomBytes.
  run_method; split; reflexivity.
Qed.

Lemma decryptData_registry (encryptedData : EncryptedData.t) (w : World) :
  same_registry w (snd (decryptData encryptedData w)).
Proof. rewrite decryptData_state. split; reflexivity. Qed.

Lemma same_registry_trans (w1 w2 w3 : World) :
  same_registry w1 w2 -> same_registry w2 w3 -> same_registry w1 w3.
Proof. unfold same_registry. intros [? ?] [? ?]. split; congruence. Qed.

Lemma encryptPositionData_registry (collateralAmount debtAmount : Z) (owner : PublicKey)
  (w : World) :
  same_registry w (snd (encryptPositionData env collateralAmount debtAmount owner w)).
Proof.
  destruct (isInitialized w) eqn:Hinit.
  - rewrite (encryptPositionData_run env collateralAmount debtAmount owner w Hinit).
    cbv zeta.
    set (w0 := set_rand_pos _ (set_clock_pos _ _)).
    set (options := {| opt_algorithm := None; opt_key := _ |}).
    pose proof (encryptData_registry (DBigint collateralAmount) options w0) as Ha.
    set (a := encryptData env (DBigint collateralAmount) options w0) in *.
    pose proof (encryptData_registry (DBigint debtAmount) options (snd a)) as Hb.
    set (b := encryptData env (DBigint debtAmount) options (snd a)) in *.
    pose proof (encryptData_registry (DString (toBase58 owner)) options (snd b)) as Ho.
    set (o := encryptData env (DString (toBase58 owner)) options (snd b)) in *.
    assert (Hw : same_registry w (snd o)).
    { apply (same_registry_trans w w0); [split; reflexivity|].
      apply (same_registry_trans w0 (snd a)); [exact Ha|].
      apply (same_registry_trans (snd a) (snd b)); assumption. }
    destruct (fst a), (fst b), (fst o); cbn [snd]; exact Hw.
  - unfold encryptPositionData, bind, gets, throw. rewrite Hinit. split; reflexivity.
Qed.

Lemma monitorComputation_registry (computationRef : ComputationReference) (w : World) :
  same_registry w (snd (monitorComputation env computationRef w)).
Proof.
  unfold monitorComputation, processHealthFactorResult, processLiquidationResult,
    try_catch, bind, network, lift, ret, throw, generateRandomBytes, Date_now.
  run_method; split; reflexivity.
Qed.

Lemma encryptTransactionAmount_registry (amount : Z) (w : World) :
  same_registry w (snd (encryptTransactionAmount env amount w)).
Proof.
  unfold encryptTransactionAmount, bind, gets, throw.
  destruct (negb (privacyEnabled w)); [split; reflexivity|].
  apply encryptData_registry.
Qed.

Lemma decryptTransactionAmount_registry (encryptedData : EncryptedData.t) (w : World) :
  same_registry w (snd (decryptTransactionAmount encryptedData w)).
Proof.
  unfold decryptTransactionAmount, bind, gets, throw, lift.
  destruct (negb (privacyEnabled w)); [split; reflexivity|].
  pose proof (decryptData_state encryptedData w) as Hstate.
  destruct (decryptData encryptedData w) as [[bs|e] w']; cbn [snd] in *; subst w';
    split; reflexivity.
Qed.

(** A submission leaves the registry alone or adds the callback of the
    position under its health-factor key. *)
Lemma createHealthFactorComputation_registry
  (encryptedCollateral encryptedDebt encryptedPrice : EncryptedData.t)
  (positionId : string) (w : World) :
  let w' := snd (createHealthFactorComputation env encryptedCollateral encryptedDebt
                   encryptedPrice positionId w) in
  same_registry w w' \/
  (computationCallbacks w' =
     <[positionId +:+ "-" +:+ "health_factor" :=
         {| fn_id := next_fn w; fn_positionId := positionId;
            fn_computationType := "health_factor" |}]> (computationCallbacks w) /\
   next_fn w' = S (next_fn w)).
Proof.
  intros w'. subst w'.
  unfold createHealthFactorComputation, registerComputationCallback, bind, gets, try_catch,
    network, modify, throw, lift, ret.
  destruct (isInitialized w), (_arciumProgram w); cbn [negb orb fst snd];
    try (left; split; reflexivity).
  destruct (buildFinalizeCompDefTx env (net_pos w)); cbn [fst snd];
    [left; split; reflexivity|].
  run_method; try (left; split; reflexivity).
  right. split; reflexivity.
Qed.

Lemma same_registry_allocated (w w' : World) :
  same_registry w w' -> callbacks_allocated w -> callbacks_allocated w'.
Proof.
  intros [Hcb Hfn] Halloc k cb. rewrite Hcb, Hfn. apply Halloc.
Qed.

(** Every public call keeps the invariant. *)
Lemma after_callbacks_allocated (c : Call) (w : World) :
  callbacks_allocated w -> callbacks_allocated (after env c w).
Proof.
  intros Halloc. destruct c; cbn [after].
  - eapply same_registry_allocated; [apply initialize_registry | exact Halloc].
  - eapply same_registry_allocated; [apply encryptData_registry | exact Halloc].
  - eapply same_registry_allocated; [apply decryptData_registry | exact Halloc].
  - eapply same_registry_allocated; [apply encryptPositionData_registry | exact Halloc].
  - destruct (createHealthFactorComputation_registry encryptedCollateral encryptedDebt
                encryptedPrice positionId w) as [Hsame | [Hcb Hfn]].
    + eapply same_registry_allocated; [exact Hsame | exact Halloc].
    + intros k cb. rewrite Hcb, Hfn, lookup_insert. case_decide.
      * intros [= <-]. cbn. lia.
      * intros Hk. apply Halloc in Hk. lia.
  - eapply same_registry_allocated; [apply monitorComputation_registry | exact Halloc].
  - intros k cb. apply Halloc.
  - eapply same_registry_allocated; [apply encryptTransactionAmount_registry | exact Halloc].
  - eapply same_registry_allocated; [apply decryptTransactionAmount_registry | exact Halloc].
Qed.

Lemma reachable_callbacks_allocated (w : World) :
  reachable env w -> callbacks_allocated w.
Proof.
  induction 1 as [|c w Hreach IH].
  - intros k cb Hk. cbn in Hk. rewrite lookup_empty in Hk. discriminate Hk.
  - apply after_callbacks_allocated, IH.
Qed.

End RegistryInvariant.

(** ** The methods at work in the stand-in environments *)

Lemma toy_cipher_round_trip : @cipher_round_trip toy_platform.
Proof.
  split; intros k p n Hk Hn; exists (rev p); cbn; unfold toy_cipher;
    rewrite Hk, Nat.eqb_refl, ?rev_involutive; auto.
Qed.

Lemma sdk_cipher_refuses_nonce : @cipher_refuses_nonce sdk_platform.
Proof.
  repeat split; intros k p n Hn; cbn; unfold ctr_cipher;
    (destruct (negb (Nat.eqb (length k) _)); [eauto|]);
    (destruct (Nat.eqb_spec (length n) 8); [contradiction | cbn; eauto]).
Qed.

(** C1 at work: a 16-byte key with AES-128, and ciphers like those of
    the package. *)
Lemma encryptData_nonce_refused_witness :
  let k := repeat Byte.x00 16 in
  @cipher_refuses_nonce sdk_platform /\
  @dataBytes sdk_platform (DString "owner") = Ok (String.list_byte_of_string "owner") /\
  encryptData (platform := sdk_platform) toy_env (DString "owner")
    {| opt_algorithm := Some AES_128; opt_key := Some k |} ready =
    (Err (Error "Data encryption failed: Error: nonce must be of length 8 (found 12)"),
     set_rand_pos (rand_pos ready + 12) ready).
Proof.
  intros k.
  split; [exact sdk_cipher_refuses_nonce|]. split; [reflexivity|].
  destruct (encryptData_nonce_refused (platform := sdk_platform) toy_env (DString "owner")
              (Some AES_128) k (String.list_byte_of_string "owner") ready
              sdk_cipher_refuses_nonce eq_refl) as ((e & He & Hrun) & _).
  vm_compute in He. injection He as <-. exact Hrun.
Defined.

(** C3 at work: the value [- 2 ^ 512] needs more than 64 bytes, and is
    written and encrypted as [0] is. *)
Lemma encryptData_negative_truncated_witness :
  let options := {| opt_algorithm := None; opt_key := None |} in
  - (2 ^ 512) < 0 /\
  @dataBytes sdk_platform (DBigint (- (2 ^ 512))) = Ok (repeat Byte.x00 64) /\
  encryptData (platform := sdk_platform) toy_env (DBigint (- (2 ^ 512))) options ready =
    encryptData (platform := sdk_platform) toy_env (DBigint 0) options ready.
Proof.
  intros options.
  assert (Hneg : - (2 ^ 512) < 0) by reflexivity.
  split; [exact Hneg|]. split; [vm_compute; reflexivity|].
  destruct (encryptData_negative_truncated (platform := sdk_platform) toy_env
              (- (2 ^ 512)) options ready Hneg) as (_ & Hsame & _).
  exact Hsame.
Defined.

(** C4 at work. *)
Lemma decryptTransactionAmount_reverses_bytes_witness :
  @cipher_round_trip toy_platform /\
  privacyEnabled (set_privacyEnabled true ready) = true /\
  exists ed w',
    encryptTransactionAmount (platform := toy_platform) toy_env 1 (set_privacyEnabled true ready)
      = (Ok ed, w') /\
    decryptTransactionAmount (platform := toy_platform) ed w' = (Ok (2 ^ 504), w').
Proof.
  split; [exact toy_cipher_round_trip|]. split; [reflexivity|].
  apply (decryptTransactionAmount_reverses_bytes (platform := toy_platform) toy_env
           (set_privacyEnabled true ready)).
  - exact toy_cipher_round_trip.
  - reflexivity.
Defined.

(** C8 at work: the collateral does not fit, the debt and the owner do. *)
Lemma encryptPositionData_all_or_nothing_witness :
  let owner := {| toBase58 := "OwnerPublicKey" |} in
  isInitialized ready = true /\
  exists e,
    fst (encryptPositionData (platform := toy_platform) toy_env (2 ^ 512) 0 owner ready) =
      Err (Error ("Position encryption failed: " +:+ exn_toString e)).
Proof.
  intros owner. split; [reflexivity|].
  destruct (encryptPositionData_all_or_nothing (platform := toy_platform) toy_env
              (2 ^ 512) 0 owner ready eq_refl eq_refl) as (e & _ & Hrun).
  exists e. exact Hrun.
Defined.

(** C5, as the specification states it, fails: a second registration
    under the same key returns normally, and the entry is no longer the
    one of the first registration. *)
Lemma registerComputationCallback_counterexample :
  let first := registerComputationCallback "pos_1" "health_factor" new_client in
  let second := registerComputationCallback "pos_1" "health_factor" (snd first) in
  computationCallbacks (snd first) !! "pos_1-health_factor" =
    Some {| fn_id := 0; fn_positionId := "pos_1"; fn_computationType := "health_factor" |} /\
  fst second = Ok tt /\
  computationCallbacks (snd second) !! "pos_1-health_factor" =
    Some {| fn_id := 1; fn_positionId := "pos_1"; fn_computationType := "health_factor" |} /\
  ~ registration_as_specified "pos_1-health_factor" (snd first) second.
Proof.
  intros first second.
  assert (H1 : computationCallbacks (snd first) !! "pos_1-health_factor" =
    Some {| fn_id := 0; fn_positionId := "pos_1"; fn_computationType := "health_factor" |})
    by (vm_compute; reflexivity).
  split; [exact H1|]. split; [reflexivity|]. split; [vm_compute; reflexivity|].
  intros Hspec. destruct Hspec as [Hfail _]; [rewrite H1; eauto|].
  discriminate Hfail.
Qed.

(** C5 at work: the key of a computation submitted in [toy_env]. *)
Lemma registerComputationCallback_overwrites_witness :
  let input := EncryptedData.mk [Byte.x01] [Byte.x02] [Byte.x03] AES_256 in
  let w := after (platform := toy_platform) toy_env
             (call_createHealthFactorComputation input input input "pos_1")
             (after (platform := toy_platform) toy_env (call_initialize None) new_client) in
  let earlier := {| fn_id := 0; fn_positionId := "pos_1";
                    fn_computationType := "health_factor" |} in
  callbacks_allocated w /\
  computationCallbacks w !! ("pos_1" +:+ "-" +:+ "health_factor") = Some earlier /\
  exists w' created,
    registerComputationCallback "pos_1" "health_factor" w = (Ok tt, w') /\
    computationCallbacks w' !! ("pos_1" +:+ "-" +:+ "health_factor") = Some created /\
    created <> earlier /\
    size (computationCallbacks w') = size (computationCallbacks w).
Proof.
  intros input w earlier.
  assert (Halloc : callbacks_allocated w).
  { apply (reachable_callbacks_allocated (platform := toy_platform) toy_env).
    repeat constructor. }
  assert (H1 : computationCallbacks w !! ("pos_1" +:+ "-" +:+ "health_factor") = Some earlier)
    by (vm_compute; reflexivity).
  split; [exact Halloc|]. split; [exact H1|].
  destruct (registerComputationCallback_overwrites "pos_1" "health_factor" w earlier
              Halloc H1)
    as (w' & created & Hrun & _ & Hnew & Hne & Hsize & _).
  exists w', created. auto.
Defined.

(** C9, as the specification states it, fails: with three retries
    configured and a network that refuses the first submission only, the
    method throws after that one submission, and calling it again goes
    through. *)
Lemma createHealthFactorComputation_counterexample :
  let config := MXEConfiguration.mk 3 2 30000 3 fixed in
  let input := EncryptedData.mk [Byte.x01] [Byte.x02] [Byte.x03] AES_256 in
  let outcome := createHealthFactorComputation (platform := toy_platform) flaky_env
                   input input input "pos_1" ready in
  let again := createHealthFactorComputation (platform := toy_platform) flaky_env
                 input input input "pos_1" (snd outcome) in
  fst outcome =
    Err (Error "Health factor computation failed: Error: failed to send transaction") /\
  length (sent ready) = 0%nat /\
  length (sent (snd outcome)) = 1%nat /\
  fst again = Ok {| computationOffset := 7 |} /\
  ~ retry_as_specified config ready outcome.
Proof.
  intros config input outcome again.
  split; [vm_compute; reflexivity|]. split; [reflexivity|].
  split; [vm_compute; reflexivity|]. split; [vm_compute; reflexivity|].
  intros Hspec. specialize (Hspec eq_refl). vm_compute in Hspec. discriminate Hspec.
Qed.

(** C9 at work. *)
Lemma createHealthFactorComputation_no_retry_witness :
  let input := EncryptedData.mk [Byte.x01] [Byte.x02] [Byte.x03] AES_256 in
  isInitialized ready = true /\
  is_Some (_arciumProgram ready) /\
  buildFinalizeCompDefTx flaky_env (net_pos ready) = None /\
  sendRawTransaction flaky_env (S (net_pos ready)) = Err (Error "failed to send transaction") /\
  fst (createHealthFactorComputation (platform := toy_platform) flaky_env input input input
         "pos_1" ready) =
    Err (Error ("Health factor computation failed: " +:+
                exn_toString (Error "failed to send transaction"))).
Proof.
  intros input.
  assert (Hp : is_Some (_arciumProgram ready)) by (exists ArciumProgram; reflexivity).
  split; [reflexivity|]. split; [exact Hp|]. split; [reflexivity|]. split; [reflexivity|].
  rewrite (createHealthFactorComputation_no_retry (platform := toy_platform) flaky_env
             input input input "pos_1" ready (Error "failed to send transaction")
             eq_refl Hp eq_refl eq_refl).
  reflexivity.
Defined.

(** C6 at work, on scenario B: the payload carries the liquidation tag. *)
Lemma monitorComputation_dispatch_witness :
  let computationRef := {| computationOffset := 7 |} in
  let callbackData :=
    JS.Object [("type", JS.Str "liquidation_check"); ("positionId", JS.Str "pos_1")] in
  awaitComputationFinalization toy_env (net_pos ready) computationRef
    = Ok "liquidation pos_1" /\
  @JSON_parse toy_platform "liquidation pos_1" = Ok callbackData /\
  JS.get callbackData "type" = Ok (Some (JS.Str "liquidation_check")) /\
  JS.get callbackData "positionId" = Ok (Some (JS.Str "pos_1")) /\
  monitorComputation (platform := toy_platform) toy_env computationRef ready =
    processLiquidationResult toy_env
      {| raw_computationId := "7"; raw_positionId := Some (JS.Str "pos_1");
         raw_result := "liquidation pos_1" |}
      (set_net_pos (S (net_pos ready)) ready).
Proof.
  intros computationRef callbackData.
  split; [reflexivity|]. split; [reflexivity|]. split; [reflexivity|]. split; [reflexivity|].
  destruct (monitorComputation_dispatch (platform := toy_platform) toy_env computationRef ready
              "liquidation pos_1" callbackData
              (Some (JS.Str "liquidation_check")) (Some (JS.Str "pos_1"))
              eq_refl eq_refl eq_refl eq_refl) as (Hrun & _).
  rewrite Hrun. reflexivity.
Defined.

(** C10 at work: a computation has been submitted and monitored, one
    callback is registered, and the two counters have not moved. *)
Lemma getIntegrationStatus_counters_witness :
  let input := EncryptedData.mk [Byte.x01] [Byte.x02] [Byte.x03] AES_256 in
  let w := after (platform := toy_platform) toy_env
             (call_monitorComputation {| computationOffset := 7 |})
             (after (platform := toy_platform) toy_env
                (call_createHealthFactorComputation input input input "pos_1")
                (after (platform := toy_platform) toy_env (call_initialize None) new_client)) in
  reachable (platform := toy_platform) toy_env w /\
  ArciumIntegrationStatus.currentComputations (getIntegrationStatus w) = 1%nat /\
  ArciumIntegrationStatus.totalComputationsProcessed (getIntegrationStatus w) = 0 /\
  ArciumIntegrationStatus.lastComputationTime (getIntegrationStatus w) = None.
Proof.
  intros input w.
  assert (Hreach : reachable (platform := toy_platform) toy_env w) by (repeat constructor).
  split; [exact Hreach|]. split; [vm_compute; reflexivity|].
  exact (getIntegrationStatus_counters (platform := toy_platform) toy_env w Hreach).
Defined.

(** ** Decimal literals *)

Lemma decimal_digit (d : Z) :
  0 <= d < 10 ->
  JS.digit_value 10 (JS.digit_char d) = Some d /\ JS.is_space (JS.digit_char d) = false.
Proof.
  intros Hd.
  assert (Hcases : d = 0 \/ d = 1 \/ d = 2 \/ d = 3 \/ d = 4 \/ d = 5 \/ d = 6 \/ d = 7 \/
                   d = 8 \/ d = 9) by lia.
  repeat (destruct Hcases as [-> | Hcases]); try subst d; split; reflexivity.
Qed.

(** The digits that [digits] puts in front of [acc] read back as [n]. *)
Lemma parse_digits_digits (fuel : nat) :
  forall n acc, 0 <= n < 10 ^ Z.of_nat fuel ->
    exists k, 0 <= k /\
      forall a, JS.parse_digits 10 a (JS.digits fuel 10 n acc) =
                JS.parse_digits 10 (a * 10 ^ k + n) acc.
Proof.
  induction fuel as [|fuel IH]; intros n acc Hn.
  - exists 0. split; [lia|]. intros a. cbn [JS.digits].
    change (10 ^ Z.of_nat 0) with 1 in Hn. f_equal. lia.
  - replace (Z.of_nat (S fuel)) with (Z.succ (Z.of_nat fuel)) in Hn by lia.
    rewrite Z.pow_succ_r in Hn by lia.
    assert (Hmod : 0 <= n mod 10 < 10) by (apply Z.mod_pos_bound; lia).
    destruct (decimal_digit (n mod 10) Hmod) as [Hdigit _].
    pose proof (Z.div_mod n 10 ltac:(lia)) as Hdm.
    cbn [JS.digits]. destruct (n / 10 =? 0) eqn:Hq.
    + apply Z.eqb_eq in Hq. exists 1. split; [lia|]. intros a.
      cbn [JS.parse_digits]. rewrite Hdigit. f_equal. rewrite Z.pow_1_r. lia.
    + apply Z.eqb_neq in Hq.
      assert (Hdiv : 0 <= n / 10 < 10 ^ Z.of_nat fuel).
      { split; [apply Z.div_pos; lia|]. apply Z.div_lt_upper_bound; lia. }
      destruct (IH (n / 10) (String (JS.digit_char (n mod 10)) acc) Hdiv)
        as (k & Hk & Hparse).
      exists (Z.succ k). split; [lia|]. intros a.
      rewrite Hparse. cbn [JS.parse_digits]. rewrite Hdigit. f_equal.
      rewrite Z.pow_succ_r by lia. lia.
Qed.

(** [digits] writes decimal digits only. *)
Lemma digits_decimal (fuel : nat) :
  forall n acc, 0 <= n -> decimal_string acc -> decimal_string (JS.digits fuel 10 n acc).
Proof.
  induction fuel as [|fuel IH]; intros n acc Hn Hacc; [exact Hacc|].
  assert (Hmod : 0 <= n mod 10 < 10) by (apply Z.mod_pos_bound; lia).
  destruct (decimal_digit (n mod 10) Hmod) as [Hdigit _].
  assert (Hacc' : decimal_string (String (JS.digit_char (n mod 10)) acc)).
  { split; [|exact Hacc]. rewrite Hdigit. discriminate. }
  cbn [JS.digits]. destruct (n / 10 =? 0); [exact Hacc'|].
  apply IH; [apply Z.div_pos; lia | exact Hacc'].
Qed.

Lemma digits_nonempty (fuel : nat) (n : Z) (acc : string) :
  JS.digits (S fuel) 10 n acc <> EmptyString.
Proof.
  revert n acc. induction fuel as [|fuel IH]; intros n acc; cbn [JS.digits].
  - destruct (n / 10 =? 0); discriminate.
  - destruct (n / 10 =? 0); [discriminate|]. apply IH.
Qed.

Lemma decimal_string_no_space (s : string) : decimal_string s -> no_space s.
Proof.
  induction s as [|c s IH]; [trivial|]. intros [Hc Hs]. split; [|apply IH, Hs].
  destruct c as [[] [] [] [] [] [] [] []]; try reflexivity; exfalso; apply Hc; reflexivity.
Qed.

(** On a non-empty string of decimal digits [BigInt] reads the digits. *)
Lemma BigInt_of_decimal_string (s : string) (z : Z) :
  decimal_string s -> s <> EmptyString ->
  JS.parse_digits 10 0 s = Some z ->
  JS.BigInt_of_string s = Ok z.
Proof.
  intros Hs Hne Hparse. unfold JS.BigInt_of_string.
  rewrite (trim_no_space s (decimal_string_no_space s Hs)).
  assert (Hpn : JS.parse_nonempty 10 s = Some z).
  { destruct s; [congruence | exact Hparse]. }
  destruct s as [|c s]; [congruence|]. destruct Hs as [Hc Hs].
  destruct c as [[] [] [] [] [] [] [] []];
    try (exfalso; apply Hc; reflexivity);
    try (rewrite Hpn; reflexivity).
  destruct s as [|c s]; [rewrite Hpn; reflexivity|]. destruct Hs as [Hc' Hs].
  destruct c as [[] [] [] [] [] [] [] []];
    try (exfalso; apply Hc'; reflexivity);
    rewrite Hpn; reflexivity.
Qed.

(** The decimal rendering of a natural number: digits, at least one, that
    read back as the number. *)
Lemma render_decimal (m : Z) :
  0 <= m ->
  let s := JS.digits (S (Z.to_nat (Z.log2 m))) 10 m EmptyString in
  decimal_string s /\ s <> EmptyString /\ JS.parse_digits 10 0 s = Some m.
Proof.
  intros Hm s. subst s. split; [apply digits_decimal; [exact Hm | exact I]|].
  split; [apply digits_nonempty|].
  assert (Hfuel : 0 <= m < 10 ^ Z.of_nat (S (Z.to_nat (Z.log2 m)))).
  { split; [exact Hm|].
    destruct (Z.eq_dec m 0) as [->|Hpos]; [reflexivity|].
    pose proof (Z.log2_nonneg m) as Hl.
    pose proof (Z.log2_spec m ltac:(lia)) as [_ Hup].
    replace (Z.of_nat (S (Z.to_nat (Z.log2 m)))) with (Z.succ (Z.log2 m)) by lia.
    eapply Z.lt_le_trans; [exact Hup|].
    apply Z.pow_le_mono_l. lia. }
  destruct (parse_digits_digits _ m EmptyString Hfuel) as (k & _ & Hparse).
  rewrite Hparse. reflexivity.
Qed.

(** Rendering an integer in decimal and converting the string back gives
    the integer. *)
Lemma BigInt_of_toString (z : Z) : JS.BigInt_of_string (JS.toString 10 z) = Ok z.
Proof.
  unfold JS.toString. destruct (z <? 0) eqn:Hneg.
  - apply Z.ltb_lt in Hneg.
    destruct (render_decimal (- z) ltac:(lia)) as (Hdec & Hne & Hparse).
    set (s := JS.digits _ 10 (- z) EmptyString) in *. clearbody s.
    unfold JS.BigInt_of_string.
    rewrite trim_no_space
      by (rewrite append_cons, append_nil; split;
          [reflexivity | apply decimal_string_no_space, Hdec]).
    rewrite append_cons, append_nil.
    assert (Hpn : JS.parse_nonempty 10 s = Some (- z)).
    { destruct s; [congruence | exact Hparse]. }
    cbn -[JS.parse_nonempty]. rewrite Hpn. cbn. f_equal. lia.
  - apply Z.ltb_ge in Hneg.
    destruct (render_decimal z Hneg) as (Hdec & Hne & Hparse).
    apply BigInt_of_decimal_string; assumption.
Qed.

(** The decimal rendering has no white space and no letter. *)
Lemma toString_plain (z : Z) :
  no_space (JS.toString 10 z) /\ no_char "C" (JS.toString 10 z).
Proof.
  assert (Hdigits : forall s, decimal_string s -> no_char "C" s).
  { induction s as [|c s IH]; [trivial|]. intros [Hc Hs]. split; [|apply IH, Hs].
    intros ->. apply Hc. reflexivity. }
  unfold JS.toString. destruct (z <? 0) eqn:Hneg.
  - apply Z.ltb_lt in Hneg.
    destruct (render_decimal (- z) ltac:(lia)) as (Hdec & _).
    rewrite append_cons, append_nil. split; (split; [|]).
    + reflexivity.
    + apply decimal_string_no_space, Hdec.
    + discriminate.
    + apply Hdigits, Hdec.
  - apply Z.ltb_ge in Hneg.
    destruct (render_decimal z Hneg) as (Hdec & _).
    split; [apply decimal_string_no_space, Hdec | apply Hdigits, Hdec].
Qed.

(** * Further properties of the client *)

Section MoreClientProperties.

Context `{platform : Platform} (env : Env) (ledger : Ledger).

(** ** Initialisation *)

(** When the program is obtained, [initialize] makes the client ready: it
    keeps the key pair it is given, or makes one from 32 fresh random bytes,
    stores the program and sets [isInitialized]; the registry and the
    privacy switch are not touched. *)
Theorem initialize_makes_ready (given : option Keypair) (program : Program) (w : World) :
  getArciumProgram env (net_pos w) = Ok program ->
  exists w',
    initialize env given w = (Ok tt, w') /\
    isInitialized w' = true /\
    _arciumProgram w' = Some program /\
    userKeyPair w' =
      Some (match given with
            | Some kp => kp
            | None => Keypair_fromSeed (map (getRandomValues env) (seq (rand_pos w) 32))
            end) /\
    rand_pos w' = (rand_pos w + match given with Some _ => 0 | None => 32 end)%nat /\
    net_pos w' = S (net_pos w) /\
    same_registry w w' /\
    privacyEnabled w' = privacyEnabled w.
Proof.
  intros Hprogram.
  unfold initialize, Keypair_generate, try_catch, bind, network, modify, ret, throw.
  destruct given as [kp|]; rewrite ?generateRandomBytes_eq; cbn [fst snd net_pos
    set_userKeyPair set_rand_pos]; rewrite Hprogram; eexists; (split; [reflexivity|]);
    cbn; repeat split; lia.
Qed.

(** When the program cannot be obtained, [initialize] throws, and the
    client keeps its readiness and its program, but its key pair has
    already been replaced. *)
Theorem initialize_failure_keeps_readiness (given : option Keypair) (e : Exn) (w : World) :
  getArciumProgram env (net_pos w) = Err e ->
  exists w',
    initialize env given w =
      (Err (Error ("Arcium initialization failed: " +:+ exn_toString e)), w') /\
    isInitialized w' = isInitialized w /\
    _arciumProgram w' = _arciumProgram w /\
    userKeyPair w' =
      Some (match given with
            | Some kp => kp
            | None => Keypair_fromSeed (map (getRandomValues env) (seq (rand_pos w) 32))
            end).
Proof.
  intros Hprogram.
  unfold initialize, Keypair_generate, try_catch, bind, network, modify, ret, throw.
  destruct given as [kp|]; rewrite ?generateRandomBytes_eq; cbn [fst snd net_pos
    set_userKeyPair set_rand_pos]; rewrite Hprogram; eexists; (split; [reflexivity|]);
    cbn; repeat split.
Qed.

(** ** What [encryptData] draws and returns *)

(** [encryptData] changes nothing but the cursor of the random source.
    When the data cannot be converted to bytes nothing is drawn; otherwise
    12 bytes are drawn for the nonce, after the bytes of the key if none
    was given, whether or not the cipher then accepts. *)
Theorem encryptData_draws (data : Data) (options : EncryptOptions) (w : World) :
  let w' := snd (encryptData env data options w) in
  let algorithm := match opt_algorithm options with Some a => a | None => AES_256 end in
  w' = set_rand_pos (rand_pos w') w /\
  rand_pos w' =
    match dataBytes data with
    | Err _ => rand_pos w
    | Ok _ =>
        (rand_pos w + match opt_key options with
                      | Some _ => 0
                      | None => key_length algorithm
                      end + 12)%nat
    end.
Proof.
  unfold encryptData, try_catch, bind, lift, ret, throw.
  destruct (dataBytes data) as [bs|e]; [|split; [destruct w|]; reflexivity].
  destruct (opt_key options) as [k|];
    destruct (match opt_algorithm options with Some a => a | None => AES_256 end);
    rewrite ?generateRandomBytes_eq; cbn [rand_pos set_rand_pos];
    match goal with |- context [match ?r with Ok _ => _ | Err _ => _ end] =>
      destruct r end;
    cbn [fst snd rand_pos set_rand_pos key_length]; (split; [reflexivity | lia]).
Qed.

(** The record that [encryptData] returns: the algorithm asked for
    (AES-256 by default), a 12-byte nonce, and the key that was given or a
    fresh one of the length of the algorithm, taken from the random source
    just before the nonce. *)
Theorem encryptData_returns (data : Data) (options : EncryptOptions)
  (ed : EncryptedData.t) (w w' : World) :
  encryptData env data options w = (Ok ed, w') ->
  let algorithm := match opt_algorithm options with Some a => a | None => AES_256 end in
  EncryptedData.algorithm ed = algorithm /\
  length (EncryptedData.nonce ed) = 12%nat /\
  match opt_key options with
  | Some k =>
      EncryptedData.key ed = k /\
      EncryptedData.nonce ed = map (getRandomValues env) (seq (rand_pos w) 12)
  | None =>
      EncryptedData.key ed =
        map (getRandomValues env) (seq (rand_pos w) (key_length algorithm)) /\
      EncryptedData.nonce ed =
        map (getRandomValues env) (seq (rand_pos w + key_length algorithm) 12) /\
      length (EncryptedData.key ed) = key_length algorithm
  end.
Proof.
  unfold encryptData, try_catch, bind, lift, ret, throw.
  destruct (dataBytes data) as [bs|e]; [|discriminate].
  destruct (opt_key options) as [k|];
    destruct (match opt_algorithm options with Some a => a | None => AES_256 end);
    rewrite ?generateRandomBytes_eq; cbn [rand_pos set_rand_pos];
    match goal with |- context [match ?r with Ok _ => _ | Err _ => _ end] =>
      destruct r end;
    intros [= <- <-]; cbn [EncryptedData.algorithm EncryptedData.nonce EncryptedData.key
                           key_length];
    repeat split; apply random_bytes_length.
Qed.

(** ** Methods that need an initialised client *)

(** On a client that is not initialised, [encryptPositionData],
    [createHealthFactorComputation] and [getMempoolStats] throw the same
    error, unwrapped, and leave the state as it was: nothing is drawn and
    no network call is made. *)
Theorem not_initialized_is_refused (w : World) :
  isInitialized w = false ->
  (forall collateralAmount debtAmount owner,
     encryptPositionData env collateralAmount debtAmount owner w =
       (Err (Error "Arcium client not initialized"), w)) /\
  (forall encryptedCollateral encryptedDebt encryptedPrice positionId,
     createHealthFactorComputation env encryptedCollateral encryptedDebt encryptedPrice
       positionId w = (Err (Error "Arcium client not initialized"), w)) /\
  getMempoolStats ledger w = (Err (Error "Arcium client not initialized"), w).
Proof.
  intros Hinit. split; [|split].
  - intros c d o. unfold encryptPositionData, bind, gets, throw. now rewrite Hinit.
  - intros ec ed ep id. unfold createHealthFactorComputation, bind, gets, throw.
    now rewrite Hinit.
  - unfold getMempoolStats, bind, gets, throw. now rewrite Hinit.
Qed.

(** ** Transaction amounts *)

(** [decryptTransactionAmount] reads the decrypted bytes as one number,
    most significant byte first; on an empty plaintext the literal is
    [0x] alone and [BigInt] throws a [SyntaxError], which is not wrapped. *)
Theorem decryptTransactionAmount_value (encryptedData : EncryptedData.t)
  (decryptedBytes : list byte) (w : World) :
  privacyEnabled w = true ->
  decryptData encryptedData w = (Ok decryptedBytes, w) ->
  decryptTransactionAmount encryptedData w =
    match decryptedBytes with
    | [] => (Err (mkExn "SyntaxError" "Cannot convert 0x to a BigInt"), w)
    | _ :: _ => (Ok (be_value decryptedBytes), w)
    end.
Proof.
  intros Hon Hdec. unfold decryptTransactionAmount, bind, gets, lift.
  rewrite Hon. cbn [negb]. rewrite Hdec.
  destruct decryptedBytes as [|b bs]; [reflexivity|].
  rewrite BigInt_of_hex by discriminate. reflexivity.
Qed.

(** ** The privacy switch *)

(** With the privacy features switched off, every method of
    [V1TAPrivacyClient] that is guarded by the switch throws the same error
    and leaves the state as it was. *)
Theorem privacy_disabled_is_refused (w : World) :
  privacyEnabled w = false ->
  (forall params, openPrivatePosition env ledger params w =
                    (Err (Error "Privacy features are not enabled"), w)) /\
  (forall positionId, getPrivatePosition env positionId w =
                        (Err (Error "Privacy features are not enabled"), w)) /\
  (forall positionId, computePrivateHealth env positionId w =
                        (Err (Error "Privacy features are not enabled"), w)) /\
  (forall amount, encryptTransactionAmount env amount w =
                    (Err (Error "Privacy features are not enabled"), w)) /\
  (forall encryptedData, decryptTransactionAmount encryptedData w =
                           (Err (Error "Privacy features are not enabled"), w)) /\
  (forall positionIds, batchHealthComputations env positionIds w =
                         (Err (Error "Privacy features are not enabled"), w)).
Proof.
  intros Hoff. repeat split; intros;
    unfold openPrivatePosition, getPrivatePosition, computePrivateHealth,
      encryptTransactionAmount, decryptTransactionAmount, batchHealthComputations,
      bind, gets, throw; now rewrite Hoff.
Qed.

End MoreClientProperties.

(** * Identifiers and logs *)

Lemma string_length_app (s t : string) :
  String.length (s +:+ t) = (String.length s + String.length t)%nat.
Proof.
  induction s as [|a s IH]; [reflexivity|].
  rewrite append_cons. cbn [String.length]. now rewrite IH.
Qed.

Lemma string_app_inv (s1 s2 t1 t2 : string) :
  String.length s1 = String.length s2 ->
  s1 +:+ t1 = s2 +:+ t2 -> s1 = s2 /\ t1 = t2.
Proof.
  revert s2. induction s1 as [|a s1 IH]; intros [|b s2] Hlen Heq;
    try discriminate Hlen.
  - rewrite !append_nil in Heq. auto.
  - rewrite !append_cons in Heq. injection Heq as -> Heq.
    injection Hlen as Hlen. destruct (IH s2 Hlen Heq) as [-> ->]. auto.
Qed.

Lemma string_app_inv_tail (s1 s2 t : string) : s1 +:+ t = s2 +:+ t -> s1 = s2.
Proof.
  intros Heq. apply (string_app_inv s1 s2 t t); [|exact Heq].
  apply (f_equal String.length) in Heq. rewrite !string_length_app in Heq. lia.
Qed.

Lemma hex2_injective (b1 b2 : byte) : JS.hex2 b1 = JS.hex2 b2 -> b1 = b2.
Proof.
  intros Heq. apply byte_to_Z_injective.
  destruct (hex2_spec b1) as (c1 & c2 & d1 & d2 & Hhex1 & Hd1 & Hd2 & Hval1 & _).
  destruct (hex2_spec b2) as (c1' & c2' & d1' & d2' & Hhex2 & Hd1' & Hd2' & Hval2 & _).
  rewrite Hhex1, Hhex2 in Heq. injection Heq as -> ->. congruence.
Qed.

Lemma hex2_length (b : byte) : String.length (JS.hex2 b) = 2%nat.
Proof.
  destruct (hex2_spec b) as (c1 & c2 & d1 & d2 & Hhex & _). now rewrite Hhex.
Qed.

Lemma join_hex_length (bs : list byte) :
  String.length (JS.join_map JS.hex2 bs) = (2 * length bs)%nat.
Proof.
  induction bs as [|b bs IH]; [reflexivity|].
  rewrite join_map_cons, string_length_app, hex2_length, IH. cbn [length]. lia.
Qed.

Lemma join_hex_injective (bs1 bs2 : list byte) :
  JS.join_map JS.hex2 bs1 = JS.join_map JS.hex2 bs2 -> bs1 = bs2.
Proof.
  revert bs2. induction bs1 as [|b1 bs1 IH]; intros [|b2 bs2] Heq.
  - reflexivity.
  - apply (f_equal String.length) in Heq. rewrite !join_hex_length in Heq.
    cbn [length] in Heq. lia.
  - apply (f_equal String.length) in Heq. rewrite !join_hex_length in Heq.
    cbn [length] in Heq. lia.
  - rewrite !join_map_cons in Heq.
    apply string_app_inv in Heq; [|now rewrite !hex2_length].
    destruct Heq as [Hb Hrest]. f_equal; [apply hex2_injective, Hb | apply IH, Hrest].
Qed.

Section IdentifierProperties.

Context `{platform : Platform} (env : Env).

Lemma generatePositionId_run (w : World) :
  generatePositionId env w =
    (Ok ("pos_" +:+ JS.toString 36 (Date_now_tape env (clock_pos w)) +:+ "_" +:+
         JS.join_map JS.hex2 (map (getRandomValues env) (seq (rand_pos w) 8))),
     set_rand_pos (rand_pos w + 8) (set_clock_pos (S (clock_pos w)) w)).
Proof. reflexivity. Qed.

(** The identifier of a position is [pos_], the clock reading in base 36,
    an underscore, and 16 hexadecimal characters; these characters read
    back, as a hexadecimal number, to the 8 random bytes that were drawn.
    One clock reading and 8 random bytes are consumed. *)
Theorem generatePositionId_format (w : World) :
  let randomBytes := map (getRandomValues env) (seq (rand_pos w) 8) in
  exists suffix,
    generatePositionId env w =
      (Ok ("pos_" +:+ JS.toString 36 (Date_now_tape env (clock_pos w)) +:+ "_" +:+ suffix),
       set_rand_pos (rand_pos w + 8) (set_clock_pos (S (clock_pos w)) w)) /\
    String.length suffix = 16%nat /\
    JS.parse_digits 16 0 suffix = Some (be_value randomBytes).
Proof.
  intros randomBytes. exists (JS.join_map JS.hex2 randomBytes).
  split; [reflexivity|]. split.
  - rewrite join_hex_length. unfold randomBytes. now rewrite random_bytes_length.
  - pose proof (parse_digits_hex randomBytes 0 EmptyString) as Hparse.
    rewrite string_app_nil_r in Hparse. rewrite Hparse. reflexivity.
Qed.

(** Two identifiers are equal only if the random bytes drawn for them are
    equal, whatever the clock read. *)
Theorem generatePositionId_injective (w1 w2 : World) (id : string) :
  fst (generatePositionId env w1) = Ok id ->
  fst (generatePositionId env w2) = Ok id ->
  map (getRandomValues env) (seq (rand_pos w1) 8) =
  map (getRandomValues env) (seq (rand_pos w2) 8).
Proof.
  rewrite !generatePositionId_run. cbn [fst].
  set (h1 := JS.join_map JS.hex2 (map (getRandomValues env) (seq (rand_pos w1) 8))).
  set (h2 := JS.join_map JS.hex2 (map (getRandomValues env) (seq (rand_pos w2) 8))).
  set (t1 := JS.toString 36 _). set (t2 := JS.toString 36 _).
  assert (Hlen : String.length h1 = String.length h2).
  { unfold h1, h2. now rewrite !join_hex_length, !random_bytes_length. }
  assert (Hinj : h1 = h2 ->
                 map (getRandomValues env) (seq (rand_pos w1) 8) =
                 map (getRandomValues env) (seq (rand_pos w2) 8))
    by apply join_hex_injective.
  clearbody h1 h2 t1 t2. intros H1 H2. apply Hinj.
  assert (Heq : "pos_" +:+ t1 +:+ "_" +:+ h1 = "pos_" +:+ t2 +:+ "_" +:+ h2) by congruence.
  apply string_app_inv in Heq; [|reflexivity]. destruct Heq as [_ Heq].
  assert (Htotal := f_equal String.length Heq).
  rewrite !string_length_app in Htotal.
  apply string_app_inv in Heq; [|lia]. destruct Heq as [_ Heq].
  apply string_app_inv in Heq; [|reflexivity]. apply Heq.
Qed.

End IdentifierProperties.

(** ** The log of a created computation *)


Lemma marker_prefix (rest : string) : String.prefix marker (marker +:+ rest) = true.
Proof. destruct rest; rewrite !append_cons, append_nil; reflexivity. Qed.

Lemma includes_marker (p rest : string) : JS.includes marker (p +:+ marker +:+ rest) = true.
Proof.
  induction p as [|c p IH].
  - rewrite append_nil.
    destruct rest; rewrite !append_cons, append_nil; reflexivity.
  - rewrite append_cons. cbn [JS.includes]. rewrite IH. apply orb_true_r.
Qed.

Lemma marker_not_prefix (c : ascii) (s : string) :
  c <> "C"%char -> String.prefix marker (String c s) = false.
Proof.
  intros Hc. cbn [String.prefix].
  destruct (Ascii.ascii_dec "C" c) as [Heq|_]; [congruence | reflexivity].
Qed.

Lemma split_go_skip (sep : string) (q s cur : string) :
  JS.split_go sep (String.length q) cur (q +:+ s) = JS.split_go sep 0 cur s.
Proof.
  induction q as [|c q IH]; [reflexivity|].
  rewrite append_cons. cbn [String.length JS.split_go]. exact IH.
Qed.

(** Without a [C] there is no marker, and the text is one piece. *)
Lemma split_go_plain (s cur : string) :
  no_char "C" s -> JS.split_go marker 0 cur s = [String.rev (String.rev_app s cur)].
Proof.
  revert cur. induction s as [|c s IH]; intros cur Hs; [reflexivity|].
  destruct Hs as [Hc Hs]. cbn [JS.split_go].
  rewrite (marker_not_prefix c s Hc). rewrite IH by exact Hs. reflexivity.
Qed.

(** Up to the first marker. *)
Lemma split_go_before (p rest cur : string) :
  no_char "C" p ->
  JS.split_go marker 0 cur (p +:+ marker +:+ rest) =
    String.rev (String.rev_app p cur) :: JS.split_go marker 0 EmptyString rest.
Proof.
  revert cur. induction p as [|c p IH]; intros cur Hp.
  - rewrite append_nil. cbn [String.rev_app].
    pose proof (marker_prefix rest) as Hprefix.
    change (marker +:+ rest) with (String "C" ("omputation created:" +:+ rest)) in *.
    cbn [JS.split_go]. rewrite Hprefix.
    change (String.length marker - 1)%nat with (String.length "omputation created:").
    now rewrite split_go_skip.
  - destruct Hp as [Hc Hp]. rewrite append_cons. cbn [JS.split_go].
    rewrite (marker_not_prefix c _ Hc). rewrite IH by exact Hp. reflexivity.
Qed.

Lemma trim_leading_space (s : string) : no_space s -> JS.trim (String " " s) = s.
Proof.
  intros Hs. unfold JS.trim.
  change (JS.trimStart (String " " s)) with (JS.trimStart s).
  now apply trim_no_space.
Qed.

(** When no log mentions a created computation, and also when the
    confirmation carries no logs at all, no reference can be extracted. *)
Theorem extractComputationReference_without_marker (confirmation : Confirmation) :
  (forall logs log, conf_logMessages confirmation = Some logs -> In log logs ->
                    JS.includes marker log = false) ->
  extractComputationReference confirmation =
    Err (Error "Could not extract computation reference from transaction").
Proof.
  intros Hnone. unfold extractComputationReference.
  destruct (conf_logMessages confirmation) as [logs|]; [|reflexivity].
  specialize (Hnone logs).
  induction logs as [|log logs IH]; [reflexivity|].
  rewrite (Hnone log eq_refl (or_introl eq_refl)). apply IH.
  intros log' _ Hin. apply (Hnone log' eq_refl). right. exact Hin.
Qed.

(** The first log that mentions a created computation gives the reference:
    when the logs before it do not mention one and the log is some text
    without a capital C, the marker, a space and the decimal rendering of
    a number, that number is the offset, whatever the later logs say. *)
Theorem extractComputationReference_reads_offset (err : option string)
  (before later : list string) (p : string) (offset : Z) :
  (forall log, In log before -> JS.includes marker log = false) ->
  no_char "C" p ->
  extractComputationReference
    {| conf_err := err;
       conf_logMessages :=
         Some (before ++ (p +:+ marker +:+ String " " (JS.toString 10 offset)) :: later) |}
  = Ok {| computationOffset := offset |}.
Proof.
  intros Hbefore Hp. unfold extractComputationReference. cbn [conf_logMessages].
  induction before as [|log before IH].
  - cbn [app]. rewrite includes_marker. unfold JS.split.
    rewrite (split_go_before p _ EmptyString Hp).
    destruct (toString_plain offset) as [Hspace Hplain].
    rewrite split_go_plain by (split; [discriminate | exact Hplain]).
    cbn [nth_error String.rev_app].
    change (String.rev (String.rev_app (JS.toString 10 offset) " "))
      with (String.rev (String.rev (String " " (JS.toString 10 offset)))).
    rewrite string_rev_involutive, (trim_leading_space _ Hspace), BigInt_of_toString.
    reflexivity.
  - cbn [app]. rewrite (Hbefore log (or_introl eq_refl)). apply IH.
    intros log' Hin. apply Hbefore. right. exact Hin.
Qed.

(** * Submissions and the registry over time *)

Section RegistryOverTime.

Context `{platform : Platform} (env : Env).

Ltac run_cases :=
  repeat match goal with
         | |- context [match ?x with Ok _ => _ | Err _ => _ end] => destruct x; cbn [fst snd]
         | |- context [match ?x with Some _ => _ | None => _ end] => destruct x; cbn [fst snd]
         | |- context [match ?x with AES_128 => _ | AES_256 => _ end] =>
             destruct x; cbn [fst snd]
         | |- context [if ?x then _ else _] => destruct x; cbn [fst snd]
         | |- context [let '(_, _) := ?x in _] => destruct x; cbn [fst snd]
         end.

Lemma same_session_refl (w : World) : same_session w w.
Proof. repeat split. Qed.

Lemma same_session_trans (w1 w2 w3 : World) :
  same_session w1 w2 -> same_session w2 w3 -> same_session w1 w3.
Proof.
  unfold same_session. intros (? & ? & ? & ?) (? & ? & ? & ?). repeat split; congruence.
Qed.

Lemma encryptData_session (data : Data) (options : EncryptOptions) (w : World) :
  same_session w (snd (encryptData env data options w)).
Proof.
  unfold encryptData, try_catch, bind, lift, ret, throw, generateRandomBytes.
  run_cases; repeat split.
Qed.

Lemma encryptPositionData_session (collateralAmount debtAmount : Z) (owner : PublicKey)
  (w : World) :
  same_session w (snd (encryptPositionData env collateralAmount debtAmount owner w)).
Proof.
  destruct (isInitialized w) eqn:Hinit.
  - rewrite (encryptPositionData_run env collateralAmount debtAmount owner w Hinit).
    cbv zeta.
    set (w0 := set_rand_pos _ (set_clock_pos _ _)).
    set (options := {| opt_algorithm := None; opt_key := _ |}).
    pose proof (encryptData_session (DBigint collateralAmount) options w0) as Ha.
    set (a := encryptData env (DBigint collateralAmount) options w0) in *.
    pose proof (encryptData_session (DBigint debtAmount) options (snd a)) as Hb.
    set (b := encryptData env (DBigint debtAmount) options (snd a)) in *.
    pose proof (encryptData_session (DString (toBase58 owner)) options (snd b)) as Ho.
    set (o := encryptData env (DString (toBase58 owner)) options (snd b)) in *.
    assert (Hw : same_session w (snd o)).
    { apply (same_session_trans w w0); [repeat split|].
      apply (same_session_trans w0 (snd a)); [exact Ha|].
      apply (same_session_trans (snd a) (snd b)); assumption. }
    destruct (fst a), (fst b), (fst o); cbn [snd]; exact Hw.
  - unfold encryptPositionData, bind, gets, throw. rewrite Hinit. repeat split.
Qed.

Lemma createHealthFactorComputation_session
  (encryptedCollateral encryptedDebt encryptedPrice : EncryptedData.t)
  (positionId : string) (w : World) :
  same_session w (snd (createHealthFactorComputation env encryptedCollateral encryptedDebt
                         encryptedPrice positionId w)).
Proof.
  unfold createHealthFactorComputation, registerComputationCallback, bind, gets, try_catch,
    network, modify, throw, lift, ret.
  destruct (isInitialized w) eqn:Hi, (_arciumProgram w) eqn:Hp; cbn [negb orb fst snd];
    try (unfold same_session; repeat split; congruence).
  destruct (buildFinalizeCompDefTx env (net_pos w)); cbn [fst snd];
    [unfold same_session; cbn; repeat split; congruence|].
  run_cases; unfold same_session; cbn; repeat split; congruence.
Qed.

(** A submission only moves the network forward. *)
Lemma createHealthFactorComputation_net
  (encryptedCollateral encryptedDebt encryptedPrice : EncryptedData.t)
  (positionId : string) (w : World) :
  (net_pos w <= net_pos (snd (createHealthFactorComputation env encryptedCollateral
                                encryptedDebt encryptedPrice positionId w)))%nat.
Proof.
  unfold createHealthFactorComputation, registerComputationCallback, bind, gets, try_catch,
    network, modify, throw, lift, ret.
  destruct (isInitialized w), (_arciumProgram w); cbn [negb orb fst snd]; try lia.
  destruct (buildFinalizeCompDefTx env (net_pos w)); cbn [fst snd net_pos set_net_pos];
    [lia|].
  match goal with |- context [sendRawTransaction env ?n] =>
    destruct (sendRawTransaction env n) end;
    cbn [fst snd net_pos set_net_pos set_sent]; [|lia].
  match goal with |- context [confirmTransaction env ?n] =>
    destruct (confirmTransaction env n) as [conf|] end;
    cbn [fst snd net_pos set_net_pos set_sent]; [|lia].
  destruct (conf_err conf); cbn [fst snd net_pos set_net_pos set_sent]; [lia|].
  destruct (extractComputationReference conf);
    cbn [fst snd net_pos set_net_pos set_sent set_computationCallbacks set_next_fn]; lia.
Qed.

Lemma monitorComputation_session (computationRef : ComputationReference) (w : World) :
  same_session w (snd (monitorComputation env computationRef w)).
Proof.
  unfold monitorComputation, processHealthFactorResult, processLiquidationResult,
    try_catch, bind, network, lift, ret, throw, generateRandomBytes, Date_now.
  run_cases; repeat split.
Qed.

(** The submission that goes through: the reference read from the logs is
    returned, one transaction has been sent with the three ciphertexts in
    order, three network calls have been made, and the callback of the
    position is registered under its key, so that the count of current
    computations grows by one for a position that had none and stays for a
    position that had one. *)
Theorem createHealthFactorComputation_registers
  (encryptedCollateral encryptedDebt encryptedPrice : EncryptedData.t)
  (positionId signature : string) (confirmation : Confirmation)
  (computationRef : ComputationReference) (w : World) :
  isInitialized w = true ->
  is_Some (_arciumProgram w) ->
  buildFinalizeCompDefTx env (net_pos w) = None ->
  sendRawTransaction env (S (net_pos w)) = Ok signature ->
  confirmTransaction env (S (S (net_pos w))) = Ok confirmation ->
  conf_err confirmation = None ->
  extractComputationReference confirmation = Ok computationRef ->
  exists w',
    createHealthFactorComputation env encryptedCollateral encryptedDebt encryptedPrice
      positionId w = (Ok computationRef, w') /\
    computationCallbacks w' =
      <[health_factor_key positionId :=
          {| fn_id := next_fn w; fn_positionId := positionId;
             fn_computationType := "health_factor" |}]> (computationCallbacks w) /\
    (exists computationTx,
       sent w' = sent w ++ [computationTx] /\
       tx_inputs computationTx = [EncryptedData.data encryptedCollateral;
                                  EncryptedData.data encryptedDebt;
                                  EncryptedData.data encryptedPrice]) /\
    net_pos w' = S (S (S (net_pos w))) /\
    ArciumIntegrationStatus.currentComputations (getIntegrationStatus w') =
      (ArciumIntegrationStatus.currentComputations (getIntegrationStatus w) +
       match computationCallbacks w !! health_factor_key positionId with
       | Some _ => 0
       | None => 1
       end)%nat.
Proof.
  intros Hinit [p Hp] Hbuild Hsend Hconfirm Herr Hextract.
  unfold createHealthFactorComputation, bind at 1 2, gets.
  rewrite Hinit, Hp. cbn [negb orb].
  unfold try_catch, bind, network, gets, modify, throw, lift.
  rewrite Hbuild. cbn [net_pos set_net_pos set_sent sent].
  rewrite Hsend. cbn [net_pos set_net_pos set_sent sent].
  rewrite Hconfirm, Herr, Hextract.
  rewrite registerComputationCallback_run. unfold ret.
  eexists. split; [reflexivity|].
  cbn [computationCallbacks set_computationCallbacks set_next_fn set_net_pos set_sent
       next_fn sent net_pos getIntegrationStatus
       ArciumIntegrationStatus.currentComputations].
  split; [reflexivity|]. split; [eexists; split; reflexivity|]. split; [reflexivity|].
  rewrite map_size_insert. unfold health_factor_key.
  destruct (computationCallbacks w !! (positionId +:+ "-" +:+ "health_factor"));
    cbn; lia.
Qed.

(** The outcome of a submission, for the registry. *)
Lemma createHealthFactorComputation_outcome
  (encryptedCollateral encryptedDebt encryptedPrice : EncryptedData.t)
  (positionId : string) (w : World) :
  let outcome := createHealthFactorComputation env encryptedCollateral encryptedDebt
                   encryptedPrice positionId w in
  match fst outcome with
  | Ok _ =>
      computationCallbacks (snd outcome) =
        <[health_factor_key positionId :=
            {| fn_id := next_fn w; fn_positionId := positionId;
               fn_computationType := "health_factor" |}]> (computationCallbacks w) /\
      next_fn (snd outcome) = S (next_fn w)
  | Err _ => same_registry w (snd outcome)
  end.
Proof.
  unfold createHealthFactorComputation, registerComputationCallback, bind, gets, try_catch,
    network, modify, throw, lift, ret.
  destruct (isInitialized w), (_arciumProgram w); cbn [negb orb fst snd];
    try (split; reflexivity).
  destruct (buildFinalizeCompDefTx env (net_pos w)); cbn [fst snd]; [split; reflexivity|].
  match goal with |- context [sendRawTransaction env ?n] =>
    destruct (sendRawTransaction env n) end; cbn [fst snd]; [|split; reflexivity].
  match goal with |- context [confirmTransaction env ?n] =>
    destruct (confirmTransaction env n) as [conf|] end; cbn [fst snd]; [|split; reflexivity].
  destruct (conf_err conf); cbn [fst snd]; [split; reflexivity|].
  destruct (extractComputationReference conf); cbn [fst snd]; split; reflexivity.
Qed.

(** A callback is registered exactly when the submission returns: if the
    method throws, at whatever step, the registry and the allocator are as
    before. *)
Theorem createHealthFactorComputation_registers_iff_returns
  (encryptedCollateral encryptedDebt encryptedPrice : EncryptedData.t)
  (positionId : string) (w : World) :
  let outcome := createHealthFactorComputation env encryptedCollateral encryptedDebt
                   encryptedPrice positionId w in
  match fst outcome with
  | Ok _ =>
      computationCallbacks (snd outcome) =
        <[health_factor_key positionId :=
            {| fn_id := next_fn w; fn_positionId := positionId;
               fn_computationType := "health_factor" |}]> (computationCallbacks w) /\
      next_fn (snd outcome) = S (next_fn w)
  | Err _ => same_registry w (snd outcome)
  end.
Proof.
  exact (createHealthFactorComputation_outcome encryptedCollateral encryptedDebt
           encryptedPrice positionId w).
Qed.

(** Submissions for different positions do not disturb each other: the
    entry of another position is as it was. *)
Theorem createHealthFactorComputation_other_position
  (encryptedCollateral encryptedDebt encryptedPrice : EncryptedData.t)
  (positionId other : string) (w : World) :
  other <> positionId ->
  computationCallbacks
    (snd (createHealthFactorComputation env encryptedCollateral encryptedDebt
            encryptedPrice positionId w)) !! health_factor_key other =
  computationCallbacks w !! health_factor_key other.
Proof.
  intros Hother.
  destruct (createHealthFactorComputation_registry env encryptedCollateral encryptedDebt
              encryptedPrice positionId w) as [[Hsame _] | [Hreg _]].
  - now rewrite Hsame.
  - rewrite Hreg. apply lookup_insert_ne. unfold health_factor_key. intros Heq.
    apply Hother. symmetry. apply (string_app_inv_tail _ _ _ Heq).
Qed.

(** What a call can do to the registry: nothing, or one insertion. *)
Lemma after_registry (c : Call) (w : World) :
  computationCallbacks (after env c w) = computationCallbacks w \/
  exists k cb, computationCallbacks (after env c w) = <[k := cb]> (computationCallbacks w).
Proof.
  destruct c; cbn [after].
  - left. apply initialize_registry.
  - left. apply encryptData_registry.
  - left. apply decryptData_registry.
  - left. apply encryptPositionData_registry.
  - destruct (createHealthFactorComputation_registry env encryptedCollateral encryptedDebt
                encryptedPrice positionId w) as [[Hsame _] | [Hreg _]]; eauto.
  - left. apply monitorComputation_registry.
  - left. reflexivity.
  - left. apply encryptTransactionAmount_registry.
  - left. apply decryptTransactionAmount_registry.
Qed.

(** No call ever removes a callback: an entry of the registry stays, and
    the count of current computations never goes down, not even when the
    computation has been monitored to its end. *)
Theorem registry_only_grows (c : Call) (w : World) :
  (forall k, is_Some (computationCallbacks w !! k) ->
             is_Some (computationCallbacks (after env c w) !! k)) /\
  (ArciumIntegrationStatus.currentComputations (getIntegrationStatus w) <=
   ArciumIntegrationStatus.currentComputations (getIntegrationStatus (after env c w)))%nat.
Proof.
  cbn [getIntegrationStatus ArciumIntegrationStatus.currentComputations].
  destruct (after_registry c w) as [Hsame | (k' & cb & Hins)].
  - rewrite Hsame. split; [auto | lia].
  - rewrite Hins. split.
    + intros k Hk. rewrite lookup_insert. case_decide; [eauto | exact Hk].
    + rewrite map_size_insert. destruct (computationCallbacks w !! k'); cbn; lia.
Qed.

(** What a call can do to the readiness of the client. *)
Lemma after_ready (c : Call) (w : World) :
  isInitialized w = true -> is_Some (_arciumProgram w) ->
  isInitialized (after env c w) = true /\ is_Some (_arciumProgram (after env c w)).
Proof.
  intros Hinit Hprog.
  assert (Hsession : forall w', same_session w w' ->
            isInitialized w' = true /\ is_Some (_arciumProgram w')).
  { intros w' (Hi & Hp & _). rewrite Hi, Hp. auto. }
  destruct c; cbn [after].
  - unfold initialize, Keypair_generate, try_catch, bind, network, modify, ret, throw,
      generateRandomBytes.
    destruct Hprog as [p Hp].
    run_cases; cbn; rewrite ?Hinit, ?Hp; eauto.
  - apply Hsession, encryptData_session.
  - rewrite decryptData_state. auto.
  - apply Hsession, encryptPositionData_session.
  - apply Hsession, createHealthFactorComputation_session.
  - apply Hsession, monitorComputation_session.
  - auto.
  - unfold encryptTransactionAmount, bind, gets, throw.
    destruct (negb (privacyEnabled w)); [auto|]. apply Hsession, encryptData_session.
  - unfold decryptTransactionAmount, bind, gets, throw, lift.
    destruct (negb (privacyEnabled w)); [auto|].
    pose proof (decryptData_state encryptedData w) as Hstate.
    destruct (decryptData encryptedData w) as [[bs|e] w']; cbn [snd] in *; subst w'; auto.
Qed.

(** A client that is ready stays ready: no call, not even a failed
    re-initialisation, resets [isInitialized] or drops the program. *)
Theorem readiness_is_kept (calls : list Call) (w : World) :
  isInitialized w = true ->
  is_Some (_arciumProgram w) ->
  let w' := fold_left (fun w c => after env c w) calls w in
  isInitialized w' = true /\ is_Some (_arciumProgram w').
Proof.
  revert w. induction calls as [|c calls IH]; intros w Hinit Hprog; [cbn; auto|].
  cbn [fold_left]. destruct (after_ready c w Hinit Hprog) as [Hinit' Hprog'].
  apply IH; assumption.
Qed.

(** What a monitored computation returns, whichever processor made it: two
    32-byte values, the identifier that reads back to the offset of the
    reference; one network call, 64 random bytes and one clock reading
    have been consumed, and the registry still holds what it held. *)
Theorem monitorComputation_result (computationRef : ComputationReference)
  (result : PrivateHealthResult.t) (w w' : World) :
  monitorComputation env computationRef w = (Ok result, w') ->
  length (PrivateHealthResult.healthFactor result) = 32%nat /\
  length (PrivateHealthResult.liquidationThreshold result) = 32%nat /\
  JS.BigInt_of_string (PrivateHealthResult.computationId result)
    = Ok (computationOffset computationRef) /\
  net_pos w' = S (net_pos w) /\
  rand_pos w' = (rand_pos w + 64)%nat /\
  clock_pos w' = S (clock_pos w) /\
  same_registry w w'.
Proof.
  unfold monitorComputation, processHealthFactorResult, processLiquidationResult,
    try_catch, bind, network, lift, ret, throw, generateRandomBytes, Date_now.
  run_cases; try discriminate; intros [= <- <-];
    cbn [PrivateHealthResult.healthFactor PrivateHealthResult.liquidationThreshold
         PrivateHealthResult.computationId raw_computationId
         net_pos rand_pos clock_pos set_net_pos set_rand_pos set_clock_pos];
    rewrite BigInt_of_toString; repeat split; try reflexivity; lia.
Qed.

End RegistryOverTime.

(** * The privacy client *)

Section PrivacyClientProperties.

Context `{platform : Platform} (env : Env) (ledger : Ledger).

(** [encryptData] moves the cursor of the random source and nothing else. *)
Lemma encryptData_only_draws (data : Data) (options : EncryptOptions) (w : World) :
  snd (encryptData env data options w) =
    set_rand_pos (rand_pos (snd (encryptData env data options w))) w.
Proof.
  unfold encryptData, try_catch, bind, lift, ret, throw, generateRandomBytes.
  destruct (dataBytes data); [|destruct w; reflexivity].
  destruct (opt_key options);
    destruct (match opt_algorithm options with Some a => a | None => AES_256 end);
    cbn [fst snd rand_pos set_rand_pos];
    match goal with |- context [match ?r with Ok _ => _ | Err _ => _ end] =>
      destruct r end; reflexivity.
Qed.

(** [encryptPositionData] moves the cursors of the random source and of
    the clock and nothing else. *)
Lemma encryptPositionData_only_draws (collateralAmount debtAmount : Z) (owner : PublicKey)
  (w : World) :
  exists r c,
    snd (encryptPositionData env collateralAmount debtAmount owner w) =
      set_clock_pos c (set_rand_pos r w).
Proof.
  destruct (isInitialized w) eqn:Hinit.
  - rewrite (encryptPositionData_run env collateralAmount debtAmount owner w Hinit).
    cbv zeta.
    set (w0 := set_rand_pos _ (set_clock_pos _ _)).
    set (options := {| opt_algorithm := None; opt_key := _ |}).
    pose proof (encryptData_only_draws (DBigint collateralAmount) options w0) as Ha.
    set (a := encryptData env (DBigint collateralAmount) options w0) in *.
    pose proof (encryptData_only_draws (DBigint debtAmount) options (snd a)) as Hb.
    set (b := encryptData env (DBigint debtAmount) options (snd a)) in *.
    pose proof (encryptData_only_draws (DString (toBase58 owner)) options (snd b)) as Ho.
    set (o := encryptData env (DString (toBase58 owner)) options (snd b)) in *.
    assert (Hw : snd o = set_clock_pos (S (clock_pos w)) (set_rand_pos (rand_pos (snd o)) w)).
    { rewrite Ho, Hb, Ha. reflexivity. }
    destruct (fst a), (fst b), (fst o); cbn [snd];
      try (eexists _, _; exact Hw).
    eexists (rand_pos (snd o)), _. rewrite Hw. reflexivity.
  - unfold encryptPositionData, bind, gets, throw. rewrite Hinit.
    exists (rand_pos w), (clock_pos w). destruct w; reflexivity.
Qed.

(** A position that is returned is CONFIDENTIAL. *)
Lemma encryptPositionData_level (collateralAmount debtAmount : Z) (owner : PublicKey)
  (pos : EncryptedPosition.t) (w w' : World) :
  encryptPositionData env collateralAmount debtAmount owner w = (Ok pos, w') ->
  EncryptedPosition.privacyLevel pos = CONFIDENTIAL.
Proof.
  intros Hrun. destruct (isInitialized w) eqn:Hinit.
  - rewrite (encryptPositionData_run env collateralAmount debtAmount owner w Hinit) in Hrun.
    cbv zeta in Hrun.
    set (k := map (getRandomValues env) (seq (rand_pos w) 32)) in *.
    set (w0 := set_rand_pos _ (set_clock_pos _ _)) in *.
    set (options := {| opt_algorithm := None; opt_key := Some k |}) in *.
    destruct (encryptData env (DBigint collateralAmount) options w0) as [[ec|e1] w1];
      cbn [fst snd] in Hrun; [|discriminate Hrun].
    destruct (encryptData env (DBigint debtAmount) options w1) as [[ed|e2] w2];
      cbn [fst snd] in Hrun; [|discriminate Hrun].
    destruct (encryptData env (DString (toBase58 owner)) options w2) as [[eo|e3] w3];
      cbn [fst snd] in Hrun; [|discriminate Hrun].
    injection Hrun as <- _. reflexivity.
  - unfold encryptPositionData, bind, gets, throw in Hrun. rewrite Hinit in Hrun.
    discriminate Hrun.
Qed.

(** What [getPrivatePosition] does with the switch on, in terms of its two
    calls of [encryptData]. *)
Lemma getPrivatePosition_run (positionId : string) (w : World) :
  privacyEnabled w = true ->
  let options := {| opt_algorithm := None; opt_key := None |} in
  let a := encryptData env (DBigint 1000000000) options w in
  let b := encryptData env (DBigint 0) options (snd a) in
  getPrivatePosition env positionId w =
    match fst a, fst b with
    | Ok ec, Ok ed =>
        (Ok (Some (EncryptedPosition.mk positionId
                     {| toBase58 := "11111111111111111111111111111111" |}
                     ec ed None (repeat Byte.x00 32) CONFIDENTIAL
                     (Date_now_tape env (clock_pos (snd b)))
                     (Date_now_tape env (S (clock_pos (snd b)))))),
         set_clock_pos (S (S (clock_pos (snd b)))) (snd b))
    | Err _, _ => (Ok None, snd a)
    | Ok _, Err _ => (Ok None, snd b)
    end.
Proof.
  intros Hon options a b.
  unfold getPrivatePosition, bind at 1, gets. rewrite Hon. cbn [negb].
  unfold try_catch, bind, Date_now, ret. fold options. fold a.
  destruct a as [[ec|e] wa] eqn:Ea; cbn [fst snd] in *; [|reflexivity].
  fold b. destruct b as [[ed|e] wb] eqn:Eb; cbn [fst snd] in *; reflexivity.
Qed.

Lemma getPrivatePosition_frame (positionId : string) (w : World) :
  same_session w (snd (getPrivatePosition env positionId w)) /\
  same_registry w (snd (getPrivatePosition env positionId w)).
Proof.
  destruct (privacyEnabled w) eqn:Hon.
  - rewrite (getPrivatePosition_run positionId w Hon). cbv zeta.
    set (options := {| opt_algorithm := None; opt_key := None |}).
    pose proof (encryptData_session env (DBigint 1000000000) options w) as Hsa.
    pose proof (encryptData_registry env (DBigint 1000000000) options w) as Hra.
    set (a := encryptData env (DBigint 1000000000) options w) in *.
    pose proof (encryptData_session env (DBigint 0) options (snd a)) as Hsb.
    pose proof (encryptData_registry env (DBigint 0) options (snd a)) as Hrb.
    set (b := encryptData env (DBigint 0) options (snd a)) in *.
    assert (Hs : same_session w (snd b)) by (eapply same_session_trans; eassumption).
    assert (Hr : same_registry w (snd b)) by (eapply same_registry_trans; eassumption).
    destruct (fst a), (fst b); cbn [snd]; split; assumption.
  - unfold getPrivatePosition, bind, gets, throw. rewrite Hon. repeat split.
Qed.

(** With the switch on, [getPrivatePosition] never throws: when an
    encryption fails the error is dropped and the result is [null];
    otherwise the result is a position with the identifier that was asked
    for, no encrypted owner and a position key of 32 zero bytes, while its
    two amounts are encrypted under two keys drawn one after the other
    from the random source. *)
Theorem getPrivatePosition_never_throws (positionId : string) (w : World) :
  privacyEnabled w = true ->
  exists found w',
    getPrivatePosition env positionId w = (Ok found, w') /\
    match found with
    | None => True
    | Some pos =>
        EncryptedPosition.positionId pos = positionId /\
        EncryptedPosition.privacyLevel pos = CONFIDENTIAL /\
        EncryptedPosition.encryptedOwner pos = None /\
        EncryptedPosition.positionKey pos = repeat Byte.x00 32 /\
        EncryptedData.key (EncryptedPosition.encryptedCollateral pos) =
          map (getRandomValues env) (seq (rand_pos w) 32) /\
        EncryptedData.key (EncryptedPosition.encryptedDebt pos) =
          map (getRandomValues env) (seq (rand_pos w + 32 + 12) 32)
    end.
Proof.
  intros Hon. rewrite (getPrivatePosition_run positionId w Hon). cbv zeta.
  set (options := {| opt_algorithm := None; opt_key := None |}).
  destruct (encryptData env (DBigint 1000000000) options w) as [[ec|e] wa] eqn:Ea;
    cbn [fst snd]; [|eexists _, _; split; [reflexivity | exact I]].
  destruct (encryptData env (DBigint 0) options wa) as [[ed|e] wb] eqn:Eb;
    cbn [fst snd]; [|eexists _, _; split; [reflexivity | exact I]].
  eexists _, _. split; [reflexivity|].
  cbn [EncryptedPosition.positionId EncryptedPosition.privacyLevel
       EncryptedPosition.encryptedOwner EncryptedPosition.positionKey
       EncryptedPosition.encryptedCollateral EncryptedPosition.encryptedDebt].
  repeat split.
  - revert Ea. unfold encryptData, try_catch, bind, lift, ret, throw, options.
    cbn [opt_algorithm opt_key]. destruct (dataBytes (DBigint 1000000000)); [|discriminate].
    rewrite !generateRandomBytes_eq.
    match goal with |- context [match ?r with Ok _ => _ | Err _ => _ end] =>
      destruct r end; [|discriminate].
    intros [= <- _]. reflexivity.
  - assert (Hwa : rand_pos wa = (rand_pos w + 32 + 12)%nat).
    { revert Ea. unfold encryptData, try_catch, bind, lift, ret, throw, options.
      cbn [opt_algorithm opt_key]. destruct (dataBytes (DBigint 1000000000)); [|discriminate].
      rewrite !generateRandomBytes_eq.
      match goal with |- context [match ?r with Ok _ => _ | Err _ => _ end] =>
        destruct r end; [|discriminate].
      intros [= _ <-]. reflexivity. }
    revert Eb. unfold encryptData, try_catch, bind, lift, ret, throw, options.
    cbn [opt_algorithm opt_key]. destruct (dataBytes (DBigint 0)); [|discriminate].
    rewrite !generateRandomBytes_eq.
    match goal with |- context [match ?r with Ok _ => _ | Err _ => _ end] =>
      destruct r end; [|discriminate].
    intros [= <- _]. cbn [EncryptedData.key]. now rewrite Hwa.
Qed.

(** A health computation that returns has left the callback of the
    position in the registry: completion does not remove it. *)
Theorem computePrivateHealth_registers (positionId : string)
  (result : PrivateHealthResult.t) (w w' : World) :
  computePrivateHealth env positionId w = (Ok result, w') ->
  is_Some (computationCallbacks w' !! health_factor_key positionId).
Proof.
  unfold computePrivateHealth, bind at 1, gets.
  destruct (privacyEnabled w); cbn [negb]; [|discriminate].
  unfold try_catch, bind, throw, getCurrentPrice, ret.
  pose proof (getPrivatePosition_frame positionId w) as [_ Hfound].
  destruct (getPrivatePosition env positionId w) as [[[pos|]|e] w1]; cbn [snd] in Hfound;
    try discriminate.
  set (options := {| opt_algorithm := None; opt_key := None |}).
  pose proof (encryptData_registry env (DBigint 150000000) options w1) as Hprice.
  destruct (encryptData env (DBigint 150000000) options w1) as [[ep|e] w2];
    cbn [snd] in Hprice; [|discriminate].
  pose proof (createHealthFactorComputation_outcome env
                (EncryptedPosition.encryptedCollateral pos)
                (EncryptedPosition.encryptedDebt pos) ep positionId w2) as Hcreate.
  cbv zeta in Hcreate.
  destruct (createHealthFactorComputation env _ _ ep positionId w2) as [[ref|e] w3];
    cbn [fst snd] in Hcreate; [|discriminate].
  pose proof (monitorComputation_registry env ref w3) as Hmonitor.
  destruct (monitorComputation env ref w3) as [[r|e] w4]; cbn [snd] in Hmonitor;
    [|discriminate].
  intros [= _ <-]. destruct Hmonitor as [-> _], Hcreate as [-> _].
  rewrite lookup_insert_eq. eauto.
Qed.

(** One turn of the loop never throws and pushes at most one result. *)
Lemma batch_loop_results (encryptedPrice : EncryptedData.t) (positionIds : list string) :
  forall results w,
    exists pushed w',
      batch_loop env encryptedPrice positionIds results w = (Ok (results ++ pushed), w') /\
      (length pushed <= length positionIds)%nat.
Proof.
  induction positionIds as [|positionId rest IH]; intros results w.
  - exists [], w. rewrite app_nil_r. split; [reflexivity | cbn; lia].
  - cbn [batch_loop]. unfold bind at 1, try_catch at 1, bind at 1.
    assert (Hturn : exists d w1,
      (match
         (match getPrivatePosition env positionId w with
          | (Ok found, w1) =>
              match found with
              | Some encryptedPosition =>
                  (let* computationRef :=
                     createHealthFactorComputation env
                       (EncryptedPosition.encryptedCollateral encryptedPosition)
                       (EncryptedPosition.encryptedDebt encryptedPosition)
                       encryptedPrice positionId in
                   let* result := monitorComputation env computationRef in
                   ret (results ++ [result]))
              | None => ret results
              end w1
          | (Err e, w1) => (Err e, w1)
          end)
       with
       | (Ok a, w1) => (Ok a, w1)
       | (Err e, w1) => ret results w1
       end) = (Ok (results ++ d), w1) /\ (length d <= 1)%nat).
    { unfold bind, ret.
      destruct (getPrivatePosition env positionId w) as [[[pos|]|e] w1];
        try (exists [], w1; rewrite app_nil_r; split; [reflexivity | cbn; lia]).
      destruct (createHealthFactorComputation env _ _ encryptedPrice positionId w1)
        as [[ref|e] w2];
        try (exists [], w2; rewrite app_nil_r; split; [reflexivity | cbn; lia]).
      destruct (monitorComputation env ref w2) as [[r|e] w3];
        [exists [r], w3 | exists [], w3; rewrite app_nil_r]; split;
        try reflexivity; cbn; lia. }
    destruct Hturn as (d & w1 & Hturn & Hd). rewrite Hturn.
    destruct (IH (results ++ d) w1) as (pushed & w' & Hrest & Hpushed).
    exists (d ++ pushed), w'. rewrite Hrest, app_assoc.
    split; [reflexivity|]. rewrite length_app. cbn [length]. lia.
Qed.

(** Once the price is encrypted, [batchHealthComputations] does not throw,
    whatever fails for a position, and it returns at most one result for
    each identifier. *)
Theorem batchHealthComputations_bounded (positionIds : list string)
  (encryptedPrice : EncryptedData.t) (w w1 : World) :
  privacyEnabled w = true ->
  encryptData env (DBigint 150000000) {| opt_algorithm := None; opt_key := None |} w
    = (Ok encryptedPrice, w1) ->
  exists results w',
    batchHealthComputations env positionIds w = (Ok results, w') /\
    (length results <= length positionIds)%nat.
Proof.
  intros Hon Hprice.
  unfold batchHealthComputations, bind at 1, gets. rewrite Hon. cbn [negb].
  unfold bind at 1, getCurrentPrice, ret. unfold bind at 1. rewrite Hprice.
  destruct (batch_loop_results encryptedPrice positionIds [] w1)
    as (pushed & w' & Hloop & Hlen).
  exists pushed, w'. split; [exact Hloop | exact Hlen].
Qed.

(** On a client that is not initialised the loop pushes nothing. *)
Lemma batch_loop_not_initialized (encryptedPrice : EncryptedData.t)
  (positionIds : list string) :
  forall results w,
    isInitialized w = false ->
    fst (batch_loop env encryptedPrice positionIds results w) = Ok results.
Proof.
  induction positionIds as [|positionId rest IH]; intros results w Hinit; [reflexivity|].
  cbn [batch_loop]. unfold bind at 1, try_catch at 1, bind at 1.
  pose proof (getPrivatePosition_frame positionId w) as [(Hi & _) _].
  destruct (getPrivatePosition env positionId w) as [[[pos|]|e] w1]; cbn [snd] in Hi;
    rewrite Hinit in Hi.
  - unfold bind at 1.
    unfold createHealthFactorComputation, bind at 1, gets. rewrite Hi. cbn [negb orb].
    unfold bind at 1, gets, throw, ret. apply IH. exact Hi.
  - unfold ret. apply IH. exact Hi.
  - unfold ret. apply IH. exact Hi.
Qed.

(** On a client that is not initialised, [batchHealthComputations] reports
    no failure: whatever the identifiers, what it returns is the empty
    list. *)
Theorem batchHealthComputations_not_initialized (positionIds : list string)
  (results : list PrivateHealthResult.t) (w w' : World) :
  isInitialized w = false ->
  batchHealthComputations env positionIds w = (Ok results, w') ->
  results = [].
Proof.
  intros Hinit.
  unfold batchHealthComputations, bind at 1, gets.
  destruct (privacyEnabled w); cbn [negb]; [|discriminate].
  unfold bind at 1, getCurrentPrice, ret. unfold bind at 1.
  set (options := {| opt_algorithm := None; opt_key := None |}).
  pose proof (encryptData_session env (DBigint 150000000) options w) as (Hi & _).
  destruct (encryptData env (DBigint 150000000) options w) as [[ep|e] w1];
    cbn [snd] in Hi; [|discriminate].
  rewrite Hinit in Hi.
  pose proof (batch_loop_not_initialized ep positionIds [] w1 Hi) as Hloop.
  intros Hrun. rewrite Hrun in Hloop. cbn in Hloop. congruence.
Qed.

End PrivacyClientProperties.

(** * The ciphers of the package *)

Section PackageCipherProperties.

Context `{platform : Platform} (env : Env).

(** C2. No position is opened.  On an initialised client, whatever the
    amounts and the owner, [encryptPositionData] throws: each of its three
    calls of [encryptData] draws a nonce of 12 bytes, which the ciphers of
    the package refuse, and the first failure, the one of the collateral,
    is rethrown twice wrapped.  For a collateral below [2 ^ 512] the cause
    is the refusal of the cipher, run under the position key on the bytes
    of the collateral.  Nothing is sent or registered. *)
Theorem encryptPositionData_nonce_refused (collateralAmount debtAmount : Z)
  (owner : PublicKey) (w : World) :
  cipher_refuses_nonce ->
  isInitialized w = true ->
  let positionKey := map (getRandomValues env) (seq (rand_pos w) 32) in
  let nonce := map (getRandomValues env) (seq (rand_pos w + 32 + 8) 12) in
  let outcome := encryptPositionData env collateralAmount debtAmount owner w in
  (exists e,
     fst outcome =
       Err (Error ("Position encryption failed: " +:+
                   exn_toString (Error ("Data encryption failed: " +:+ exn_toString e)))) /\
     (collateralAmount < 2 ^ 512 ->
      exists bs,
        dataBytes (DBigint collateralAmount) = Ok bs /\
        Aes256Cipher_encrypt positionKey bs nonce = Err e)) /\
  (forall pos w', outcome <> (Ok pos, w')) /\
  sent (snd outcome) = sent w /\
  same_registry w (snd outcome).
Proof.
  intros Hsdk Hinit positionKey nonce outcome.
  pose proof (encryptPositionData_run env collateralAmount debtAmount owner w Hinit) as Hrun.
  cbv zeta in Hrun. fold positionKey in Hrun. fold outcome in Hrun.
  set (w0 := set_rand_pos (rand_pos w + 32 + 8)
               (set_clock_pos (S (clock_pos w)) (set_rand_pos (rand_pos w + 32) w))) in *.
  set (options := {| opt_algorithm := None; opt_key := Some positionKey |}) in *.
  set (a := encryptData env (DBigint collateralAmount) options w0) in *.
  assert (Hframe : sent (snd outcome) = sent w /\ same_registry w (snd outcome)).
  { destruct (encryptPositionData_only_draws env collateralAmount debtAmount owner w)
      as (r & c & Hw).
    fold outcome in Hw. rewrite Hw. unfold same_registry. cbn. auto. }
  assert (Hfirst :
            exists e,
              fst a = Err (Error ("Data encryption failed: " +:+ exn_toString e)) /\
              (collateralAmount < 2 ^ 512 ->
               exists bs,
                 dataBytes (DBigint collateralAmount) = Ok bs /\
                 Aes256Cipher_encrypt positionKey bs nonce = Err e)).
  { destruct (dataBytes (DBigint collateralAmount)) as [bs|e0] eqn:Hbs.
    - destruct (encryptData_refused env (DBigint collateralAmount) options bs w0 Hsdk Hbs)
        as (e & He & Ha).
      fold a in Ha. exists e. rewrite Ha. split; [reflexivity|].
      intros _. exists bs. split; [reflexivity|].
      unfold options in He. cbn [opt_key opt_algorithm cipher_encrypt] in He.
      rewrite Nat.add_0_r in He. exact He.
    - exists e0. unfold a.
      rewrite (encryptData_encoding_error env (DBigint collateralAmount) options e0 w0 Hbs).
      split; [reflexivity|].
      intros Hfit. exfalso. cbn [dataBytes] in Hbs.
      change (2 ^ 512) with (256 ^ Z.of_nat 64) in Hfit.
      rewrite (serializeLE_mod _ 64 Hfit) in Hbs.
      assert (Hpow : 0 < 256 ^ Z.of_nat 64) by (apply Z.pow_pos_nonneg; lia).
      destruct (serializeLE_fits _ 64 (Z.mod_pos_bound collateralAmount _ Hpow))
        as (bs & Hok & _).
      rewrite Hok in Hbs. discriminate Hbs. }
  destruct Hfirst as (e & Ha & Hcause).
  rewrite Ha in Hrun.
  split; [|split].
  - exists e. split; [rewrite Hrun; reflexivity | exact Hcause].
  - intros pos w' Hok. rewrite Hrun in Hok. discriminate Hok.
  - exact Hframe.
Qed.

End PackageCipherProperties.

(** * The integrity hash *)

Lemma ToInt32_range (z : Z) : - 2147483648 <= JSInt32.ToInt32 z < 2147483648.
Proof.
  unfold JSInt32.ToInt32.
  pose proof (Z.mod_pos_bound (z + 2147483648) (4294967296) ltac:(lia)). lia.
Qed.

(** [ToInt32] only depends on the value modulo 2^32. *)
Lemma ToInt32_shift (z k : Z) : JSInt32.ToInt32 (z + 4294967296 * k) = JSInt32.ToInt32 z.
Proof.
  unfold JSInt32.ToInt32.
  replace (z + 4294967296 * k + 2147483648) with (z + 2147483648 + k * 4294967296) by lia.
  now rewrite Z.mod_add by lia.
Qed.

Lemma ToInt32_quotient (z : Z) : exists k, JSInt32.ToInt32 z = z + 4294967296 * k.
Proof.
  unfold JSInt32.ToInt32. exists (- ((z + 2147483648) / 4294967296)).
  rewrite Z.mod_eq by lia. lia.
Qed.

Lemma ToInt32_idempotent (z : Z) : JSInt32.ToInt32 (JSInt32.ToInt32 z) = JSInt32.ToInt32 z.
Proof.
  destruct (ToInt32_quotient z) as [k Hk]. rewrite Hk at 1. apply ToInt32_shift.
Qed.

(** One turn of the loop multiplies by 31 and adds the character, in
    32-bit arithmetic. *)
Lemma hash_step_31 (hash char : Z) :
  hash_step hash char = JSInt32.ToInt32 (31 * hash + char).
Proof.
  unfold hash_step, JSInt32.and, JSInt32.shl.
  rewrite Z.land_diag, ToInt32_idempotent.
  change (5 mod 32) with 5. rewrite Z.shiftl_mul_pow2 by lia. change (2 ^ 5) with 32.
  destruct (ToInt32_quotient hash) as [k1 Hk1]. rewrite Hk1.
  destruct (ToInt32_quotient ((hash + 4294967296 * k1) * 32)) as [k2 Hk2]. rewrite Hk2.
  replace ((hash + 4294967296 * k1) * 32 + 4294967296 * k2 - hash + char)
    with (31 * hash + char + 4294967296 * (32 * k1 + k2)) by lia.
  apply ToInt32_shift.
Qed.

Lemma hash_loop_31 (codes : list Z) (start : Z) :
  fold_left hash_step codes (JSInt32.ToInt32 start) =
  JSInt32.ToInt32 (fold_left (fun hash char => 31 * hash + char) codes start).
Proof.
  revert start. induction codes as [|c codes IH]; intros start; [reflexivity|].
  cbn [fold_left]. rewrite hash_step_31.
  destruct (ToInt32_quotient start) as [k Hk]. rewrite Hk.
  replace (31 * (start + 4294967296 * k) + c) with (31 * start + c + 4294967296 * (31 * k)) by lia.
  rewrite ToInt32_shift. apply IH.
Qed.

Section LedgerProperties.

Context `{platform : Platform} (env : Env) (ledger : Ledger).

(** The integrity hash is the hash code of the string in the manner of
    Java: the characters of the serialised record taken as the digits of a
    number in base 31 and reduced to a signed 32-bit integer, printed in
    hexadecimal with its sign.  The record that is serialised holds the
    identifier, the level and the creation time: no ciphertext, key or
    nonce enters the hash. *)
Theorem hashEncryptedData_polynomial (encryptedPosition : EncryptedPosition.t) :
  exists hash,
    hashEncryptedData encryptedPosition = JS.toString 16 hash /\
    - 2147483648 <= hash < 2147483648 /\
    hash =
      JSInt32.ToInt32
        (poly31
           (JSInt32.charCodes
              (JSON_stringify
                 (JS.Object
                    [("positionId",
                      JS.Str (EncryptedPosition.positionId encryptedPosition));
                     ("privacyLevel",
                      JS.Number
                        (JS.Integral
                           (PrivacyLevel_value
                              (EncryptedPosition.privacyLevel encryptedPosition))));
                     ("createdAt",
                      JS.Number
                        (JS.Integral (EncryptedPosition.createdAt encryptedPosition)))])))).
Proof.
  eexists. split; [reflexivity|]. split.
  - change 0 with (JSInt32.ToInt32 0). rewrite hash_loop_31. apply ToInt32_range.
  - change 0 with (JSInt32.ToInt32 0) at 1. rewrite hash_loop_31. reflexivity.
Qed.

(** The receipt of an opened position: the encrypted record is
    CONFIDENTIAL whatever level the parameters ask for, the receipt carries
    the identifier of the record and one computation reference, and the
    callback of the position is registered. *)
Theorem openPrivatePosition_receipt (params : PrivatePositionParams.t)
  (receipt : PrivatePositionReceipt.t) (w w' : World) :
  openPrivatePosition env ledger params w = (Ok receipt, w') ->
  EncryptedPosition.privacyLevel (PrivatePositionReceipt.encryptedPosition receipt)
    = CONFIDENTIAL /\
  PrivatePositionReceipt.positionId receipt =
    EncryptedPosition.positionId (PrivatePositionReceipt.encryptedPosition receipt) /\
  length (PrivatePositionReceipt.computationReferences receipt) = 1%nat /\
  is_Some (computationCallbacks w'
             !! health_factor_key (PrivatePositionReceipt.positionId receipt)).
Proof.
  unfold openPrivatePosition, bind at 1, gets.
  destruct (privacyEnabled w); cbn [negb]; [|discriminate].
  unfold try_catch, bind, throw, getCurrentPrice, ret, lift, network, Date_now, gets.
  destruct (encryptPositionData env _ _ _ w) as [[pos|e] w1] eqn:Hpos; [|discriminate].
  apply encryptPositionData_level in Hpos.
  destruct (getPositionPda ledger _ _) as [pda|e]; [|discriminate].
  cbn [fst snd clock_pos net_pos set_clock_pos set_net_pos].
  match goal with |- context [openPosition_rpc ledger ?n ?a] =>
    destruct (openPosition_rpc ledger n a) as [tx|e] end; [|discriminate].
  match goal with |- context [encryptData env ?d ?o ?s] =>
    destruct (encryptData env d o s) as [[ep|e] w2] end; [|discriminate].
  pose proof (createHealthFactorComputation_outcome env
                (EncryptedPosition.encryptedCollateral pos)
                (EncryptedPosition.encryptedDebt pos) ep
                (EncryptedPosition.positionId pos) w2) as Hcreate.
  cbv zeta in Hcreate.
  destruct (createHealthFactorComputation env _ _ ep _ w2) as [[ref|e] w3];
    cbn [fst snd] in Hcreate; [|discriminate].
  intros [= <- <-]. cbn. destruct Hcreate as [-> _].
  repeat split; [exact Hpos|]. rewrite lookup_insert_eq. eauto.
Qed.

(** When the encryption of the position fails, [openPrivatePosition]
    throws with that reason before anything reaches the ledger or the
    network: no call has been made and no transaction sent. *)
Theorem openPrivatePosition_encryption_failure (params : PrivatePositionParams.t)
  (e : Exn) (w w1 : World) :
  privacyEnabled w = true ->
  encryptPositionData env
    (PrivatePositionParams.collateralAmount params)
    (PrivatePositionParams.debtAmount params)
    (PrivatePositionParams.owner params) w = (Err e, w1) ->
  openPrivatePosition env ledger params w =
    (Err (Error ("Private position creation failed: " +:+ exn_toString e)), w1) /\
  net_pos w1 = net_pos w /\
  sent w1 = sent w /\
  same_registry w w1.
Proof.
  intros Hon Hpos.
  destruct (encryptPositionData_only_draws env
              (PrivatePositionParams.collateralAmount params)
              (PrivatePositionParams.debtAmount params)
              (PrivatePositionParams.owner params) w) as (r & c & Hstate).
  rewrite Hpos in Hstate. cbn [snd] in Hstate.
  split; [|subst w1; repeat split].
  unfold openPrivatePosition, bind at 1, gets. rewrite Hon. cbn [negb].
  unfold try_catch, bind at 1, throw. now rewrite Hpos.
Qed.

(** Opening is not atomic: when the ledger has accepted the position and
    the submission of the health computation then fails, the method throws
    although the position is open on the ledger. *)
Theorem openPrivatePosition_after_ledger (params : PrivatePositionParams.t)
  (encryptedPosition : EncryptedPosition.t) (positionPda : PublicKey) (tx : string)
  (encryptedPrice : EncryptedData.t) (e : Exn) (w w1 w2 w3 : World) :
  privacyEnabled w = true ->
  encryptPositionData env
    (PrivatePositionParams.collateralAmount params)
    (PrivatePositionParams.debtAmount params)
    (PrivatePositionParams.owner params) w = (Ok encryptedPosition, w1) ->
  getPositionPda ledger (PrivatePositionParams.owner params)
    (PrivatePositionParams.collateralType params) = Ok positionPda ->
  openPosition_rpc ledger (net_pos w1)
    {| arg_collateralType := PrivatePositionParams.collateralType params;
       arg_collateralAmount := PrivatePositionParams.collateralAmount params;
       arg_debtAmount := PrivatePositionParams.debtAmount params;
       arg_positionId := EncryptedPosition.positionId encryptedPosition;
       arg_privacyLevel := PrivatePositionParams.privacyLevel params;
       arg_encryptedDataHash := hashEncryptedData encryptedPosition;
       arg_timestamp := Date_now_tape env (clock_pos w1);
       arg_user := PrivatePositionParams.owner params;
       arg_position := positionPda |} = Ok tx ->
  encryptData env (DBigint 150000000) {| opt_algorithm := None; opt_key := None |}
    (set_net_pos (S (net_pos w1)) (set_clock_pos (S (clock_pos w1)) w1))
    = (Ok encryptedPrice, w2) ->
  createHealthFactorComputation env
    (EncryptedPosition.encryptedCollateral encryptedPosition)
    (EncryptedPosition.encryptedDebt encryptedPosition)
    encryptedPrice (EncryptedPosition.positionId encryptedPosition) w2 = (Err e, w3) ->
  openPrivatePosition env ledger params w =
    (Err (Error ("Private position creation failed: " +:+ exn_toString e)), w3) /\
  (net_pos w < net_pos w3)%nat.
Proof.
  intros Hon Hpos Hpda Hrpc Hprice Hcreate.
  split.
  - unfold openPrivatePosition, bind at 1, gets. rewrite Hon. cbn [negb].
    unfold try_catch, bind, throw, getCurrentPrice, ret, lift, network, Date_now, gets.
    rewrite Hpos, Hpda. cbn [fst snd clock_pos net_pos set_clock_pos set_net_pos].
    rewrite Hrpc, Hprice, Hcreate. reflexivity.
  - destruct (encryptPositionData_only_draws env
                (PrivatePositionParams.collateralAmount params)
                (PrivatePositionParams.debtAmount params)
                (PrivatePositionParams.owner params) w) as (r & c & Hstate).
    rewrite Hpos in Hstate. cbn [snd] in Hstate.
    pose proof (encryptData_only_draws env (DBigint 150000000)
                  {| opt_algorithm := None; opt_key := None |}
                  (set_net_pos (S (net_pos w1)) (set_clock_pos (S (clock_pos w1)) w1)))
      as Hw2.
    rewrite Hprice in Hw2. cbn [snd] in Hw2.
    assert (Hnet2 : net_pos w2 = S (net_pos w)).
    { rewrite Hw2, Hstate. reflexivity. }
    assert (Hmono : (net_pos w2 <= net_pos w3)%nat).
    { pose proof (f_equal snd Hcreate) as Hsnd. cbn [snd] in Hsnd. rewrite <- Hsnd.
      apply (createHealthFactorComputation_net env). }
    lia.
Qed.

End LedgerProperties.

(** * The hook *)

(** Raising the privacy level never removes a warning and never changes
    the verdict: every warning given at a level is given at each higher
    level, for the same amounts. *)
Theorem validatePrivacySettings_monotone (collateralAmount debtAmount : Z)
  (lower higher : PrivacyLevel) :
  PrivacyLevel_value lower <= PrivacyLevel_value higher ->
  incl (warnings (validatePrivacySettings collateralAmount debtAmount lower))
       (warnings (validatePrivacySettings collateralAmount debtAmount higher)) /\
  isValid (validatePrivacySettings collateralAmount debtAmount lower) =
  isValid (validatePrivacySettings collateralAmount debtAmount higher).
Proof.
  intros Hle. unfold validatePrivacySettings.
  destruct (collateralAmount <=? 0), (debtAmount <? 0), (debtAmount =? 0),
    (collateralAmount <? 1000000000);
    destruct lower, higher; cbn in Hle; try lia;
    cbn; (split; [|reflexivity]); intros m Hm; cbn in *; tauto.
Qed.

(** Settings get no warning at all exactly when the collateral is
    positive, the debt is not negative, a level from CONFIDENTIAL up has
    some debt and the PRIVATE level has at least 1000000000 of collateral;
    settings without warning are valid, and below CONFIDENTIAL valid
    settings have no warning. *)
Theorem validatePrivacySettings_clean (collateralAmount debtAmount : Z)
  (privacyLevel : PrivacyLevel) :
  let v := validatePrivacySettings collateralAmount debtAmount privacyLevel in
  (warnings v = [] <->
     0 < collateralAmount /\ 0 <= debtAmount /\
     (2 <= PrivacyLevel_value privacyLevel -> debtAmount <> 0) /\
     (3 <= PrivacyLevel_value privacyLevel -> 1000000000 <= collateralAmount)) /\
  (warnings v = [] -> isValid v = true) /\
  (PrivacyLevel_value privacyLevel < 2 -> isValid v = true -> warnings v = []).
Proof.
  unfold validatePrivacySettings.
  destruct (Z.leb_spec collateralAmount 0), (Z.ltb_spec debtAmount 0),
    (Z.eqb_spec debtAmount 0), (Z.ltb_spec collateralAmount 1000000000);
    destruct privacyLevel; cbn;
    repeat split; intros; try discriminate; try reflexivity; try lia;
    repeat match goal with H : _ /\ _ |- _ => destruct H end; try lia.
Qed.

(** Each of the four levels has a description of its own, and every other
    number gets the description of an unknown level. *)
Theorem getPrivacyLevelDescription_levels :
  (forall l l',
     getPrivacyLevelDescription (PrivacyLevel_value l) =
     getPrivacyLevelDescription (PrivacyLevel_value l') -> l = l') /\
  (forall level,
     getPrivacyLevelDescription level = "Unknown privacy level" <->
     ~ 0 <= level <= 3).
Proof.
  split.
  - intros l l'; destruct l, l'; cbn; intros Heq; try reflexivity; discriminate Heq.
  - intros level. split.
    + intros H [H0 H3].
      assert (level = 0 \/ level = 1 \/ level = 2 \/ level = 3) as Hcases by lia.
      destruct Hcases as [->|[->|[->| ->]]]; discriminate H.
    + intros H. destruct level as [|p|p]; [exfalso; lia | | reflexivity].
      destruct p as [[p|p|]|[p|p|]|]; try reflexivity; exfalso; apply H; lia.
Qed.

Section HookProperties.

Context `{platform : Platform} (env : Env).

(** The hook's [encryptPosition] never throws.  It returns a position
    exactly when it holds a client and [encryptPositionData] returns one,
    and then the error of the hook is left as it was, a stale one
    included.  Without a client nothing happens to the state of the
    client; and a client that is not initialised gives the same message as
    no client at all. *)
Theorem hook_encryptPosition_reports (collateralAmount debtAmount : Z)
  (owner : PublicKey) (h : Hook.State) (w : World) :
  let outcome := hook_encryptPosition env collateralAmount debtAmount owner h w in
  let found := fst (fst outcome) in
  let h' := snd (fst outcome) in
  (found <> None <->
     Hook.arciumClient h = true /\
     is_ok (fst (encryptPositionData env collateralAmount debtAmount owner w)) = true) /\
  (found <> None -> Hook.error h' = Hook.error h) /\
  (found = None -> exists message, Hook.error h' = Some message) /\
  (Hook.arciumClient h = false ->
     snd outcome = w /\ Hook.error h' = Some "Arcium client not initialized") /\
  (Hook.arciumClient h = true -> isInitialized w = false ->
     found = None /\ Hook.error h' = Some "Arcium client not initialized").
Proof.
  unfold hook_encryptPosition.
  destruct (Hook.arciumClient h) eqn:Hclient; cbn [negb].
  - destruct (isInitialized w) eqn:Hinit.
    + destruct (encryptPositionData env collateralAmount debtAmount owner w)
        as [[pos|e] w'];
        cbn; repeat split; intros; try discriminate; try congruence; eauto;
        repeat match goal with H : _ /\ _ |- _ => destruct H end; congruence.
    + unfold encryptPositionData, bind, gets, throw. rewrite Hinit.
      cbn. repeat split; intros; try discriminate; try congruence; eauto;
        repeat match goal with H : _ /\ _ |- _ => destruct H end; congruence.
  - cbn. repeat split; intros; try discriminate; try congruence; eauto;
      repeat match goal with H : _ /\ _ |- _ => destruct H end; congruence.
Qed.


(** The identifier that the hook returns for a submitted computation is
    the decimal rendering of the offset of its reference: converted back,
    it is that offset. *)
Theorem hook_createHealthFactorComputation_identifier
  (encryptedCollateral encryptedDebt encryptedPrice : EncryptedData.t)
  (positionId computationId : string) (h h' : Hook.State) (w w' : World) :
  hook_createHealthFactorComputation env encryptedCollateral encryptedDebt encryptedPrice
    positionId h w = (Some computationId, h', w') ->
  exists computationRef,
    createHealthFactorComputation env encryptedCollateral encryptedDebt encryptedPrice
      positionId w = (Ok computationRef, w') /\
    JS.BigInt_of_string computationId = Ok (computationOffset computationRef) /\
    h' = h.
Proof.
  unfold hook_createHealthFactorComputation.
  destruct (Hook.arciumClient h); cbn [negb]; [|discriminate].
  destruct (createHealthFactorComputation env _ _ _ _ w) as [[ref|e] w1]; [|discriminate].
  intros [= <- <- <-]. exists ref. rewrite BigInt_of_toString. auto.
Qed.

End HookProperties.

(** * The properties at work *)

Lemma initialize_makes_ready_witness :
  getArciumProgram toy_env (net_pos new_client) = Ok ArciumProgram /\
  exists w',
    initialize (platform := toy_platform) toy_env None new_client = (Ok tt, w') /\
    isInitialized w' = true /\
    _arciumProgram w' = Some ArciumProgram.
Proof.
  split; [reflexivity|].
  destruct (initialize_makes_ready (platform := toy_platform) toy_env None ArciumProgram
              new_client eq_refl) as (w' & Hrun & Hinit & Hprogram & _).
  exists w'. auto.
Defined.

(** A second [initialize], while the program cannot be obtained, throws;
    the client stays initialised. *)
Lemma initialize_failure_keeps_readiness_witness :
  getArciumProgram offline_env (net_pos ready) = Err (Error "program account not found") /\
  exists w',
    initialize (platform := toy_platform) offline_env None ready =
      (Err (Error ("Arcium initialization failed: " +:+
                   exn_toString (Error "program account not found"))), w') /\
    isInitialized w' = true.
Proof.
  split; [reflexivity|].
  destruct (initialize_failure_keeps_readiness (platform := toy_platform) offline_env None
              (Error "program account not found") ready eq_refl)
    as (w' & Hrun & Hinit & _).
  exists w'. auto.
Defined.

Lemma encryptData_returns_witness :
  exists ed w',
    encryptData (platform := toy_platform) toy_env (DBigint 5)
      {| opt_algorithm := Some AES_128; opt_key := None |} ready = (Ok ed, w') /\
    EncryptedData.algorithm ed = AES_128 /\
    length (EncryptedData.nonce ed) = 12%nat /\
    length (EncryptedData.key ed) = 16%nat.
Proof.
  destruct (encryptData (platform := toy_platform) toy_env (DBigint 5)
              {| opt_algorithm := Some AES_128; opt_key := None |} ready)
    as [[ed|e] w'] eqn:Hrun; [|vm_compute in Hrun; discriminate Hrun].
  exists ed, w'. split; [reflexivity|].
  destruct (encryptData_returns (platform := toy_platform) toy_env _ _ _ _ _ Hrun)
    as (Halg & Hnonce & _ & _ & Hkey).
  auto.
Defined.

Lemma not_initialized_is_refused_witness :
  isInitialized new_client = false /\
  getMempoolStats toy_ledger new_client =
    (Err (Error "Arcium client not initialized"), new_client).
Proof.
  split; [reflexivity|].
  destruct (not_initialized_is_refused (platform := toy_platform) toy_env toy_ledger
              new_client eq_refl) as (_ & _ & Hstats).
  exact Hstats.
Defined.

(** The stand-in cipher reverses its input: the bytes 1, 2 decrypt to 2, 1,
    read as 2 * 256 + 1. *)
Lemma decryptTransactionAmount_value_witness :
  let encryptedData :=
    EncryptedData.mk [Byte.x01; Byte.x02] (repeat Byte.x00 32) (repeat Byte.x00 12) AES_256 in
  privacyEnabled private_ready = true /\
  decryptData (platform := toy_platform) encryptedData private_ready
    = (Ok [Byte.x02; Byte.x01], private_ready) /\
  decryptTransactionAmount (platform := toy_platform) encryptedData private_ready
    = (Ok 513, private_ready).
Proof.
  intros encryptedData.
  assert (Hdec : decryptData (platform := toy_platform) encryptedData private_ready
                 = (Ok [Byte.x02; Byte.x01], private_ready)) by reflexivity.
  split; [reflexivity|]. split; [exact Hdec|].
  rewrite (decryptTransactionAmount_value (platform := toy_platform) encryptedData
             [Byte.x02; Byte.x01] private_ready eq_refl Hdec).
  reflexivity.
Defined.

Lemma privacy_disabled_is_refused_witness :
  privacyEnabled ready = false /\
  batchHealthComputations (platform := toy_platform) toy_env ["pos_1"; "pos_2"] ready =
    (Err (Error "Privacy features are not enabled"), ready).
Proof.
  split; [reflexivity|].
  destruct (privacy_disabled_is_refused (platform := toy_platform) toy_env toy_ledger
              ready eq_refl) as (_ & _ & _ & _ & _ & Hbatch).
  apply Hbatch.
Defined.

(** With a clock and a random source that are stuck, two clients at
    different places in the random stream get the same identifier, and
    their eight bytes are the same. *)
Lemma generatePositionId_injective_witness :
  exists id,
    fst (generatePositionId stuck_env ready) = Ok id /\
    fst (generatePositionId stuck_env (set_rand_pos 100 ready)) = Ok id /\
    map (getRandomValues stuck_env) (seq (rand_pos ready) 8) =
    map (getRandomValues stuck_env) (seq (rand_pos (set_rand_pos 100 ready)) 8).
Proof.
  exists (match fst (generatePositionId stuck_env ready) with
          | Ok id => id
          | Err _ => EmptyString
          end).
  assert (H1 : fst (generatePositionId stuck_env ready) =
               Ok (match fst (generatePositionId stuck_env ready) with
                   | Ok id => id
                   | Err _ => EmptyString
                   end)) by (vm_compute; reflexivity).
  assert (H2 : fst (generatePositionId stuck_env (set_rand_pos 100 ready)) =
               Ok (match fst (generatePositionId stuck_env ready) with
                   | Ok id => id
                   | Err _ => EmptyString
                   end)) by (vm_compute; reflexivity).
  split; [exact H1|]. split; [exact H2|].
  exact (generatePositionId_injective stuck_env _ _ _ H1 H2).
Defined.

Lemma extractComputationReference_without_marker_witness :
  let confirmation :=
    {| conf_err := None;
       conf_logMessages := Some ["Program log: Instruction: Queue"; "Program log: done"] |} in
  (forall logs log, conf_logMessages confirmation = Some logs -> In log logs ->
                    JS.includes marker log = false) /\
  extractComputationReference confirmation =
    Err (Error "Could not extract computation reference from transaction").
Proof.
  intros confirmation.
  assert (Hlogs : forall logs log, conf_logMessages confirmation = Some logs ->
                                   In log logs -> JS.includes marker log = false).
  { intros logs log [= <-] [<-|[<-|[]]]; reflexivity. }
  split; [exact Hlogs|].
  exact (extractComputationReference_without_marker confirmation Hlogs).
Defined.

Lemma extractComputationReference_reads_offset_witness :
  let before := ["Program log: Instruction: Queue"] in
  let later := ["Program log: Computation created: 9"] in
  (forall log, In log before -> JS.includes marker log = false) /\
  no_char "C" "Program log: " /\
  extractComputationReference
    {| conf_err := None;
       conf_logMessages :=
         Some (before ++
               ("Program log: " +:+ marker +:+ String " " (JS.toString 10 42)) :: later) |}
  = Ok {| computationOffset := 42 |}.
Proof.
  intros before later.
  assert (Hbefore : forall log, In log before -> JS.includes marker log = false).
  { intros log [<-|[]]; reflexivity. }
  assert (Hp : no_char "C" "Program log: ").
  { cbn. repeat split; intros Heq; discriminate Heq. }
  split; [exact Hbefore|]. split; [exact Hp|].
  exact (extractComputationReference_reads_offset None before later "Program log: " 42
           Hbefore Hp).
Defined.

Lemma createHealthFactorComputation_registers_witness :
  let confirmation :=
    {| conf_err := None;
       conf_logMessages := Some ["Program log: Computation created: 7"] |} in
  isInitialized ready = true /\
  is_Some (_arciumProgram ready) /\
  buildFinalizeCompDefTx toy_env (net_pos ready) = None /\
  sendRawTransaction toy_env (S (net_pos ready)) = Ok "signature" /\
  confirmTransaction toy_env (S (S (net_pos ready))) = Ok confirmation /\
  conf_err confirmation = None /\
  extractComputationReference confirmation = Ok {| computationOffset := 7 |} /\
  exists w',
    createHealthFactorComputation (platform := toy_platform) toy_env
      sample_input sample_input sample_input "pos_1" ready
      = (Ok {| computationOffset := 7 |}, w') /\
    is_Some (computationCallbacks w' !! health_factor_key "pos_1").
Proof.
  intros confirmation.
  assert (Hp : is_Some (_arciumProgram ready)) by (exists ArciumProgram; reflexivity).
  assert (Hx : extractComputationReference confirmation = Ok {| computationOffset := 7 |})
    by (vm_compute; reflexivity).
  split; [reflexivity|]. split; [exact Hp|]. split; [reflexivity|]. split; [reflexivity|].
  split; [reflexivity|]. split; [reflexivity|]. split; [exact Hx|].
  destruct (createHealthFactorComputation_registers (platform := toy_platform) toy_env
              sample_input sample_input sample_input "pos_1" "signature" confirmation
              {| computationOffset := 7 |} ready eq_refl Hp eq_refl eq_refl eq_refl
              eq_refl Hx) as (w' & Hrun & Hcallbacks & _).
  exists w'. split; [exact Hrun|].
  rewrite Hcallbacks, lookup_insert_eq. eexists; reflexivity.
Defined.

Lemma createHealthFactorComputation_other_position_witness :
  "pos_2"%string <> "pos_1"%string /\
  computationCallbacks
    (snd (createHealthFactorComputation (platform := toy_platform) toy_env
            sample_input sample_input sample_input "pos_1" ready))
    !! health_factor_key "pos_2" =
  computationCallbacks ready !! health_factor_key "pos_2".
Proof.
  assert (Hne : "pos_2"%string <> "pos_1"%string) by discriminate.
  split; [exact Hne|].
  exact (createHealthFactorComputation_other_position (platform := toy_platform) toy_env
           sample_input sample_input sample_input "pos_1" "pos_2" ready Hne).
Defined.

(** A refused submission, a second [initialize] and an encryption leave
    the client ready. *)
Lemma readiness_is_kept_witness :
  let calls :=
    [call_createHealthFactorComputation sample_input sample_input sample_input "pos_1";
     call_initialize None;
     call_encryptData (DBigint 5) {| opt_algorithm := None; opt_key := None |}] in
  isInitialized ready = true /\
  is_Some (_arciumProgram ready) /\
  let w' := fold_left (fun w c => after (platform := toy_platform) flaky_env c w) calls ready in
  isInitialized w' = true /\ is_Some (_arciumProgram w').
Proof.
  intros calls.
  assert (Hp : is_Some (_arciumProgram ready)) by (exists ArciumProgram; reflexivity).
  split; [reflexivity|]. split; [exact Hp|].
  exact (readiness_is_kept (platform := toy_platform) flaky_env calls ready eq_refl Hp).
Defined.

Lemma monitorComputation_result_witness :
  exists result w',
    monitorComputation (platform := toy_platform) toy_env {| computationOffset := 7 |} ready
      = (Ok result, w') /\
    length (PrivateHealthResult.healthFactor result) = 32%nat /\
    JS.BigInt_of_string (PrivateHealthResult.computationId result) = Ok 7 /\
    same_registry ready w'.
Proof.
  destruct (monitorComputation (platform := toy_platform) toy_env
              {| computationOffset := 7 |} ready)
    as [[result|e] w'] eqn:Hrun; [|vm_compute in Hrun; discriminate Hrun].
  exists result, w'. split; [reflexivity|].
  destruct (monitorComputation_result (platform := toy_platform) toy_env _ _ _ _ Hrun)
    as (Hhealth & _ & Hid & _ & _ & _ & Hregistry).
  auto.
Defined.

Lemma getPrivatePosition_never_throws_witness :
  privacyEnabled private_ready = true /\
  exists found w',
    getPrivatePosition (platform := toy_platform) toy_env "pos_1" private_ready
      = (Ok found, w').
Proof.
  split; [reflexivity|].
  destruct (getPrivatePosition_never_throws (platform := toy_platform) toy_env "pos_1"
              private_ready eq_refl) as (found & w' & Hrun & _).
  exists found, w'. exact Hrun.
Defined.

Lemma computePrivateHealth_registers_witness :
  exists result w',
    computePrivateHealth (platform := toy_platform) toy_env "pos_1" private_ready
      = (Ok result, w') /\
    is_Some (computationCallbacks w' !! health_factor_key "pos_1").
Proof.
  destruct (computePrivateHealth (platform := toy_platform) toy_env "pos_1" private_ready)
    as [[result|e] w'] eqn:Hrun; [|vm_compute in Hrun; discriminate Hrun].
  exists result, w'. split; [reflexivity|].
  exact (computePrivateHealth_registers (platform := toy_platform) toy_env _ _ _ _ Hrun).
Defined.

Lemma batchHealthComputations_bounded_witness :
  privacyEnabled private_ready = true /\
  (exists encryptedPrice w1,
     encryptData (platform := toy_platform) toy_env (DBigint 150000000)
       {| opt_algorithm := None; opt_key := None |} private_ready
       = (Ok encryptedPrice, w1)) /\
  exists results w',
    batchHealthComputations (platform := toy_platform) toy_env ["pos_1"; "pos_2"]
      private_ready = (Ok results, w') /\
    (length results <= 2)%nat.
Proof.
  split; [reflexivity|].
  destruct (encryptData (platform := toy_platform) toy_env (DBigint 150000000)
              {| opt_algorithm := None; opt_key := None |} private_ready)
    as [[encryptedPrice|e] w1] eqn:Hprice; [|vm_compute in Hprice; discriminate Hprice].
  split; [exists encryptedPrice, w1; reflexivity|].
  exact (batchHealthComputations_bounded (platform := toy_platform) toy_env
           ["pos_1"; "pos_2"] encryptedPrice private_ready w1 eq_refl Hprice).
Defined.

(** A client that was never initialised answers a batch with no result
    and no error. *)
Lemma batchHealthComputations_not_initialized_witness :
  isInitialized (set_privacyEnabled true new_client) = false /\
  exists w',
    batchHealthComputations (platform := toy_platform) toy_env ["pos_1"; "pos_2"]
      (set_privacyEnabled true new_client) = (Ok [], w').
Proof.
  split; [reflexivity|].
  destruct (batchHealthComputations (platform := toy_platform) toy_env ["pos_1"; "pos_2"]
              (set_privacyEnabled true new_client))
    as [[results|e] w'] eqn:Hrun; [|vm_compute in Hrun; discriminate Hrun].
  exists w'.
  rewrite (batchHealthComputations_not_initialized (platform := toy_platform) toy_env
             ["pos_1"; "pos_2"] results (set_privacyEnabled true new_client) w'
             eq_refl Hrun).
  reflexivity.
Defined.

(** The position is asked for at the PRIVATE level and recorded as
    CONFIDENTIAL. *)
Lemma openPrivatePosition_receipt_witness :
  let params := PrivatePositionParams.mk sample_owner 2000000000 1000 "SOL" PRIVATE in
  exists receipt w',
    openPrivatePosition (platform := toy_platform) toy_env toy_ledger params private_ready
      = (Ok receipt, w') /\
    EncryptedPosition.privacyLevel (PrivatePositionReceipt.encryptedPosition receipt)
      = CONFIDENTIAL /\
    length (PrivatePositionReceipt.computationReferences receipt) = 1%nat.
Proof.
  intros params.
  destruct (openPrivatePosition (platform := toy_platform) toy_env toy_ledger params
              private_ready)
    as [[receipt|e] w'] eqn:Hrun; [|vm_compute in Hrun; discriminate Hrun].
  exists receipt, w'. split; [reflexivity|].
  destruct (openPrivatePosition_receipt (platform := toy_platform) toy_env toy_ledger
              _ _ _ _ Hrun) as (Hlevel & _ & Hrefs & _).
  auto.
Defined.

(** A collateral that does not fit 64 bytes. *)
Lemma openPrivatePosition_encryption_failure_witness :
  let params := PrivatePositionParams.mk sample_owner (2 ^ 512) 1000 "SOL" PRIVATE in
  privacyEnabled private_ready = true /\
  exists e w1,
    encryptPositionData (platform := toy_platform) toy_env (2 ^ 512) 1000 sample_owner
      private_ready = (Err e, w1) /\
    openPrivatePosition (platform := toy_platform) toy_env toy_ledger params private_ready =
      (Err (Error ("Private position creation failed: " +:+ exn_toString e)), w1) /\
    sent w1 = sent private_ready.
Proof.
  intros params. split; [reflexivity|].
  destruct (encryptPositionData (platform := toy_platform) toy_env (2 ^ 512) 1000
              sample_owner private_ready)
    as [[pos|e] w1] eqn:Hrun; [vm_compute in Hrun; discriminate Hrun|].
  exists e, w1. split; [reflexivity|].
  destruct (openPrivatePosition_encryption_failure (platform := toy_platform) toy_env
              toy_ledger params e private_ready w1 eq_refl Hrun)
    as (Hopen & _ & Hsent & _).
  auto.
Defined.

(** The ledger opens the position, then the network refuses the
    computation: the method throws after the position was opened. *)
Lemma openPrivatePosition_after_ledger_witness :
  let params := PrivatePositionParams.mk sample_owner 2000000000 1000 "SOL" PRIVATE in
  privacyEnabled private_ready = true /\
  exists message w3,
    openPrivatePosition (platform := toy_platform) refusing_env toy_ledger params
      private_ready = (Err (Error ("Private position creation failed: " +:+ message)), w3) /\
    (net_pos private_ready < net_pos w3)%nat.
Proof.
  intros params. split; [reflexivity|].
  eexists. eexists.
  eapply (openPrivatePosition_after_ledger (platform := toy_platform) refusing_env
            toy_ledger params).
  - reflexivity.
  - vm_compute; reflexivity.
  - reflexivity.
  - reflexivity.
  - vm_compute; reflexivity.
  - vm_compute; reflexivity.
Defined.

Lemma validatePrivacySettings_monotone_witness :
  PrivacyLevel_value SHIELDED <= PrivacyLevel_value PRIVATE /\
  incl (warnings (validatePrivacySettings 500000000 0 SHIELDED))
       (warnings (validatePrivacySettings 500000000 0 PRIVATE)) /\
  isValid (validatePrivacySettings 500000000 0 SHIELDED) =
  isValid (validatePrivacySettings 500000000 0 PRIVATE).
Proof.
  assert (Hle : PrivacyLevel_value SHIELDED <= PrivacyLevel_value PRIVATE) by (cbn; lia).
  split; [exact Hle|].
  exact (validatePrivacySettings_monotone 500000000 0 SHIELDED PRIVATE Hle).
Defined.


(** C2 at work, on scenario A, with ciphers like those of the package. *)
Lemma encryptPositionData_nonce_refused_witness :
  @cipher_refuses_nonce sdk_platform /\
  isInitialized ready = true /\
  fst (encryptPositionData (platform := sdk_platform) toy_env 2000000000 0 sample_owner
         ready) =
    Err (Error ("Position encryption failed: Error: Data encryption failed: " +:+
                "Error: nonce must be of length 8 (found 12)")).
Proof.
  split; [exact sdk_cipher_refuses_nonce|]. split; [reflexivity|].
  destruct (encryptPositionData_nonce_refused (platform := sdk_platform) toy_env
              2000000000 0 sample_owner ready sdk_cipher_refuses_nonce eq_refl)
    as ((e & Hfst & Hcause) & _).
  destruct (Hcause eq_refl) as (bs & Hbs & He).
  vm_compute in Hbs. injection Hbs as <-.
  vm_compute in He. injection He as <-.
  exact Hfst.
Defined.

Lemma hook_createHealthFactorComputation_identifier_witness :
  let h := Hook.mk true None in
  exists computationId w',
    hook_createHealthFactorComputation (platform := toy_platform) toy_env
      sample_input sample_input sample_input "pos_1" h ready = (Some computationId, h, w') /\
    JS.BigInt_of_string computationId = Ok 7.
Proof.
  intros h.
  destruct (hook_createHealthFactorComputation (platform := toy_platform) toy_env
              sample_input sample_input sample_input "pos_1" h ready)
    as [[[computationId|] h'] w'] eqn:Hrun; [|vm_compute in Hrun; discriminate Hrun].
  destruct (hook_createHealthFactorComputation_identifier (platform := toy_platform) toy_env
              _ _ _ _ _ _ _ _ _ Hrun) as (computationRef & Hcreate & Hid & ->).
  exists computationId, w'. split; [reflexivity|].
  rewrite Hid. f_equal.
  assert (Hfst : fst (createHealthFactorComputation (platform := toy_platform) toy_env
                        sample_input sample_input sample_input "pos_1" ready)
                 = Ok computationRef) by (rewrite Hcreate; reflexivity).
  vm_compute in Hfst. injection Hfst as <-. reflexivity.
Defined.
